(** * find-knife-brands: the request/result pipeline of getBrandWebsite.js

    A shallow embedding of [src/getBrandWebsite.js]: the Query Client
    ([findBrandWebsite]), the Completion Store ([checkExistingResults], in
    its full and its show-mode variant), the Batch Runner ([processBrands])
    and the Interruption Handler ([gracefulShutdown]).

    Conventions of the embedding.
    - A JavaScript string is the list of its UTF-16 code units.
    - A JavaScript value that came out of [JSON.parse], or that is built by
      object literals of the program, is a [json] value; [undefined] is the
      [None] of an [option json].  Two values that are no JSON are among
      them, since the program can meet them: an infinity, and a function.
    - A number is the rational it stands for.  What [JSON.parse],
      [parseInt] and [parseFloat] read is rounded to the nearest double,
      ties to even, and is an infinity beyond the range of doubles; the
      success rate of a Run Record is computed in doubles, as the code
      computes it.  The token
      counters, which add up what the backend reports, are kept exact: the
      figures derived from them may differ from the code's in their last
      digit, and no statement below depends on their value.
    - Thrown exceptions are explicit: a computation yields [Normal v] or
      [Throw e], and [try]/[catch] is a combinator.
    - Console output is left out, except the warnings of the Completion
      Store, which are collected in a list. *)

From Stdlib Require Import List NArith ZArith QArith Qround Qabs Bool Ascii String Lia.
From Stdlib Require Import DecimalString Permutation.
Import ListNotations.

Local Open Scope string_scope.
Local Open Scope N_scope.
Local Open Scope list_scope.

(* ================================================================== *)
(** ** JavaScript strings *)

Module JsString.

Definition code_unit := N.
Definition jsstring := list code_unit.

(** The code units of a literal of the source text. *)
Definition js (s : string) : jsstring :=
  map N_of_ascii (list_ascii_of_string s).

(** A literal in which each apostrophe stands for a double quote: JSON texts
    are written this way below. *)
Definition jq (s : string) : jsstring :=
  map (fun c => if c =? 39 then 34 else c) (js s).

Fixpoint eqb (s t : jsstring) : bool :=
  match s, t with
  | [], [] => true
  | c :: s', d :: t' => (c =? d) && eqb s' t'
  | _, _ => false
  end.

(** [s.startsWith(p)] *)
Fixpoint startsWith (p s : jsstring) : bool :=
  match p, s with
  | [], _ => true
  | c :: p', d :: s' => (c =? d) && startsWith p' s'
  | _ :: _, [] => false
  end.

(** [s.endsWith(p)] *)
Definition endsWith (p s : jsstring) : bool :=
  startsWith (rev p) (rev s).

(** [s.includes(p)] *)
Fixpoint includes (p s : jsstring) : bool :=
  startsWith p s ||
  match s with
  | [] => false
  | _ :: s' => includes p s'
  end.

(** [s.substring(0, n)] *)
Definition substring0 (n : nat) (s : jsstring) : jsstring := firstn n s.

(** [s.replace(/[...]/g, by)] for a character class given as a predicate. *)
Definition replace_class (cls : code_unit -> bool) (by_ : code_unit)
    (s : jsstring) : jsstring :=
  map (fun c => if cls c then by_ else c) s.

(** [s.replace(c, by)] with a one-character string pattern: only the first
    occurrence is replaced. *)
Fixpoint replace_first (c by_ : code_unit) (s : jsstring) : jsstring :=
  match s with
  | [] => []
  | d :: s' => if d =? c then by_ :: s' else d :: replace_first c by_ s'
  end.

(** [s.toUpperCase()] on the letters a-z; the program applies it to its own
    error labels only. *)
Definition toUpperCase (s : jsstring) : jsstring :=
  map (fun c => if (97 <=? c) && (c <=? 122) then c - 32 else c) s.

(** Decimal rendering of a non-negative integer, as template literals do. *)
Definition of_nat (n : nat) : jsstring :=
  js (NilZero.string_of_uint (Nat.to_uint n)).

Definition of_Z (z : Z) : jsstring :=
  js (NilZero.string_of_int (Z.to_int z)).

End JsString.

Import JsString.

(* ================================================================== *)
(** ** JSON values and [JSON.parse] *)

Module Json.

#[local] Set Warnings "-register-all".

Inductive json :=
| JNull
| JBool (b : bool)
| JNum (q : Q)
| JStr (s : jsstring)
| JArr (items : list json)
| JObj (props : list (jsstring * json))
| JInfinity (negative : bool)    (* what a numeral beyond the doubles reads as *)
| JFunction.                     (* a function of [Object.prototype] *)

(** Own properties of an object, in insertion order.  (The place JavaScript
    gives to integer-like keys is not modelled: only lookups matter here.) *)
Definition props_t := list (jsstring * json).

Fixpoint get_own (k : jsstring) (o : props_t) : option json :=
  match o with
  | [] => None
  | (k', v) :: o' => if JsString.eqb k' k then Some v else get_own k o'
  end.

(** [o[k] = v]: an existing property keeps its place, a new one goes last. *)
Fixpoint set_own (k : jsstring) (v : json) (o : props_t) : props_t :=
  match o with
  | [] => [(k, v)]
  | (k', v') :: o' =>
      if JsString.eqb k' k then (k, v) :: o' else (k', v') :: set_own k v o'
  end.

(** [delete o[k]] *)
Definition delete_own (k : jsstring) (o : props_t) : props_t :=
  filter (fun kv => negb (JsString.eqb (fst kv) k)) o.

(** Truthiness of a value ([None] is [undefined]). *)
Definition truthy (v : option json) : bool :=
  match v with
  | None => false
  | Some JNull => false
  | Some (JBool b) => b
  | Some (JNum q) => negb (Z.eqb (Qnum q) 0)
  | Some (JStr s) => match s with [] => false | _ => true end
  | Some (JArr _) => true
  | Some (JObj _) => true
  | Some (JInfinity _) => true
  | Some JFunction => true
  end.

(** *** Doubles *)

(** [2^e] *)
Definition pow2 (e : Z) : Q :=
  if (0 <=? e)%Z then inject_Z (2 ^ e) else 1 # Z.to_pos (2 ^ (- e)).

(** The integer nearest to [x], the even one of two equally near. *)
Definition round_half_even (x : Q) : Z :=
  let f := Qfloor x in
  match (x - inject_Z f ?= 1 # 2)%Q with
  | Lt => f
  | Gt => (f + 1)%Z
  | Eq => if Z.even f then f else (f + 1)%Z
  end.

(** The double nearest to [q], ties to even: 53 significant bits, the
    exponents of the binary64 format, subnormal numbers below [2^-1022].
    [None] when the result is beyond the largest double.  (The two zeros are
    one here: the program never tells them apart.) *)
Definition to_double (q : Q) : option Q :=
  if (Qnum q =? 0)%Z then Some 0%Q
  else
    let a := Qabs q in
    let e0 := (Z.log2 (Qnum a) - Z.log2 (Zpos (Qden a)))%Z in
    let e := if Qle_bool (pow2 e0) a then e0 else (e0 - 1)%Z in
    let quantum := pow2 (Z.max e (-1022) - 52) in
    let r := (inject_Z (round_half_even (a / quantum)) * quantum)%Q in
    if Qle_bool (pow2 1024) r then None
    else Some (Qred (if (Qnum q <? 0)%Z then - r else r)%Q).

(** The Number value of the mathematical value [q]. *)
Definition number_value (q : Q) : json :=
  match to_double q with
  | Some d => JNum d
  | None => JInfinity (Qnum q <? 0)%Z
  end.

(** *** The parser *)

Definition is_ws (c : code_unit) : bool :=
  (c =? 32) || (c =? 9) || (c =? 10) || (c =? 13).

Fixpoint skip_ws (s : jsstring) : jsstring :=
  match s with
  | c :: r => if is_ws c then skip_ws r else s
  | [] => []
  end.

Definition digit_val (c : code_unit) : option N :=
  if (48 <=? c) && (c <=? 57) then Some (c - 48) else None.

Definition hex_val (c : code_unit) : option N :=
  if (48 <=? c) && (c <=? 57) then Some (c - 48)
  else if (97 <=? c) && (c <=? 102) then Some (c - 87)
  else if (65 <=? c) && (c <=? 70) then Some (c - 55)
  else None.

Definition hex4 (a b c d : code_unit) : option code_unit :=
  match hex_val a, hex_val b, hex_val c, hex_val d with
  | Some x, Some y, Some z, Some w => Some (((x * 16 + y) * 16 + z) * 16 + w)
  | _, _, _, _ => None
  end.

(** The character after a backslash, other than [u]. *)
Definition unescape (e : code_unit) : option code_unit :=
  if e =? 34 then Some 34            (* quote *)
  else if e =? 92 then Some 92       (* backslash *)
  else if e =? 47 then Some 47       (* slash *)
  else if e =? 98 then Some 8        (* b: backspace *)
  else if e =? 102 then Some 12      (* f: form feed *)
  else if e =? 110 then Some 10      (* n: line feed *)
  else if e =? 114 then Some 13      (* r: carriage return *)
  else if e =? 116 then Some 9       (* t: tab *)
  else None.

(** The characters of a string literal, after its opening quote. *)
Fixpoint parse_chars (s acc : jsstring) : option (jsstring * jsstring) :=
  match s with
  | [] => None
  | c :: r =>
      if c =? 34 then Some (rev acc, r)
      else if c =? 92 then
        match r with
        | [] => None
        | e :: r1 =>
            if e =? 117 then
              match r1 with
              | h1 :: h2 :: h3 :: h4 :: r2 =>
                  match hex4 h1 h2 h3 h4 with
                  | Some u => parse_chars r2 (u :: acc)
                  | None => None
                  end
              | _ => None
              end
            else
              match unescape e with
              | Some u => parse_chars r1 (u :: acc)
              | None => None
              end
        end
      else if c <? 32 then None
      else parse_chars r (c :: acc)
  end.

(** A run of decimal digits: its value, its length and what follows. *)
Fixpoint digits (s : jsstring) (acc : N) (len : nat) : N * nat * jsstring :=
  match s with
  | c :: r =>
      match digit_val c with
      | Some d => digits r (acc * 10 + d) (S len)
      | None => (acc, len, s)
      end
  | [] => (acc, len, [])
  end.

(** The number [(-1)^neg * m * 10^e]. *)
Definition decimal (neg : bool) (m : N) (e : Z) : Q :=
  let z := if neg then (- Z.of_N m)%Z else Z.of_N m in
  if (0 <=? e)%Z then Qmake (z * 10 ^ e) 1
  else Qmake z (Z.to_pos (10 ^ (- e))).

(** The integer part: a single [0], or digits that start with 1-9. *)
Definition parse_int (s : jsstring) : option (N * jsstring) :=
  match s with
  | c :: r =>
      if c =? 48 then Some (0, r)
      else match digits s 0 0%nat with
           | (_, O, _) => None
           | (m, S _, r') => Some (m, r')
           end
  | [] => None
  end.

Definition parse_frac (m : N) (s : jsstring) : option (N * nat * jsstring) :=
  match s with
  | c :: r =>
      if c =? 46 then
        match digits r m 0%nat with
        | (_, O, _) => None
        | (m', S n, r') => Some (m', S n, r')
        end
      else Some (m, O, s)
  | [] => Some (m, O, [])
  end.

Definition parse_exp (s : jsstring) : option (Z * jsstring) :=
  match s with
  | c :: r =>
      if (c =? 101) || (c =? 69) then
        let '(neg, r1) :=
          match r with
          | d :: r0 => if d =? 45 then (true, r0)
                       else if d =? 43 then (false, r0) else (false, r)
          | [] => (false, r)
          end in
        match digits r1 0 0%nat with
        | (_, O, _) => None
        | (e, S _, r') =>
            Some (if neg then (- Z.of_N e)%Z else Z.of_N e, r')
        end
      else Some (0%Z, s)
  | [] => Some (0%Z, [])
  end.

Definition parse_number (s : jsstring) : option (json * jsstring) :=
  let '(neg, s1) :=
    match s with
    | c :: r => if c =? 45 then (true, r) else (false, s)
    | [] => (false, s)
    end in
  match parse_int s1 with
  | None => None
  | Some (m, s2) =>
      match parse_frac m s2 with
      | None => None
      | Some (m', flen, s3) =>
          match parse_exp s3 with
          | None => None
          | Some (e, s4) =>
              Some (number_value (decimal neg m' (e - Z.of_nat flen)), s4)
          end
      end
  end.

Definition strip_prefix (p s : jsstring) : option jsstring :=
  if startsWith p s then Some (skipn (List.length p) s) else None.

(** One value, then the elements of an array after the first bracket, then
    the members of an object after the first brace.  [fuel] bounds the depth
    of the calls; each call consumes a code unit before it calls deeper,
    except the step from a list of elements or members to its first value,
    so twice the length of the text is enough. *)
Fixpoint parse_value (fuel : nat) (s : jsstring) : option (json * jsstring) :=
  match fuel with
  | O => None
  | S fuel' =>
      match s with
      | [] => None
      | c :: r =>
          if c =? 123 then
            match skip_ws r with
            | d :: r' => if d =? 125 then Some (JObj [], r')
                         else parse_members fuel' (d :: r') []
            | [] => None
            end
          else if c =? 91 then
            match skip_ws r with
            | d :: r' => if d =? 93 then Some (JArr [], r')
                         else parse_elements fuel' (d :: r') []
            | [] => None
            end
          else if c =? 34 then
            match parse_chars r [] with
            | Some (str, r') => Some (JStr str, r')
            | None => None
            end
          else
            match strip_prefix (js "true") s with
            | Some r' => Some (JBool true, r')
            | None =>
            match strip_prefix (js "false") s with
            | Some r' => Some (JBool false, r')
            | None =>
            match strip_prefix (js "null") s with
            | Some r' => Some (JNull, r')
            | None =>
            parse_number s
            end end end
      end
  end
with parse_elements (fuel : nat) (s : jsstring) (acc : list json)
    : option (json * jsstring) :=
  match fuel with
  | O => None
  | S fuel' =>
      match parse_value fuel' s with
      | None => None
      | Some (v, r) =>
          match skip_ws r with
          | d :: r' =>
              if d =? 44 then parse_elements fuel' (skip_ws r') (v :: acc)
              else if d =? 93 then Some (JArr (rev (v :: acc)), r')
              else None
          | [] => None
          end
      end
  end
with parse_members (fuel : nat) (s : jsstring) (acc : props_t)
    : option (json * jsstring) :=
  match fuel with
  | O => None
  | S fuel' =>
      match s with
      | q :: r =>
          if q =? 34 then
            match parse_chars r [] with
            | None => None
            | Some (k, r1) =>
                match skip_ws r1 with
                | d :: r2 =>
                    if d =? 58 then
                      match parse_value fuel' (skip_ws r2) with
                      | None => None
                      | Some (v, r3) =>
                          match skip_ws r3 with
                          | e :: r4 =>
                              if e =? 44 then
                                parse_members fuel' (skip_ws r4) (set_own k v acc)
                              else if e =? 125 then
                                Some (JObj (set_own k v acc), r4)
                              else None
                          | [] => None
                          end
                      end
                    else None
                | [] => None
                end
            end
          else None
      | [] => None
      end
  end.

(** [JSON.parse(text)]: [None] stands for the SyntaxError it throws. *)
Definition JSON_parse (text : jsstring) : option json :=
  match parse_value (2 * List.length text + 2) (skip_ws text) with
  | Some (v, r) => match skip_ws r with [] => Some v | _ :: _ => None end
  | None => None
  end.

End Json.

Import Json.

(* ================================================================== *)
(** ** The Query Client: [makeOpenRouterRequest] and [findBrandWebsite] *)

Module QueryClient.

(** An [Error] object, as far as the program looks at it. *)
Record Error := mkError { message : jsstring }.

Inductive completion (A : Type) :=
| Normal (a : A)
| Throw (e : Error).
Arguments Normal {A} a.
Arguments Throw {A} e.

(** [this.tokenUsage] *)
Record tokenUsage_t := mkTokenUsage {
  totalPromptTokens : Q;
  totalCompletionTokens : Q;
  totalTokens : Q;
  totalCost : Q;
  requestCount : nat;
  brandTokens : list json
}.

(** The fields of a [BrandWebsiteFinder] instance.  [modelName] is what
    [CONFIG.MODELS[modelKey]] gave: the name of a model, a string, for a key
    of the table; a function or the prototype for one of the names the table
    inherits from [Object.prototype]. *)
Record BrandWebsiteFinder := mkFinder {
  modelKey : jsstring;
  modelName : json;
  tokenUsage : tokenUsage_t
}.

(** Methods run on [this] and may throw. *)
Definition M (A : Type) : Type :=
  BrandWebsiteFinder -> completion A * BrandWebsiteFinder.

Definition ret {A} (a : A) : M A := fun this => (Normal a, this).

Definition bind {A B} (c : M A) (k : A -> M B) : M B :=
  fun this =>
    match c this with
    | (Normal a, this') => k a this'
    | (Throw e, this') => (Throw e, this')
    end.

Definition throw {A} (e : Error) : M A := fun this => (Throw e, this).

Definition try_catch {A} (body : M A) (handler : Error -> M A) : M A :=
  fun this =>
    match body this with
    | (Normal a, this') => (Normal a, this')
    | (Throw e, this') => handler e this'
    end.

Definition get_this : M BrandWebsiteFinder := fun this => (Normal this, this).

Definition update_tokenUsage (f : tokenUsage_t -> tokenUsage_t) : M unit :=
  fun this =>
    (Normal tt, mkFinder (modelKey this) (modelName this) (f (tokenUsage this))).

Definition lift {A} (c : completion A) : M A := fun this => (c, this).

Notation "x <- c ;; k" := (bind c (fun x => k))
  (at level 61, c at next level, right associativity).
Notation "c ;;; k" := (bind c (fun _ => k))
  (at level 61, right associativity).

(** *** What the backend answers *)

(** [responseData.usage] *)
Record usage_t := mkUsage {
  prompt_tokens : option Q;
  completion_tokens : option Q;
  total_tokens : option Q;
  cost : option Q
}.

(** [choices[0].message]; [content] is [None] when absent. *)
Record message_t := mkMessage { content : option json }.

(** An entry of [choices]; its [message] may be absent. *)
Record choice_t := mkChoice { choice_message : option message_t }.

(** The body of a 2xx answer; [choices] is [None] when the body has none, an
    entry of the list is [None] when it is [null]. *)
Record responseData := mkResponse {
  choices : option (list (option choice_t));
  usage : option usage_t
}.

(** How one request ends. *)
Inductive fetch_result :=
| FetchRejects (e : Error)            (* transport failure, or the abort of
                                         AbortSignal.timeout *)
| ResponseNotOk (status : nat) (errorText : jsstring)
| BodyRejects (e : Error)             (* reading the body throws:
                                         response.text() or response.json()
                                         rejects, or the body is null *)
| ResponseOk (data : responseData).

(** [x || 0] on a number that may be absent. *)
Definition or_zero (x : option Q) : Q :=
  match x with Some q => q | None => 0%Q end.

Definition makeOpenRouterRequest (reply : fetch_result) : M responseData :=
  match reply with
  | FetchRejects e => throw e
  | ResponseNotOk status errorText =>
      throw (mkError (js "OpenRouter API error: " ++ of_nat status
                        ++ js " - " ++ errorText))
  | BodyRejects e => throw e
  | ResponseOk responseData_ =>
      match usage responseData_ with
      | Some u =>
          update_tokenUsage (fun t =>
            mkTokenUsage
              (totalPromptTokens t + or_zero (prompt_tokens u))%Q
              (totalCompletionTokens t + or_zero (completion_tokens u))%Q
              (totalTokens t + or_zero (total_tokens u))%Q
              (totalCost t + or_zero (cost u))%Q
              (requestCount t + 1)%nat
              (brandTokens t))
      | None => ret tt
      end ;;;
      ret responseData_
  end.

(** [response.choices[0]?.message?.content] *)
Definition choices0_message_content (response : responseData)
    : completion (option json) :=
  match choices response with
  | None =>
      Throw (mkError (js "Cannot read properties of undefined (reading '0')"))
  | Some cs =>
      Normal (match nth_error cs 0 with
              | Some (Some c) =>
                  match choice_message c with
                  | Some m => content m
                  | None => None
                  end
              | _ => None
              end)
  end.

(** *** The regular expression /\{[\s\S]*\}/ *)

(** The text from the first opening brace on. *)
Fixpoint from_first_open (s : jsstring) : option jsstring :=
  match s with
  | [] => None
  | c :: r => if c =? 123 then Some s else from_first_open r
  end.

(** The longest prefix that ends with a closing brace. *)
Fixpoint upto_last_close (s : jsstring) : option jsstring :=
  match s with
  | [] => None
  | c :: r =>
      match upto_last_close r with
      | Some p => Some (c :: p)
      | None => if c =? 125 then Some [c] else None
      end
  end.

(** [content.match(/\{[\s\S]*\}/)]: the leftmost opening brace, then as much
    as possible up to a closing brace; [None] is the [null] of no match. *)
Definition match_braces (s : jsstring) : option jsstring :=
  match from_first_open s with
  | Some (b :: r) =>
      match upto_last_close r with
      | Some p => Some (b :: p)
      | None => None
      end
  | _ => None
  end.

(** [target[k] = v] in sloppy mode: a TypeError on [null], silently nothing
    on a primitive.  (An array would take the property; a text that starts
    with a brace never parses to one, see [JSON_parse_brace].) *)
Definition assign (target : json) (k : jsstring) (v : json) : completion json :=
  match target with
  | JObj o => Normal (JObj (set_own k v o))
  | JNull => Throw (mkError (js "Cannot set properties of null"))
  | other => Normal other
  end.

Definition cbind {A B} (c : completion A) (k : A -> completion B)
    : completion B :=
  match c with
  | Normal a => k a
  | Throw e => Throw e
  end.

(** The properties [prompt_tokens, completion_tokens, total_tokens, cost]
    of a usage object. *)
Definition usage_props (p c t k : Q) : props_t :=
  [(js "prompt_tokens", JNum p); (js "completion_tokens", JNum c);
   (js "total_tokens", JNum t); (js "cost", JNum k)].

Definition null_additional_info : json :=
  JObj [(js "founded", JNull); (js "location", JNull);
        (js "specialties", JNull)].

(** Lines 258-265: the parsed object with the run's fields set on it. *)
Definition parse_and_tag (this : BrandWebsiteFinder) (matched : jsstring)
    (now : jsstring) (content_ : json) (tokensUsed : json) : completion json :=
  cbind (match JSON_parse matched with
         | Some v => Normal v
         | None => Throw (mkError (js "Unexpected token in JSON"))
         end) (fun brandData =>
  cbind (assign brandData (js "model_used") (JStr (modelKey this))) (fun brandData =>
  cbind (assign brandData (js "timestamp") (JStr now)) (fun brandData =>
  cbind (assign brandData (js "raw_response") content_) (fun brandData =>
  cbind (assign brandData (js "error_type") JNull) (fun brandData =>
  cbind (assign brandData (js "success") (JBool true)) (fun brandData =>
  cbind (assign brandData (js "token_usage") tokensUsed) (fun brandData =>
  Normal brandData))))))).

(** Lines 274-291: the record built from an answer without usable JSON. *)
Definition fallback_record (this : BrandWebsiteFinder) (brandName : json)
    (now : jsstring) (text : jsstring) (tokensUsed : json) : json :=
  JObj [(js "brand_name", brandName);
        (js "website_url", JNull);
        (js "description", JStr (substring0 200 text ++ js "..."));
        (js "additional_info", null_additional_info);
        (js "search_confidence", JStr (js "low"));
        (js "notes", JStr (js "Could not parse structured response from model"));
        (js "model_used", JStr (modelKey this));
        (js "timestamp", JStr now);
        (js "raw_response", JStr text);
        (js "error_type", JStr (js "parse_error"));
        (js "success", JBool false);
        (js "token_usage", tokensUsed)].

(** Lines 297-306 *)
Definition classify (error : Error) : jsstring :=
  if includes (js "OpenRouter API error") (message error) then js "api_error"
  else if includes (js "timeout") (message error)
          || includes (js "network") (message error) then js "network_error"
  else if includes (js "No content in response") (message error)
       then js "model_error"
  else if includes (js "fetch") (message error) then js "connection_error"
  else js "unknown_error".

(** Lines 308-330: the record of the catch block. *)
Definition failure_record (this : BrandWebsiteFinder) (brandName : json)
    (now : jsstring) (error : Error) : json :=
  let errorType := classify error in
  JObj [(js "brand_name", brandName);
        (js "website_url", JNull);
        (js "description", JNull);
        (js "additional_info", null_additional_info);
        (js "search_confidence", JStr (js "low"));
        (js "notes", JStr (toUpperCase (replace_first 95 32 errorType)
                            ++ js ": " ++ message error));
        (js "model_used", JStr (modelKey this));
        (js "timestamp", JStr now);
        (js "raw_response", JNull);
        (js "error_type", JStr errorType);
        (js "success", JBool false);
        (js "token_usage", JObj (usage_props 0 0 0 0))].

(** Whether converting a value to a string throws, as a template literal
    and [join] convert it.  An object that came out of [JSON.parse] is
    rendered by the [toString] it inherits, unless it has a property of this
    name of its own: that one is no function, and the [valueOf] that is
    tried next gives no primitive.  An array is the [join] of its elements,
    converted in the same way. *)
Fixpoint ToString_throws (v : json) : bool :=
  match v with
  | JObj o =>
      match get_own (js "toString") o with
      | Some _ => true
      | None => false
      end
  | JArr items => existsb ToString_throws items
  | _ => false
  end.

(** The [try] statement of [findBrandWebsite], lines 222-331, which comes
    after the prompt; [reply] is how the request it issues ends and [now]
    what [new Date().toISOString()] gives when the record is built.
    [brandName] is a string when the caller passes one; [main] passes the
    elements of [brandNames.json], whatever they are. *)
Definition findBrandWebsite_try (brandName : json) (reply : fetch_result)
    (now : jsstring) : M json :=
  try_catch
    (this0 <- get_this ;;
     let tokensBefore := tokenUsage this0 in
     response <- makeOpenRouterRequest reply ;;
     content_ <- lift (choices0_message_content response) ;;
     this1 <- get_this ;;
     let tokensUsed :=
       usage_props
         (totalPromptTokens (tokenUsage this1) - totalPromptTokens tokensBefore)%Q
         (totalCompletionTokens (tokenUsage this1)
            - totalCompletionTokens tokensBefore)%Q
         (totalTokens (tokenUsage this1) - totalTokens tokensBefore)%Q
         (totalCost (tokenUsage this1) - totalCost tokensBefore)%Q in
     update_tokenUsage (fun t =>
       mkTokenUsage (totalPromptTokens t) (totalCompletionTokens t)
         (totalTokens t) (totalCost t) (requestCount t)
         (brandTokens t ++
            [JObj ((js "brand_name", brandName) :: tokensUsed)])) ;;;
     if negb (truthy content_)
     then throw (mkError (js "No content in response from model"))
     else
       match content_ with
       | Some (JStr text) =>
           match match_braces text with
           | Some jsonMatch =>
               match parse_and_tag this1 jsonMatch now (JStr text)
                       (JObj tokensUsed) with
               | Normal brandData => ret brandData
               | Throw parseError =>
                   ret (fallback_record this1 brandName now text
                          (JObj tokensUsed))
               end
           | None =>
               ret (fallback_record this1 brandName now text (JObj tokensUsed))
           end
       | _ =>
           (* a truthy content that is no string has no [match] method *)
           throw (mkError (js "content.match is not a function"))
       end)
    (fun error =>
       this <- get_this ;;
       ret (failure_record this brandName now error)).

(** [findBrandWebsite(brandName)], lines 198-332.  The prompt of lines
    199-220 is a template literal that converts [brandName], outside the
    [try]; apart from this conversion the prompt only goes out to the
    backend. *)
Definition findBrandWebsite (brandName : json) (reply : fetch_result)
    (now : jsstring) : M json :=
  if ToString_throws brandName
  then throw (mkError (js "Cannot convert object to primitive value"))
  else findBrandWebsite_try brandName reply now.

End QueryClient.

Import QueryClient.


(* ================================================================== *)
(** ** The Completion Store: [checkExistingResults] *)

Module CompletionStore.

(** An entry of the results directory: its name and what
    [fs.readFileSync(filepath, 'utf8')] gives, [None] when it throws. *)
Definition dir_entry : Type := jsstring * option jsstring.

(** What [fs.readdirSync(CONFIG.OUTPUT_DIR)] finds, [None] when it throws.
    (The texts of the errors of the file system and of [JSON.parse] only
    show in warnings; one usual wording stands for each.) *)
Definition directory : Type := option (list dir_entry).

(** The character class of the [replace] calls on the model key: slash,
    backslash, colon, star, question mark, double quote, the two angle
    brackets and the bar. *)
Definition unsafe_char (c : code_unit) : bool :=
  (c =? 47) || (c =? 92) || (c =? 58) || (c =? 42) || (c =? 63)
  || (c =? 34) || (c =? 60) || (c =? 62) || (c =? 124).

Definition safeModelKey (modelKey_ : jsstring) : jsstring :=
  replace_class unsafe_char 95 modelKey_.

(** [path.join(CONFIG.OUTPUT_DIR, file)] with [OUTPUT_DIR = './results']. *)
Definition path_join_output (file : jsstring) : jsstring :=
  js "results/" ++ file.

(** The sign and the two blanks that open each warning. *)
Definition warn_sign : jsstring := [9888; 65039; 32; 32].

(** [v.name] for one of the names the store reads ([results], [success],
    [website_url]): a TypeError on [null], the own property of an object,
    [undefined] on anything else. *)
Definition get_named (v : json) (name : jsstring) : completion (option json) :=
  match v with
  | JNull =>
      Throw (mkError (js "Cannot read properties of null (reading '"
                        ++ name ++ js "')"))
  | JObj o => Normal (get_own name o)
  | _ => Normal None
  end.

(** The callback [r => r.success === true && r.website_url], as [filter]
    reads it. *)
Definition is_successful (r : json) : completion bool :=
  cbind (get_named r (js "success")) (fun s =>
    match s with
    | Some (JBool true) =>
        cbind (get_named r (js "website_url")) (fun u => Normal (truthy u))
    | _ => Normal false
    end).

(** [items.filter(f)] for a callback that may throw. *)
Fixpoint filter_c (f : json -> completion bool) (items : list json)
    : completion (list json) :=
  match items with
  | [] => Normal []
  | r :: items' =>
      cbind (f r) (fun keep =>
      cbind (filter_c f items') (fun rest =>
      Normal (if keep then r :: rest else rest)))
  end.

(** [data.results] as something that has [filter] and [length]: only an
    array does. *)
Definition results_of (data : json) : completion (list json) :=
  cbind (get_named data (js "results")) (fun results =>
    match results with
    | Some (JArr items) => Normal items
    | _ => Throw (mkError (js "data.results.filter is not a function"))
    end).

(** [data.results.filter(r => r.success === true && r.website_url)] *)
Definition successful_of (data : json) : completion (list json) :=
  cbind (results_of data) (filter_c is_successful).

(** [JSON.parse(fs.readFileSync(filepath, 'utf8'))] *)
Definition read_and_parse (entry : dir_entry) : completion json :=
  match snd entry with
  | None => Throw (mkError (js "ENOENT: no such file or directory"))
  | Some text =>
      match JSON_parse text with
      | Some data => Normal data
      | None => Throw (mkError (js "Unexpected token in JSON"))
      end
  end.

(** The loop variables [bestFile], [bestSuccessCount], [bestData]. *)
Record best_t := mkBest {
  bestFile : option jsstring;
  bestSuccessCount : nat;
  bestData : option json
}.

(** One turn of the [for (const file of files)] loop, with the warning it
    may print. *)
Definition scan_file (entry : dir_entry) (st : best_t * list jsstring)
    : best_t * list jsstring :=
  let '(best, warnings) := st in
  match cbind (read_and_parse entry) (fun data =>
        cbind (successful_of data) (fun successful =>
        Normal (data, successful))) with
  | Normal (data, successful) =>
      if (bestSuccessCount best <? List.length successful)%nat
      then (mkBest (Some (fst entry)) (List.length successful) (Some data),
            warnings)
      else (best, warnings)
  | Throw error =>
      (best,
       warnings ++ [warn_sign ++ js "Error reading " ++ fst entry ++ js ": "
                      ++ QueryClient.message error])
  end.

Definition scan (files : list dir_entry) : best_t * list jsstring :=
  fold_left (fun st entry => scan_file entry st) files
            (mkBest None 0 None, []).

(** The two [filter] calls on the file names. *)
Definition candidates (modelKey_ : jsstring) (entries : list dir_entry)
    : list dir_entry :=
  filter (fun entry => negb (includes (js "_PARTIAL_") (fst entry)))
    (filter (fun entry =>
               startsWith (js "brand_websites_" ++ safeModelKey modelKey_
                             ++ js "_") (fst entry)
               && endsWith (js ".json") (fst entry))
            entries).

(** The object [checkExistingResults] returns. *)
Record check_t := mkCheck {
  hasResults : bool;
  message : jsstring;
  filepath : option jsstring;
  successfulCount : option nat;
  totalCount : option nat;
  data : option json
}.

(** [checkExistingResults(count)] of the class, lines 80-147, with the
    warnings it prints.  The threshold in the last message is written digit
    by digit, as JavaScript writes an integer up to 2^53. *)
Definition checkExistingResults (this : BrandWebsiteFinder) (dir : directory)
    (count : Z) : check_t * list jsstring :=
  let on_error (error : Error) (warnings : list jsstring) :=
    (mkCheck false (js "Error reading existing results") None None None None,
     warnings ++ [warn_sign ++ js "Error checking existing results: "
                    ++ QueryClient.message error]) in
  match dir with
  | None => on_error (mkError (js "ENOENT: no such file or directory")) []
  | Some entries =>
      let files := candidates (modelKey this) entries in
      if (List.length files =? 0)%nat then
        (mkCheck false (js "No existing results found for " ++ modelKey this)
           None None None None, [])
      else
        let '(best, warnings) := scan files in
        match bestFile best, bestData best with
        | Some bestFile_, Some bestData_ =>
            let filepath_ := path_join_output bestFile_ in
            match cbind (successful_of bestData_) (fun successful =>
                  cbind (results_of bestData_) (fun results =>
                  Normal (List.length successful, List.length results))) with
            | Normal (successful, total) =>
                if (count <=? Z.of_nat successful)%Z then
                  (mkCheck true
                     (js "Found existing results with " ++ of_nat successful
                        ++ js " successful entries (" ++ of_nat total
                        ++ js " total)")
                     (Some filepath_) (Some successful) (Some total)
                     (Some bestData_), warnings)
                else
                  (mkCheck false
                     (js "Best existing results only have "
                        ++ of_nat successful ++ js " successful entries (need "
                        ++ of_Z count ++ js ")")
                     (Some filepath_) (Some successful) (Some total) None,
                   warnings)
            | Throw error => on_error error warnings
            end
        | _, _ =>
            (mkCheck false
               (js "No valid results files found for " ++ modelKey this)
               None None None None, warnings)
        end
  end.

(** The [checkExistingResults] of the object [main] builds for show mode
    when no credential is set, lines 651-706; [modelKey_] is its only
    field. *)
Definition minimal_checkExistingResults (modelKey_ : jsstring)
    (dir : directory) (count : Z) : check_t * list jsstring :=
  let on_error (warnings : list jsstring) :=
    (mkCheck false (js "Error reading existing results") None None None None,
     warnings) in
  match dir with
  | None => on_error []
  | Some entries =>
      let files := candidates modelKey_ entries in
      if (List.length files =? 0)%nat then
        (mkCheck false (js "No existing results found for " ++ modelKey_)
           None None None None, [])
      else
        let '(best, warnings) := scan files in
        match bestFile best, bestData best with
        | Some bestFile_, Some bestData_ =>
            let filepath_ := path_join_output bestFile_ in
            match cbind (successful_of bestData_) (fun successful =>
                  cbind (results_of bestData_) (fun results =>
                  Normal (List.length successful, List.length results))) with
            | Normal (successful, total) =>
                (mkCheck true
                   (js "Found existing results with " ++ of_nat successful
                      ++ js " successful entries (" ++ of_nat total
                      ++ js " total)")
                   (Some filepath_) (Some successful) (Some total)
                   (Some bestData_), warnings)
            | Throw error => on_error warnings
            end
        | _, _ =>
            (mkCheck false
               (js "No valid results files found for " ++ modelKey_)
               None None None None, warnings)
        end
  end.

End CompletionStore.

Import CompletionStore.

(* ================================================================== *)
(** ** The Run Record: [saveResults] and the record of an interrupted run *)

Module RunRecord.

Definition num_of_nat (n : nat) : json := JNum (inject_Z (Z.of_nat n)).

(** [d] decimal digits of [n], leading zeros kept. *)
Fixpoint fixed_digits (d : nat) (n : Z) : jsstring :=
  match d with
  | O => []
  | S d' => fixed_digits d' (n / 10)%Z ++ [48 + Z.to_N (n mod 10)%Z]
  end.

(** [x.toFixed(d)]: the nearest multiple of [10^-d], the larger one of two
    equally near. *)
Definition toFixed (d : nat) (x : Q) : jsstring :=
  let a := Qmake (Z.abs (Qnum x)) (Qden x) in
  let n := Qfloor (a * inject_Z (10 ^ Z.of_nat d) + (1 # 2))%Q in
  (if (Qnum x <? 0)%Z then js "-" else [])
    ++ of_Z (n / 10 ^ Z.of_nat d)%Z
    ++ match d with
       | O => []
       | S _ => js "." ++ fixed_digits d (n mod 10 ^ Z.of_nat d)%Z
       end.

(** [parseFloat(s)] on a text that [toFixed] wrote: an optional sign and
    decimal digits around a point, which always reads as a number. *)
Definition parseFloat (s : jsstring) : json :=
  match parse_number s with
  | Some (x, _) => x
  | None => JNum 0
  end.

(** [Math.round(x)] *)
Definition Math_round (x : Q) : Q := inject_Z (Qfloor (x + (1 # 2))%Q).

(** [((successful.length / results.length) * 100).toFixed(1)] followed by
    the percent sign: the quotient is rounded to a double, and so is its
    product with 100.  0/0 is NaN and a division of another number by 0 an
    infinity, which [toFixed] renders by their names.  (The two numbers are
    lengths of arrays, below [2^32].) *)
Definition success_rate (successful total : nat) : jsstring :=
  match total, successful with
  | O, O => js "NaN%"
  | O, S _ => js "Infinity%"
  | S _, _ =>
      match to_double (inject_Z (Z.of_nat successful)
                       / inject_Z (Z.of_nat total))%Q with
      | Some ratio =>
          match to_double (ratio * inject_Z 100)%Q with
          | Some x => toFixed 1 x ++ js "%"
          | None => js "Infinity%"
          end
      | None => js "Infinity%"
      end
  end.

(** [r.name] on an element that [filter] has already read a property of, so
    that it is not [null]. *)
Definition prop (r : json) (name : jsstring) : option json :=
  match r with
  | JObj o => get_own name o
  | _ => None
  end.

(** [r => r.success === b] *)
Definition success_is (b : bool) (r : json) : completion bool :=
  cbind (get_named r (js "success")) (fun s =>
    Normal (match s with
            | Some (JBool b') => Bool.eqb b' b
            | _ => false
            end)).

(** The property key a truthy [error_type] names.  The records of this
    program carry one of their own labels there; for another value the
    conversion of JavaScript is only approximated. *)
Definition to_key (v : json) : jsstring :=
  match v with
  | JStr s => s
  | JBool _ => js "true"
  | _ => js "[object Object]"
  end.

(** The body of [failed.forEach(...)]: one more for the record's label. *)
Definition tally (errorTypes : props_t) (result : json) : props_t :=
  let errorType :=
    match prop result (js "error_type") with
    | Some v => if truthy (Some v) then to_key v else js "unknown"
    | None => js "unknown"
    end in
  let old := match get_own errorType errorTypes with
             | Some (JNum q) => q
             | _ => 0%Q
             end in
  set_own errorType (JNum (old + 1)%Q) errorTypes.

(** [r => r.error_type === 'model_error' || r.error_type === 'api_error'] *)
Definition is_model_issue (r : json) : completion bool :=
  cbind (get_named r (js "error_type")) (fun e =>
    Normal (match e with
            | Some (JStr s) =>
                JsString.eqb s (js "model_error")
                || JsString.eqb s (js "api_error")
            | _ => false
            end)).

(** [s.replace(/[:.]/g, '-')] *)
Definition dashed (s : jsstring) : jsstring :=
  replace_class (fun c => (c =? 58) || (c =? 46)) 45 s.

(** The object [saveResults(results)] hands to [JSON.stringify], lines
    377-413; [now] is the clock reading of its [metadata.timestamp]. *)
Definition saveResults_output (this : BrandWebsiteFinder) (results : list json)
    (now : jsstring) : completion json :=
  cbind (filter_c (success_is true) results) (fun successful =>
  cbind (filter_c (success_is false) results) (fun failed =>
  let errorTypes := fold_left tally failed [] in
  let estimatedCostUSD := (totalCost (tokenUsage this) * (1 # 1000000))%Q in
  cbind (filter_c is_model_issue failed) (fun issues =>
  Normal (JObj
    [(js "metadata", JObj
       [(js "model_used", JStr (modelKey this));
        (js "model_name", modelName this);
        (js "timestamp", JStr now);
        (js "total_brands_processed", num_of_nat (List.length results));
        (js "successful_searches", num_of_nat (List.length successful));
        (js "failed_searches", num_of_nat (List.length failed));
        (js "success_rate",
           JStr (success_rate (List.length successful) (List.length results)));
        (js "error_breakdown", JObj errorTypes);
        (js "model_availability",
           JStr (if (List.length issues =? 0)%nat then js "working"
                 else js "issues_detected"));
        (js "token_usage", JObj
           [(js "total_prompt_tokens", JNum (totalPromptTokens (tokenUsage this)));
            (js "total_completion_tokens",
               JNum (totalCompletionTokens (tokenUsage this)));
            (js "total_tokens", JNum (totalTokens (tokenUsage this)));
            (js "total_cost_credits", JNum (totalCost (tokenUsage this)));
            (js "estimated_cost_usd",
               parseFloat (toFixed 6 estimatedCostUSD));
            (js "average_tokens_per_brand",
               JNum (Math_round
                       (totalTokens (tokenUsage this)
                        / inject_Z (Z.of_nat
                            (Nat.max (requestCount (tokenUsage this)) 1)))%Q));
            (js "average_cost_per_brand",
               parseFloat (toFixed 2
                 (totalCost (tokenUsage this)
                  / inject_Z (Z.of_nat
                      (Nat.max (requestCount (tokenUsage this)) 1)))%Q));
            (js "total_requests", num_of_nat (requestCount (tokenUsage this)));
            (js "per_brand_breakdown", JArr (brandTokens (tokenUsage this)))])]);
     (js "results", JArr results)])))).

(** The name [saveResults] writes to. *)
Definition saveResults_filepath (this : BrandWebsiteFinder) (now : jsstring)
    : jsstring :=
  path_join_output
    (js "brand_websites_" ++ safeModelKey (modelKey this) ++ js "_"
       ++ dashed now ++ js ".json").

(** The object [gracefulShutdown] hands to [JSON.stringify], lines 537-571.
    ([currentFinder.tokenUsage] is an object, hence truthy.) *)
Definition partial_output (currentFinder : BrandWebsiteFinder)
    (currentResults : list json) (now : jsstring) : completion json :=
  cbind (filter_c (success_is true) currentResults) (fun successful =>
  cbind (filter_c (success_is false) currentResults) (fun failed =>
  let errorTypes := fold_left tally failed [] in
  cbind (filter_c is_model_issue failed) (fun issues =>
  Normal (JObj
    [(js "metadata", JObj
       [(js "model_used", JStr (modelKey currentFinder));
        (js "model_name", modelName currentFinder);
        (js "timestamp", JStr now);
        (js "total_brands_processed", num_of_nat (List.length currentResults));
        (js "successful_searches", num_of_nat (List.length successful));
        (js "failed_searches", num_of_nat (List.length failed));
        (js "success_rate",
           JStr (success_rate (List.length successful)
                   (List.length currentResults)));
        (js "error_breakdown", JObj errorTypes);
        (js "model_availability",
           JStr (if (List.length issues =? 0)%nat then js "working"
                 else js "issues_detected"));
        (js "status", JStr (js "PARTIAL_RESULTS_DUE_TO_INTERRUPTION"));
        (js "token_usage", JObj
           [(js "total_prompt_tokens",
               JNum (totalPromptTokens (tokenUsage currentFinder)));
            (js "total_completion_tokens",
               JNum (totalCompletionTokens (tokenUsage currentFinder)));
            (js "total_tokens", JNum (totalTokens (tokenUsage currentFinder)));
            (js "total_cost_credits", JNum (totalCost (tokenUsage currentFinder)));
            (js "estimated_cost_usd",
               parseFloat (toFixed 6
                 (totalCost (tokenUsage currentFinder) * (1 # 1000000))%Q));
            (js "average_tokens_per_brand",
               JNum (Math_round
                       (totalTokens (tokenUsage currentFinder)
                        / inject_Z (Z.of_nat
                            (Nat.max (requestCount (tokenUsage currentFinder)) 1)))%Q));
            (js "average_cost_per_brand",
               parseFloat (toFixed 2
                 (totalCost (tokenUsage currentFinder)
                  / inject_Z (Z.of_nat
                      (Nat.max (requestCount (tokenUsage currentFinder)) 1)))%Q));
            (js "total_requests",
               num_of_nat (requestCount (tokenUsage currentFinder)));
            (js "per_brand_breakdown",
               JArr (brandTokens (tokenUsage currentFinder)))])]);
     (js "results", JArr currentResults)])))).

(** The name [gracefulShutdown] writes to. *)
Definition partial_filepath (currentFinder : BrandWebsiteFinder)
    (now : jsstring) : jsstring :=
  path_join_output
    (js "brand_websites_" ++ safeModelKey (modelKey currentFinder)
       ++ js "_PARTIAL_" ++ dashed now ++ js ".json").

End RunRecord.

Import RunRecord.

(* ================================================================== *)
(** ** The Batch Runner and the Interruption Handler

    [processBrands] is an async function: it runs until its next [await],
    and the signal handlers of [setupGracefulShutdown] run only while it
    waits.  The process is therefore a machine that is moved by what it
    waits for: the pending request, the timer of the delay, a signal. *)

Module Process.

(** [array.slice(start, end)] on integers. *)
Definition slice {A} (l : list A) (start end_ : Z) : list A :=
  let len := Z.of_nat (List.length l) in
  let k := if (start <? 0)%Z then Z.max (len + start) 0 else Z.min start len in
  let final := if (end_ <? 0)%Z then Z.max (len + end_) 0 else Z.min end_ len in
  firstn (Z.to_nat (Z.max (final - k) 0)) (skipn (Z.to_nat k) l).

(** Where the program stands. *)
Inductive control_t :=
| Idle                     (* no call of [processBrands] yet *)
| AwaitRequest (i : nat)   (* in [await this.findBrandWebsite(brand)], turn i *)
| AwaitDelay (i : nat)     (* in the [await] of the delay that ends turn i *)
| Returned (results : list json)    (* [processBrands] has returned *)
| Rejected (e : Error)              (* [processBrands] has thrown *)
| Exited (code : Z).                (* [process.exit(code)] *)

(** The one finder of a run; [currentFinder] holds a reference to it. *)
Inductive finder_ref := the_finder.

(** The module variables, the finder object, the frame of [processBrands]
    and the files written so far: the path and the value handed to
    [JSON.stringify] (which writes an infinity as [null] and leaves out a
    property whose value is a function).  A brand is an element of the
    input array: a string as the file is meant to hold them, or whatever
    value it holds. *)
Record process := mkProcess {
  isShuttingDown : bool;
  currentResults : list json;
  currentFinder : option finder_ref;
  finder : BrandWebsiteFinder;
  brandsToProcess : list json;
  results : list json;
  control : control_t;
  written : list (jsstring * json)
}.

Definition set_control (c : control_t) (p : process) : process :=
  mkProcess (isShuttingDown p) (currentResults p) (currentFinder p) (finder p)
    (brandsToProcess p) (results p) c (written p).

(** The state in which [main] calls [processBrands]. *)
Definition fresh (this : BrandWebsiteFinder) : process :=
  mkProcess false [] None this [] [] Idle [].

(** The head of the [for] loop at index [i], up to the next [await]. *)
Definition loop_head (i : nat) (p : process) : process :=
  if (i <? List.length (brandsToProcess p))%nat then
    if isShuttingDown p then set_control (Returned (results p)) p
    else set_control (AwaitRequest i) p
  else set_control (Returned (results p)) p.

(** [processBrands(brands, startIndex, count)] up to its first [await].
    ([currentResults = results] shares the empty array; it is replaced by a
    copy after each push, before anything can read it.)  The [join] of line
    343 converts every brand of the slice to a string, before the loop: when
    one of them cannot be converted the call throws there. *)
Definition processBrands (p : process) (brands : list json)
    (startIndex count : Z) : process :=
  let p' :=
    mkProcess (isShuttingDown p) [] (Some the_finder) (finder p)
      (slice brands startIndex (startIndex + count)) []
      (control p) (written p) in
  if existsb ToString_throws (brandsToProcess p')
  then set_control
         (Rejected (mkError (js "Cannot convert object to primitive value")))
         p'
  else loop_head 0 p'.

(** [gracefulShutdown(signal)], lines 520-590; [now_file] and [now_meta] are
    its two clock readings, [write_ok] tells whether [fs.writeFileSync]
    succeeds. *)
Definition gracefulShutdown (now_file now_meta : jsstring) (write_ok : bool)
    (p : process) : process :=
  if isShuttingDown p then set_control (Exited 1) p
  else
    let saved :=
      match currentFinder p with
      | Some the_finder =>
          if (0 <? List.length (currentResults p))%nat then
            match partial_output (finder p) (currentResults p) now_meta with
            | Normal output =>
                if write_ok
                then [(partial_filepath (finder p) now_file, output)]
                else []
            | Throw error => []
            end
          else []
      | None => []
      end in
    mkProcess true (currentResults p) (currentFinder p) (finder p)
      (brandsToProcess p) (results p) (Exited 0) (written p ++ saved).

Inductive event :=
| RequestSettled (reply : fetch_result) (now : jsstring)
| TimerFired
| Signal (now_file now_meta : jsstring) (write_ok : bool).

(** What an event does to the process.  Once [processBrands] has returned
    or thrown, or the process has exited, nothing of this machine is left to
    move. *)
Definition step (p : process) (ev : event) : process :=
  match control p, ev with
  | AwaitRequest i, Signal t1 t2 ok => gracefulShutdown t1 t2 ok p
  | AwaitDelay i, Signal t1 t2 ok => gracefulShutdown t1 t2 ok p
  | AwaitRequest i, RequestSettled reply now =>
      match nth_error (brandsToProcess p) i with
      | Some brand =>
          match findBrandWebsite brand reply now (finder p) with
          | (Normal result, this') =>
              let results' := results p ++ [result] in
              let p' := mkProcess (isShuttingDown p) results' (currentFinder p)
                          this' (brandsToProcess p) results' (control p)
                          (written p) in
              if (i <? List.length (brandsToProcess p) - 1)%nat
                 && negb (isShuttingDown p')
              then set_control (AwaitDelay i) p'
              else loop_head (S i) p'
          | (Throw e, this') =>
              mkProcess (isShuttingDown p) (currentResults p) (currentFinder p)
                this' (brandsToProcess p) (results p) (Rejected e) (written p)
          end
      | None => p
      end
  | AwaitDelay i, TimerFired => loop_head (S i) p
  | _, _ => p
  end.

Definition run (p : process) (events : list event) : process :=
  fold_left step events p.

(** The answers of the backend and the clock, by turn. *)
Definition environment : Type := nat -> fetch_result * jsstring.

(** The events of [n] turns from turn [i] on when no signal arrives: each
    request settles, and each delay but the one after the last turn of the
    slice ends. *)
Fixpoint undisturbed (env : environment) (i n : nat) : list event :=
  match n with
  | O => []
  | S O => [RequestSettled (fst (env i)) (snd (env i))]
  | S n' =>
      RequestSettled (fst (env i)) (snd (env i)) :: TimerFired
        :: undisturbed env (S i) n'
  end.

(** The events of the first [k] turns, each with its delay. *)
Fixpoint turns (env : environment) (i k : nat) : list event :=
  match k with
  | O => []
  | S k' =>
      RequestSettled (fst (env i)) (snd (env i)) :: TimerFired
        :: turns env (S i) k'
  end.

(** The records of a list of brands queried one after the other from turn
    [i] on, and the finder afterwards. *)
Fixpoint query_all (this : BrandWebsiteFinder) (brands : list json)
    (env : environment) (i : nat) : list json * BrandWebsiteFinder :=
  match brands with
  | [] => ([], this)
  | brand :: brands' =>
      match findBrandWebsite brand (fst (env i)) (snd (env i)) this with
      | (Normal r, this') =>
          let '(rs, this'') := query_all this' brands' env (S i) in
          (r :: rs, this'')
      | (Throw _, this') => ([], this')
      end
  end.

End Process.

Import Process.

(* ================================================================== *)
(** ** Notions used to state the properties *)

Module Paths.

(** The finder after [makeOpenRouterRequest] has run on it. *)
Definition after_request (this : BrandWebsiteFinder) (reply : fetch_result)
    : BrandWebsiteFinder :=
  snd (makeOpenRouterRequest reply this).

(** The usage of one request: the counters after it minus the counters
    before it. *)
Definition delta (before after : BrandWebsiteFinder) : props_t :=
  usage_props
    (totalPromptTokens (tokenUsage after) - totalPromptTokens (tokenUsage before))%Q
    (totalCompletionTokens (tokenUsage after)
       - totalCompletionTokens (tokenUsage before))%Q
    (totalTokens (tokenUsage after) - totalTokens (tokenUsage before))%Q
    (totalCost (tokenUsage after) - totalCost (tokenUsage before))%Q.

(** The finder with one more entry in [tokenUsage.brandTokens]. *)
Definition pushed (this : BrandWebsiteFinder) (entry : json)
    : BrandWebsiteFinder :=
  mkFinder (modelKey this) (modelName this)
    (mkTokenUsage (totalPromptTokens (tokenUsage this))
       (totalCompletionTokens (tokenUsage this))
       (totalTokens (tokenUsage this)) (totalCost (tokenUsage this))
       (requestCount (tokenUsage this))
       (brandTokens (tokenUsage this) ++ [entry])).

(** The content of an answer, when there is a truthy one and it is a
    string. *)
Definition text_of (reply : fetch_result) : option jsstring :=
  match reply with
  | ResponseOk response =>
      match choices0_message_content response with
      | Normal (Some (JStr (c :: text))) => Some (c :: text)
      | _ => None
      end
  | _ => None
  end.

(** The object the answer carries: the content is a non-empty string, the
    regular expression matches, and the match parses. *)
Definition parsed_object (reply : fetch_result) : option props_t :=
  match text_of reply with
  | Some text =>
      match match_braces text with
      | Some jsonMatch =>
          match JSON_parse jsonMatch with
          | Some (JObj o) => Some o
          | _ => None
          end
      | None => None
      end
  | None => None
  end.

(** The error the [try] block of [findBrandWebsite] throws, if it throws. *)
Definition thrown (reply : fetch_result) : option Error :=
  match reply with
  | FetchRejects e => Some e
  | ResponseNotOk status errorText =>
      Some (mkError (js "OpenRouter API error: " ++ of_nat status
                       ++ js " - " ++ errorText))
  | BodyRejects e => Some e
  | ResponseOk response =>
      match choices0_message_content response with
      | Throw e => Some e
      | Normal c =>
          if negb (truthy c)
          then Some (mkError (js "No content in response from model"))
          else match c with
               | Some (JStr _) => None
               | _ => Some (mkError (js "content.match is not a function"))
               end
      end
  end.

(** The first top-level brace-delimited object of a text, in the words of
    the specification: from the first opening brace to the brace that
    closes it. *)
Fixpoint upto_matching_close (depth : nat) (s : jsstring) : option jsstring :=
  match s with
  | [] => None
  | c :: r =>
      if c =? 123 then
        match upto_matching_close (S depth) r with
        | Some p => Some (c :: p)
        | None => None
        end
      else if c =? 125 then
        match depth with
        | O => Some [c]
        | S depth' =>
            match upto_matching_close depth' r with
            | Some p => Some (c :: p)
            | None => None
            end
        end
      else
        match upto_matching_close depth r with
        | Some p => Some (c :: p)
        | None => None
        end
  end.

Definition spec_first_top_level_object (s : jsstring) : option jsstring :=
  match from_first_open s with
  | Some (b :: r) =>
      match upto_matching_close 0 r with
      | Some p => Some (b :: p)
      | None => None
      end
  | _ => None
  end.

(** The six assignments of lines 259-264. *)
Definition tagged (modelKey_ now text : jsstring) (tokensUsed : props_t)
    (o : props_t) : props_t :=
  set_own (js "token_usage") (JObj tokensUsed)
    (set_own (js "success") (JBool true)
       (set_own (js "error_type") JNull
          (set_own (js "raw_response") (JStr text)
             (set_own (js "timestamp") (JStr now)
                (set_own (js "model_used") (JStr modelKey_) o))))).

(** The names the pipeline sets on the parsed object. *)
Definition pipeline_fields : list jsstring :=
  [js "model_used"; js "timestamp"; js "raw_response"; js "error_type";
   js "success"; js "token_usage"].

(** The labels of the error taxonomy. *)
Definition error_labels : list jsstring :=
  [js "api_error"; js "network_error"; js "model_error";
   js "connection_error"; js "parse_error"; js "unknown_error"].

(** The five kinds of failure of the taxonomy; the two transport labels are
    one kind. *)
Inductive failure_kind :=
| ApiFailure | TransportFailure | ModelFailure | ParseFailure | UnknownFailure.

Definition kind_of_label (label : jsstring) : option failure_kind :=
  if JsString.eqb label (js "api_error") then Some ApiFailure
  else if JsString.eqb label (js "network_error") then Some TransportFailure
  else if JsString.eqb label (js "connection_error") then Some TransportFailure
  else if JsString.eqb label (js "model_error") then Some ModelFailure
  else if JsString.eqb label (js "parse_error") then Some ParseFailure
  else if JsString.eqb label (js "unknown_error") then Some UnknownFailure
  else None.

(** A Result Record is an object; these read its fields. *)
Definition field (name : string) (r : json) : option json :=
  match r with
  | JObj o => get_own (js name) o
  | _ => None
  end.

Definition is_object (r : json) : bool :=
  match r with
  | JObj _ => true
  | _ => false
  end.

(** The record of a call, when it returns one. *)
Definition returned (c : completion json * BrandWebsiteFinder) : option json :=
  match fst c with
  | Normal r => Some r
  | Throw _ => None
  end.

(** The fallback record of an answer whose text gave no object. *)
Definition parse_fallback (brandName modelKey_ now text : jsstring)
    (used : props_t) (r : json) : Prop :=
  field "brand_name" r = Some (JStr brandName) /\
  field "success" r = Some (JBool false) /\
  field "error_type" r = Some (JStr (js "parse_error")) /\
  field "search_confidence" r = Some (JStr (js "low")) /\
  field "website_url" r = Some JNull /\
  field "description" r = Some (JStr (firstn 200 text ++ js "...")) /\
  field "model_used" r = Some (JStr modelKey_) /\
  field "timestamp" r = Some (JStr now) /\
  field "raw_response" r = Some (JStr text) /\
  field "token_usage" r = Some (JObj used).

(** A field of the record of a call. *)
Definition field_of (name : string)
    (c : completion json * BrandWebsiteFinder) : option json :=
  match returned c with
  | Some r => field name r
  | None => None
  end.

End Paths.

Import Paths.

(** *** Notions for the Completion Store *)

Module StoreSpec.

(** What one turn of the loop reads from a file: the data and its successful
    records, or the error that makes the loop skip the file. *)
Definition outcome (entry : dir_entry) : completion (json * list json) :=
  cbind (read_and_parse entry) (fun data =>
  cbind (successful_of data) (fun successful =>
  Normal (data, successful))).

(** The number of successful records of a file the loop can read. *)
Definition qualifying_count (entry : dir_entry) : option nat :=
  match outcome entry with
  | Normal (_, successful) => Some (List.length successful)
  | Throw _ => None
  end.

Definition count_or_zero (entry : dir_entry) : nat :=
  match qualifying_count entry with
  | Some n => n
  | None => 0%nat
  end.

(** The greatest number of successful records among the files. *)
Definition best_count (files : list dir_entry) : nat :=
  list_max (map count_or_zero files).

Definition has_count (n : nat) (entry : dir_entry) : bool :=
  match qualifying_count entry with
  | Some m => (m =? n)%nat
  | None => false
  end.

(** The warning for a file the loop cannot read. *)
Definition warning_of (entry : dir_entry) : list jsstring :=
  match outcome entry with
  | Normal _ => []
  | Throw error =>
      [warn_sign ++ js "Error reading " ++ fst entry ++ js ": "
         ++ QueryClient.message error]
  end.

Definition is_partial (entry : dir_entry) : bool :=
  includes (js "_PARTIAL_") (fst entry).

Definition listing (dir : directory) : list dir_entry :=
  match dir with
  | Some entries => entries
  | None => []
  end.

(** The qualifying record in the words of the specification: [success] is
    [true] and [website_url] is present and not [null]. *)
Definition spec_qualifies (r : json) : bool :=
  match prop r (js "success"), prop r (js "website_url") with
  | Some (JBool true), Some JNull => false
  | Some (JBool true), Some _ => true
  | _, _ => false
  end.

Definition spec_qualifying_count (entry : dir_entry) : option nat :=
  match cbind (read_and_parse entry) results_of with
  | Normal items => Some (List.length (filter spec_qualifies items))
  | Throw _ => None
  end.

(** What the loop has found after it has gone through [files]. *)
Definition scanned (files : list dir_entry) (st : best_t * list jsstring)
    : Prop :=
  bestSuccessCount (fst st) = best_count files /\
  snd st = flat_map warning_of files /\
  ((best_count files = 0%nat /\ bestFile (fst st) = None)
   \/
   ((0 < best_count files)%nat /\
    exists e data_ successful items,
      find (has_count (best_count files)) files = Some e /\
      bestFile (fst st) = Some (fst e) /\
      bestData (fst st) = Some data_ /\
      successful_of data_ = Normal successful /\
      results_of data_ = Normal items /\
      List.length successful = best_count files)).

End StoreSpec.

Import StoreSpec.

(** *** Data of the examples *)

Definition finder0 : BrandWebsiteFinder :=
  mkFinder (js "gpt-4o-mini") (JStr (js "openai/gpt-4o-mini:online"))
    (mkTokenUsage 0 0 0 0 0 []).

Definition reply_content (text : jsstring) (u : option usage_t) : fetch_result :=
  ResponseOk
    (mkResponse (Some [Some (mkChoice (Some (mkMessage (Some (JStr text)))))]) u).

Definition clock0 : jsstring := js "2025-01-01T00:00:00.000Z".

(** An answer whose object sets the pipeline's fields itself. *)
Definition conflicting_reply : fetch_result :=
  reply_content
    (jq "{'brand_name':'Acme','success':false,'error_type':'x','model_used':'other','token_usage':7}")
    (Some (mkUsage (Some 10%Q) (Some 5%Q) (Some 15%Q) (Some (1 # 2)))).

(** A backend that answers every request with the same empty content. *)
Definition silent_env : environment :=
  fun _ => (reply_content [] None, clock0).

Definition three_brands : list jsstring :=
  [js "Acme Blades"; js "Boker"; js "Case"].

(** An answer that spells the brand its own way. *)
Definition respelled_reply : fetch_result :=
  reply_content (jq "{'brand_name':'ACME Knives Inc.','website_url':null}") None.

(** A results directory of the model [gpt-4o-mini]: a run with two found
    sites, a run with one, a partial run with three, a file that is no JSON,
    and a file of another model. *)
Definition results_dir : list dir_entry :=
  [(js "brand_websites_gpt-4o-mini_2025-01-01T00-00-00-000Z.json",
    Some (jq "{'results':[{'success':true,'website_url':'https://a.example'},{'success':false,'website_url':null}]}"));
   (js "brand_websites_gpt-4o-mini_2025-01-02T00-00-00-000Z.json",
    Some (jq "{'results':[{'success':true,'website_url':'https://a.example'},{'success':true,'website_url':'https://b.example'}]}"));
   (js "brand_websites_gpt-4o-mini_PARTIAL_2025-01-03T00-00-00-000Z.json",
    Some (jq "{'results':[{'success':true,'website_url':'u'},{'success':true,'website_url':'v'},{'success':true,'website_url':'w'}]}"));
   (js "brand_websites_gpt-4o-mini_2025-01-04T00-00-00-000Z.json",
    Some (js "not json"));
   (js "brand_websites_gpt-4o_2025-01-05T00-00-00-000Z.json",
    Some (jq "{'results':[{'success':true,'website_url':'u'},{'success':true,'website_url':'v'},{'success':true,'website_url':'w'}]}"))].

(** A directory whose one file has a successful record with an empty
    [website_url]. *)
Definition empty_url_dir : list dir_entry :=
  [(js "brand_websites_gpt-4o-mini_2025-01-01T00-00-00-000Z.json",
    Some (jq "{'results':[{'success':true,'website_url':''}]}"))].

(** An answer with a JSON object and, after it, a remark that holds braces. *)
Definition remark_text : jsstring :=
  jq "{'brand_name':'Acme','website_url':'https://acme.example'} (see {2})".

(* ================================================================== *)
(** ** The names of the files *)

Module Files.

(** The name of the file [saveResults] writes, line 373. *)
Definition saveResults_filename (this : BrandWebsiteFinder) (now : jsstring)
    : jsstring :=
  js "brand_websites_" ++ safeModelKey (modelKey this) ++ js "_"
    ++ dashed now ++ js ".json".

(** The name of the file [gracefulShutdown] writes, line 534. *)
Definition partial_filename (currentFinder : BrandWebsiteFinder)
    (now : jsstring) : jsstring :=
  js "brand_websites_" ++ safeModelKey (modelKey currentFinder)
    ++ js "_PARTIAL_" ++ dashed now ++ js ".json".

End Files.

Import Files.

(* ================================================================== *)
(** ** Construction of a finder, [main] and [runExample] *)

Module Main.

(** [CONFIG.MODELS], lines 24-33. *)
Definition MODELS : list (jsstring * jsstring) :=
  [(js "gpt-4o", js "openai/gpt-4o:online");
   (js "gpt-4o-mini", js "openai/gpt-4o-mini:online");
   (js "anthropic/claude-sonnet-4", js "anthropic/claude-sonnet-4:online");
   (js "gemini-2.5-pro", js "google/gemini-2.5-pro-preview:online");
   (js "gemini-2.0-flash-001", js "google/gemini-2.0-flash-001");
   (js "qwen-2.5-72b", js "qwen/qwen-2.5-72b-instruct:online");
   (js "llama-3.1-70b", js "meta-llama/llama-3.1-70b-instruct:online");
   (js "perplexity/sonar-deep-research", js "perplexity/sonar-deep-research")].

Definition DEFAULT_MODEL : jsstring := js "gpt-4o-mini".

Definition INITIAL_BRAND_COUNT : Z := 10.

(** The names an object literal inherits from [Object.prototype]: reading
    one of them on [CONFIG.MODELS] gives a function or, for [__proto__],
    the prototype itself, not [undefined]. *)
Definition Object_prototype_names : list jsstring :=
  [js "constructor"; js "__defineGetter__"; js "__defineSetter__";
   js "hasOwnProperty"; js "__lookupGetter__"; js "__lookupSetter__";
   js "isPrototypeOf"; js "propertyIsEnumerable"; js "toString";
   js "valueOf"; js "__proto__"; js "toLocaleString"].

(** [CONFIG.MODELS[modelKey]] *)
Inductive model_lookup :=
| OwnModel (name : jsstring)   (* a model of the table *)
| InheritedValue (v : json)    (* truthy, and no string *)
| NoModel.                     (* [undefined] *)

Fixpoint assoc (k : jsstring) (table : list (jsstring * jsstring))
    : option jsstring :=
  match table with
  | [] => None
  | (k', v) :: table' => if JsString.eqb k' k then Some v else assoc k table'
  end.

Definition lookup_model (modelKey_ : jsstring) : model_lookup :=
  match assoc modelKey_ MODELS with
  | Some name => OwnModel name
  | None =>
      if existsb (JsString.eqb modelKey_) Object_prototype_names
      then InheritedValue
             (* [Object.prototype] has no enumerable property of its own *)
             (if JsString.eqb modelKey_ (js "__proto__") then JObj []
              else JFunction)
      else NoModel
  end.

(** [Object.keys(CONFIG.MODELS).join(', ')] *)
Fixpoint join_comma (names : list jsstring) : jsstring :=
  match names with
  | [] => []
  | [name] => name
  | name :: names' => name ++ js ", " ++ join_comma names'
  end.

(** The directory [CONFIG.OUTPUT_DIR]: absent (and then whether creating it
    fails), or present with what [readdirSync] gives for it. *)
Inductive output_dir :=
| DirMissing (mkdir_error : option Error)
| DirPresent (listing : directory).

(** What [readdirSync] gives when nothing has touched the directory. *)
Definition listing_of (d : output_dir) : directory :=
  match d with
  | DirMissing _ => None
  | DirPresent listing => listing
  end.

(** How [new BrandWebsiteFinder(modelKey)] ends, lines 49-72. *)
Inductive construction :=
| Constructed (this : BrandWebsiteFinder) (listing : directory)
| ConstructionThrows (e : Error).

(** [ensureOutputDir()], lines 74-78: the listing afterwards, or the error of
    [mkdirSync]. *)
Definition ensureOutputDir (d : output_dir) : completion directory :=
  match d with
  | DirPresent listing => Normal listing
  | DirMissing None => Normal (Some [])
  | DirMissing (Some e) => Throw e
  end.

Definition new_BrandWebsiteFinder (modelKey_ : jsstring) (api_key : bool)
    (d : output_dir) : construction :=
  let construct (modelName_ : json) :=
    if negb api_key then
      ConstructionThrows
        (mkError (js "OPENROUTER_API_KEY environment variable is required"))
    else
      match ensureOutputDir d with
      | Throw e => ConstructionThrows e
      | Normal listing =>
          Constructed
            (mkFinder modelKey_ modelName_ (mkTokenUsage 0 0 0 0 0 []))
            listing
      end in
  match lookup_model modelKey_ with
  | NoModel =>
      ConstructionThrows
        (mkError (js "Model '" ++ modelKey_
                    ++ js "' not found. Available models: "
                    ++ join_comma (map fst MODELS)))
  | OwnModel name => construct (JStr name)
  | InheritedValue v => construct v
  end.

(** *** [parseInt] *)

(** White space and line terminators, which [parseInt] skips. *)
Definition is_StrWhiteSpaceChar (c : code_unit) : bool :=
  ((9 <=? c) && (c <=? 13)) || (c =? 32) || (c =? 160) || (c =? 5760)
  || ((8192 <=? c) && (c <=? 8202)) || (c =? 8232) || (c =? 8233)
  || (c =? 8239) || (c =? 8287) || (c =? 12288) || (c =? 65279).

Fixpoint trim_start (s : jsstring) : jsstring :=
  match s with
  | c :: r => if is_StrWhiteSpaceChar c then trim_start r else s
  | [] => []
  end.

(** The digits of radix 10 or 16 at the start of a text: their value and
    how many they are. *)
Fixpoint radix_digits (hex : bool) (s : jsstring) (acc : N) (len : nat)
    : N * nat :=
  match s with
  | c :: r =>
      match (if hex then hex_val c else digit_val c) with
      | Some d => radix_digits hex r (acc * (if hex then 16 else 10) + d) (S len)
      | None => (acc, len)
      end
  | [] => (acc, len)
  end.

(** The Number value of an integer: the nearest double.  An infinity, which
    an integer beyond the largest double gives, is written here as plus or
    minus [2^1024], the least integer beyond the doubles: in the comparisons
    and the sums that [main] and [slice] make of these numbers it comes out
    as the infinity does.  (The sum of the two infinities is NaN, which
    [slice] takes as 0: so is the sum here.) *)
Definition integer_double (z : Z) : Z :=
  match to_double (inject_Z z) with
  | Some d => Qnum d
  | None => if (z <? 0)%Z then (- 2 ^ 1024)%Z else (2 ^ 1024)%Z
  end.

(** [parseInt(text)] without a radix; [None] is [NaN]. *)
Definition parseInt_string (text : jsstring) : option Z :=
  let s := trim_start text in
  let '(neg, s1) :=
    match s with
    | c :: r => if c =? 45 then (true, r)
                else if c =? 43 then (false, r) else (false, s)
    | [] => (false, s)
    end in
  let '(hex, s2) :=
    match s1 with
    | a :: b :: r =>
        if (a =? 48) && ((b =? 120) || (b =? 88)) then (true, r)
        else (false, s1)
    | _ => (false, s1)
    end in
  match radix_digits hex s2 0 0%nat with
  | (_, O) => None
  | (n, S _) =>
      Some (integer_double (if neg then (- Z.of_N n)%Z else Z.of_N n))
  end.

(** [parseInt(args[i])]: an absent argument reads as the text
    [undefined]. *)
Definition parseInt (arg : option jsstring) : option Z :=
  match arg with
  | Some text => parseInt_string text
  | None => None
  end.

(** [parseInt(x) || fallback] *)
Definition number_or (n : option Z) (fallback : Z) : Z :=
  match n with
  | Some z => if (z =? 0)%Z then fallback else z
  | None => fallback
  end.

(** [args[0] || fallback] *)
Definition string_or (s : option jsstring) (fallback : jsstring) : jsstring :=
  match s with
  | Some (c :: r) => c :: r
  | _ => fallback
  end.

(** [args.includes(flag)] *)
Definition args_include (flag : jsstring) (args : list jsstring) : bool :=
  existsb (JsString.eqb flag) args.

(** *** [main], up to its call of [processBrands] *)

(** What a run of the program finds: the content of [brandNames.json]
    ([None] when reading throws), the arguments after the script name,
    whether the credential is set, the output directory, and whether the
    display of a stored run goes through (rendering a stored value can
    throw). *)
Record invocation := mkInvocation {
  brand_file : option jsstring;
  args : list jsstring;
  api_key : bool;
  out_dir : output_dir;
  display_prints : bool
}.

Definition arg_modelKey (inv : invocation) : jsstring :=
  string_or (nth_error (args inv) 0) DEFAULT_MODEL.

Definition arg_count (inv : invocation) : Z :=
  number_or (parseInt (nth_error (args inv) 1)) INITIAL_BRAND_COUNT.

Definition arg_startIndex (inv : invocation) : Z :=
  number_or (parseInt (nth_error (args inv) 2)) 0.

Definition forceRun (inv : invocation) : bool :=
  args_include (js "--force") (args inv) || args_include (js "-f") (args inv).

Definition showExisting (inv : invocation) : bool :=
  args_include (js "--show") (args inv) || args_include (js "-s") (args inv).

(** The finder [main] goes on with: an instance of the class, or the object
    it builds for show mode, which has [checkExistingResults] and
    [printSummary] only. *)
Inductive finder_kind :=
| Full (this : BrandWebsiteFinder)
| Minimal (modelKey_ : jsstring).

Definition check_of (f : finder_kind) (dir : directory) (count : Z) : check_t :=
  match f with
  | Full this => fst (checkExistingResults this dir count)
  | Minimal modelKey_ => fst (minimal_checkExistingResults modelKey_ dir count)
  end.

(** Where [main] stands when it stops being synchronous. *)
Inductive startup :=
| ExitBeforeRun (code : Z)
| CallsProcessBrands (this : BrandWebsiteFinder) (brandData : list json)
    (startIndex count : Z).

(** Lines 772-833, once the finder is there. *)
Definition main_with_finder (inv : invocation) (brandData : json)
    (f : finder_kind) (dir : directory) : startup :=
  match brandData with
  | JArr (b :: bs) =>
      if (Z.of_nat (List.length (b :: bs)) <=? arg_startIndex inv)%Z
      then ExitBeforeRun 1
      else
        let proceed :=
          match f with
          | Full this =>
              CallsProcessBrands this (b :: bs) (arg_startIndex inv)
                (arg_count inv)
          | Minimal _ =>
              (* [finder.processBrands] is not a function: the outer catch *)
              ExitBeforeRun 1
          end in
        if negb (forceRun inv) then
          if hasResults (check_of f dir (arg_count inv)) then
            if showExisting inv then
              if display_prints inv then ExitBeforeRun 0 else ExitBeforeRun 1
            else ExitBeforeRun 0
          else if showExisting inv then ExitBeforeRun 0
          else proceed
        else proceed
  | _ => ExitBeforeRun 1
  end.

(** [main()], lines 608-833. *)
Definition main_start (inv : invocation) : startup :=
  match match brand_file inv with
        | Some text => JSON_parse text
        | None => None
        end with
  | None => ExitBeforeRun 1
  | Some brandData =>
      match new_BrandWebsiteFinder (arg_modelKey inv) (api_key inv)
              (out_dir inv) with
      | Constructed this listing =>
          main_with_finder inv brandData (Full this) listing
      | ConstructionThrows error =>
          if showExisting inv
             && includes (js "OPENROUTER_API_KEY") (QueryClient.message error)
          then main_with_finder inv brandData (Minimal (arg_modelKey inv))
                 (listing_of (out_dir inv))
          else ExitBeforeRun 1
      end
  end.

(** *** [main], once [processBrands] has returned *)

(** Lines 841-858 with the outer catch: the exit code and the file written.
    [write_ok] tells whether [fs.writeFileSync] succeeds, [summary_prints]
    whether [printSummary] goes through. *)
Definition main_finish (this : BrandWebsiteFinder) (results_ : list json)
    (now_file now_meta : jsstring) (write_ok summary_prints : bool)
    : Z * list (jsstring * json) :=
  match saveResults_output this results_ now_meta with
  | Throw _ => (1%Z, [])
  | Normal output =>
      if write_ok then
        let files := [(saveResults_filepath this now_file, output)] in
        if summary_prints then
          match filter_c (success_is true) results_,
                filter_c (success_is false) results_ with
          | Normal successful, Normal failed =>
              if (List.length failed =? List.length results_)%nat
              then (1%Z, files)
              else if (List.length successful <? List.length failed)%nat
              then (0%Z, files)
              else (0%Z, files)
          | _, _ => (1%Z, files)
          end
        else (1%Z, files)
      else (1%Z, [])
  end.

(** How a run of the program ends. *)
Inductive ending :=
| Ended (code : Z) (files : list (jsstring * json))
| Waiting (p : process).    (* a request or a delay is still pending *)

(** The clock and the file system as [main] meets them after the batch. *)
Record finish_env := mkFinish {
  save_now_file : jsstring;
  save_now_meta : jsstring;
  save_write_ok : bool;
  summary_prints : bool
}.

(** [main()] with the events that arrive while [processBrands] waits. *)
Definition main (inv : invocation) (events : list event) (fin : finish_env)
    : ending :=
  match main_start inv with
  | ExitBeforeRun code => Ended code []
  | CallsProcessBrands this brandData startIndex count =>
      let p := run (processBrands (fresh this) brandData startIndex count)
                 events in
      match control p with
      | Returned results_ =>
          if isShuttingDown p then Ended 0 (written p)
          else
            let out := main_finish (finder p) results_ (save_now_file fin)
                         (save_now_meta fin) (save_write_ok fin)
                         (summary_prints fin) in
            Ended (fst out) (written p ++ snd out)
      | Rejected _ =>
          if isShuttingDown p then Ended 0 (written p)
          else Ended 1 (written p)
      | Exited code => Ended code (written p)
      | _ => Waiting p
      end
  end.

(** *** [runExample], lines 882-938 *)

(** The example script up to its first finder: the credential check, the
    input file, then [new BrandWebsiteFinder('claude-3-haiku')].  Anything
    thrown inside its [try] ends it with code 1. *)
Inductive example_ending :=
| ExampleExits (code : Z)
| ExampleGoesOn.     (* the first finder is built and the backend is queried *)

Definition runExample (inv : invocation) : example_ending :=
  if negb (api_key inv) then ExampleExits 1
  else
    match match brand_file inv with
          | Some text => JSON_parse text
          | None => None
          end with
    | None => ExampleExits 1
    | Some JNull => ExampleExits 1   (* [brandData.length] throws *)
    | Some _ =>
        match new_BrandWebsiteFinder (js "claude-3-haiku") (api_key inv)
                (out_dir inv) with
        | ConstructionThrows _ => ExampleExits 1
        | _ => ExampleGoesOn
        end
    end.

End Main.

Import Main.

(* ================================================================== *)
(** ** What holds of the process at every [await] *)

Module Invariants.

(** The state of a process that has called [processBrands] on brands that
    can be converted to strings, between two events. *)
Definition well_formed (p : process) : Prop :=
  currentResults p = results p /\
  forallb is_object (results p) = true /\
  (List.length (written p) <= 1)%nat /\
  match control p with
  | AwaitRequest i =>
      isShuttingDown p = false /\ written p = [] /\
      i = List.length (results p) /\
      (i < List.length (brandsToProcess p))%nat
  | AwaitDelay i =>
      isShuttingDown p = false /\ written p = [] /\
      S i = List.length (results p) /\
      (S i < List.length (brandsToProcess p))%nat
  | Returned returned_ =>
      isShuttingDown p = false /\ written p = [] /\
      returned_ = results p /\
      List.length returned_ = List.length (brandsToProcess p)
  | Exited code =>
      code = 0%Z /\ isShuttingDown p = true /\
      (List.length (results p) < List.length (brandsToProcess p))%nat /\
      (results p = [] -> written p = [])
  | Idle => False
  | Rejected _ => False
  end.

End Invariants.

Import Invariants.

(* ================================================================== *)
(** ** Counting the answers of a run *)

Module Tally.

(** Whether the answer of turn [i] carries an object that parses. *)
Definition succeeded (env : environment) (i : nat) : bool :=
  match parsed_object (fst (env i)) with
  | Some _ => true
  | None => false
  end.

(** The number of such turns among the [n] turns from [i] on. *)
Definition successes (env : environment) (i n : nat) : nat :=
  List.length (filter (succeeded env) (seq i n)).

End Tally.

Import Tally.

(* ================================================================== *)
(** * Facts *)

(** ** Strings *)

Lemma jsstring_eqb_eq (s t : jsstring) : JsString.eqb s t = true <-> s = t.
Proof.
  revert t; induction s as [|c s IH]; intros [|d t]; simpl;
    try (split; [discriminate | discriminate]); try tauto.
  rewrite andb_true_iff, N.eqb_eq, IH.
  split; [intros [-> ->]; reflexivity | intros H; inversion H; auto].
Qed.

Lemma jsstring_eqb_refl (s : jsstring) : JsString.eqb s s = true.
Proof. apply jsstring_eqb_eq; reflexivity. Qed.

Lemma startsWith_app (p s : jsstring) : startsWith p (p ++ s) = true.
Proof.
  induction p as [|c p IH]; simpl; [reflexivity|].
  now rewrite N.eqb_refl, IH.
Qed.

Lemma includes_prefix (p s : jsstring) : includes p (p ++ s) = true.
Proof.
  assert (H : forall t, startsWith p t = true -> includes p t = true).
  { intros [|d t] Ht; simpl in *; rewrite Ht; reflexivity. }
  apply H, startsWith_app.
Qed.

Lemma includes_cons (p : jsstring) (c : code_unit) (s : jsstring) :
  includes p s = true -> includes p (c :: s) = true.
Proof. intros H; simpl. rewrite H. apply orb_true_r. Qed.

Lemma includes_app_l (p a s : jsstring) :
  includes p s = true -> includes p (a ++ s) = true.
Proof.
  intros H; induction a as [|c a IH]; [exact H|].
  apply includes_cons, IH.
Qed.

(** ** The parser *)

Lemma parse_members_object (fuel : nat) :
  forall s acc w rest,
    parse_members fuel s acc = Some (w, rest) -> exists o, w = JObj o.
Proof.
  induction fuel as [|f IH]; intros s acc w rest; cbn [parse_members];
    [discriminate|].
  destruct s as [|q s1]; [discriminate|].
  destruct (q =? 34); [|discriminate].
  destruct (parse_chars s1 []) as [[k r1]|]; [|discriminate].
  destruct (skip_ws r1) as [|d r2]; [discriminate|].
  destruct (d =? 58); [|discriminate].
  destruct (parse_value f (skip_ws r2)) as [[v0 r3]|]; [|discriminate].
  destruct (skip_ws r3) as [|e r4]; [discriminate|].
  destruct (e =? 44); [apply IH|].
  destruct (e =? 125); [|discriminate].
  intros H; injection H as <- _. eauto.
Qed.

Lemma parse_value_brace (fuel : nat) (r : jsstring) (w : json) (rest : jsstring) :
  parse_value fuel (123 :: r) = Some (w, rest) -> exists o, w = JObj o.
Proof.
  destruct fuel as [|fuel]; cbn [parse_value]; [discriminate|].
  change (123 =? 123) with true; cbv beta iota.
  destruct (skip_ws r) as [|d r']; [discriminate|].
  destruct (d =? 125).
  - intros H; injection H as <- _. eauto.
  - apply parse_members_object.
Qed.

(** A text that starts with a brace parses to an object or not at all. *)
Lemma JSON_parse_brace (r : jsstring) (v : json) :
  JSON_parse (123 :: r) = Some v -> exists o, v = JObj o.
Proof.
  unfold JSON_parse.
  change (skip_ws (123 :: r)) with (123 :: r).
  destruct (parse_value _ (123 :: r)) as [[w rest]|] eqn:P; [|discriminate].
  destruct (skip_ws rest); [|discriminate].
  intros H; injection H as <-. eapply parse_value_brace; eauto.
Qed.

Example parse_nested :
  JSON_parse (jq "{ 'a' : [1, -2.5e1, true], 'b':{'c':null}, 'a':'x\u0041' }")
  = Some (JObj [(js "a", JStr (js "xA")); (js "b", JObj [(js "c", JNull)])]).
Proof. vm_compute. reflexivity. Qed.

Example parse_rejects_trailing_comma : JSON_parse (jq "{'a':1,}") = None.
Proof. vm_compute. reflexivity. Qed.

Example parse_number_value :
  JSON_parse (js "-2.5e1") = Some (JNum (Qmake (-25) 1)).
Proof. vm_compute. reflexivity. Qed.

(** A numeral is read as the nearest double: below half the least
    subnormal it is zero, which is not truthy; beyond the largest double it
    is an infinity. *)
Example parse_rounds_to_double :
  JSON_parse (js "1e-400") = Some (JNum 0) /\
  truthy (JSON_parse (js "1e-400")) = false /\
  JSON_parse (js "-1e400") = Some (JInfinity true) /\
  JSON_parse (js "0.1")
  = Some (JNum (3602879701896397 # 36028797018963968)) /\
  JSON_parse (js "9007199254740993") = Some (JNum (9007199254740992 # 1)).
Proof. vm_compute. repeat split. Qed.

(** [parseInt] gives the nearest double as well, and an infinity for an
    integer beyond the doubles; a start that is minus infinity with a count
    that is plus infinity selects nothing, as their sum, NaN, is taken as 0
    by [slice]. *)
Example parseInt_rounds_to_double :
  parseInt_string (js "9007199254740993") = Some 9007199254740992%Z /\
  parseInt_string (js "12px") = Some 12%Z /\
  parseInt_string (js "px") = None /\
  parseInt_string (js "1" ++ repeat 48%N 400) = Some (2 ^ 1024)%Z /\
  parseInt_string (js "-1" ++ repeat 48%N 400) = Some (- 2 ^ 1024)%Z /\
  slice three_brands (- 2 ^ 1024) (- 2 ^ 1024 + 2 ^ 1024) = [].
Proof. vm_compute. repeat split. Qed.

(** ** The scenarios of the specification, run on the embedding *)

Example acme_found :
  let c := findBrandWebsite (JStr (js "Acme Blades"))
             (reply_content
                (jq "Here it is: {'brand_name':'Acme Blades','website_url':'https://acmeblades.com'}")
                (Some (mkUsage (Some 120%Q) (Some 30%Q) (Some 150%Q) None)))
             clock0 finder0 in
  field_of "success" c = Some (JBool true) /\
  field_of "error_type" c = Some JNull /\
  field_of "website_url" c = Some (JStr (js "https://acmeblades.com")) /\
  field_of "token_usage" c
    = Some (JObj (usage_props (0 + 120 - 0) (0 + 30 - 0) (0 + 150 - 0) (0 + 0 - 0))).
Proof. vm_compute. repeat split. Qed.

Example empty_content_is_model_error :
  let c := findBrandWebsite (JStr (js "NoSuchBrand")) (reply_content [] None)
             clock0 finder0 in
  field_of "success" c = Some (JBool false) /\
  field_of "error_type" c = Some (JStr (js "model_error")) /\
  field_of "website_url" c = Some JNull.
Proof. vm_compute. repeat split. Qed.

Example http_429_is_api_error :
  let c := findBrandWebsite (JStr (js "Acme Blades"))
             (ResponseNotOk 429 (js "rate limited")) clock0 finder0 in
  field_of "success" c = Some (JBool false) /\
  field_of "error_type" c = Some (JStr (js "api_error")) /\
  field_of "notes" c
    = Some (JStr (js "API ERROR: OpenRouter API error: 429 - rate limited")).
Proof. vm_compute. repeat split. Qed.

Example timeout_is_network_error :
  field_of "error_type" (findBrandWebsite (JStr (js "Acme Blades"))
     (FetchRejects (mkError (js "The operation was aborted due to timeout")))
     clock0 finder0)
  = Some (JStr (js "network_error")).
Proof. vm_compute. reflexivity. Qed.

Example fetch_failed_is_connection_error :
  field_of "error_type" (findBrandWebsite (JStr (js "Acme Blades"))
     (FetchRejects (mkError (js "fetch failed"))) clock0 finder0)
  = Some (JStr (js "connection_error")).
Proof. vm_compute. reflexivity. Qed.

Example missing_choices_is_unknown_error :
  field_of "error_type" (findBrandWebsite (JStr (js "Acme Blades"))
     (ResponseOk (mkResponse None None)) clock0 finder0)
  = Some (JStr (js "unknown_error")).
Proof. vm_compute. reflexivity. Qed.

Example success_rate_half : success_rate 1 2 = js "50.0%".
Proof. vm_compute. reflexivity. Qed.

Example success_rate_two_thirds : success_rate 2 3 = js "66.7%".
Proof. vm_compute. reflexivity. Qed.

(** In doubles [(23 / 80) * 100] is a little below 28.75. *)
Example success_rate_23_of_80 : success_rate 23 80 = js "28.7%".
Proof. vm_compute. reflexivity. Qed.

Example safe_model_key :
  safeModelKey (js "anthropic/claude-sonnet-4") = js "anthropic_claude-sonnet-4".
Proof. vm_compute. reflexivity. Qed.

(* ================================================================== *)
(** ** Objects *)

Lemma get_own_set_own (k : jsstring) (v : json) (o : props_t) :
  get_own k (set_own k v o) = Some v.
Proof.
  induction o as [|[k' v'] o IH]; simpl.
  - now rewrite jsstring_eqb_refl.
  - destruct (JsString.eqb k' k) eqn:E; simpl.
    + now rewrite jsstring_eqb_refl.
    + now rewrite E.
Qed.

Lemma get_own_set_own_other (k k' : jsstring) (v : json) (o : props_t) :
  JsString.eqb k' k = false ->
  get_own k (set_own k' v o) = get_own k o.
Proof.
  intros Hk. induction o as [|[k0 v0] o IH]; simpl.
  - now rewrite Hk.
  - destruct (JsString.eqb k0 k') eqn:E; simpl.
    + apply jsstring_eqb_eq in E; subst k0. now rewrite Hk.
    + destruct (JsString.eqb k0 k); [reflexivity | exact IH].
Qed.

(* ================================================================== *)
(** ** The Query Client *)

Lemma text_of_thrown (reply : fetch_result) :
  text_of reply = None <-> thrown reply <> None.
Proof.
  unfold text_of, thrown.
  destruct reply as [e|st tx|e|d]; try (split; [discriminate | reflexivity]).
  destruct (choices0_message_content d) as [[[| | |[|c s]| | | |]|]|]; simpl;
    try destruct b; simpl;
    try destruct (negb (Qnum q =? 0)%Z); simpl;
    split; intros H; try discriminate; try reflexivity; try congruence.
Qed.

Lemma after_request_modelKey (this : BrandWebsiteFinder) (reply : fetch_result) :
  modelKey (after_request this reply) = modelKey this.
Proof.
  unfold after_request.
  destruct reply as [e|st tx|e|d]; try reflexivity.
  unfold makeOpenRouterRequest, bind, update_tokenUsage, ret.
  destruct (usage d); reflexivity.
Qed.

Section FindBrandWebsite.

Variables (brandName : json) (now : jsstring) (this : BrandWebsiteFinder)
          (reply : fetch_result).

Let this1 := after_request this reply.
Let tokensUsed := delta this this1.
Let this2 :=
  pushed this1 (JObj ((js "brand_name", brandName) :: tokensUsed)).

(** The six assignments on an object never throw. *)
Lemma parse_and_tag_object (m text : jsstring) (o : props_t) (f : BrandWebsiteFinder)
    (used : props_t) :
  JSON_parse m = Some (JObj o) ->
  parse_and_tag f m now (JStr text) (JObj used)
  = Normal (JObj (tagged (modelKey f) now text used o)).
Proof. intros H. unfold parse_and_tag. rewrite H. reflexivity. Qed.

Lemma parse_and_tag_syntax_error (m : jsstring) (c : json) (f : BrandWebsiteFinder)
    (used : json) :
  JSON_parse m = None ->
  exists e, parse_and_tag f m now c used = Throw e.
Proof. intros H. unfold parse_and_tag. rewrite H. simpl. eauto. Qed.

Lemma match_braces_starts_with_brace (s m : jsstring) :
  match_braces s = Some m -> exists r, m = 123 :: r.
Proof.
  unfold match_braces.
  assert (H : forall t u, from_first_open t = Some u -> exists r, u = 123 :: r).
  { induction t as [|c t IH]; simpl; [discriminate|].
    destruct (c =? 123) eqn:E; [|apply IH].
    intros u Hu; injection Hu as <-. apply N.eqb_eq in E; subst c; eauto. }
  destruct (from_first_open s) as [[|b r]|] eqn:F; try discriminate.
  destruct (H _ _ F) as [r' Hr]; injection Hr as -> ->.
  destruct (upto_last_close r'); [|discriminate].
  intros Hm; injection Hm as <-. eauto.
Qed.

(** What the regular expression matched parses to an object or not at all. *)
Lemma match_parses_to_object (s m : jsstring) (v : json) :
  match_braces s = Some m -> JSON_parse m = Some v -> exists o, v = JObj o.
Proof.
  intros Hm Hp. destruct (match_braces_starts_with_brace _ _ Hm) as [r ->].
  eapply JSON_parse_brace; eauto.
Qed.

Lemma findBrandWebsite_parsed (o : props_t) :
  parsed_object reply = Some o ->
  exists text,
    text_of reply = Some text /\
    findBrandWebsite_try brandName reply now this
    = (Normal (JObj (tagged (modelKey this) now text tokensUsed o)), this2).
Proof.
  unfold parsed_object. destruct (text_of reply) as [text|] eqn:T; [|discriminate].
  intros H. exists text; split; [reflexivity|].
  pose proof (after_request_modelKey this reply) as MK.
  subst this2 tokensUsed this1. unfold after_request in *.
  destruct reply as [e|st tx|e|d]; simpl in T; try discriminate.
  destruct (choices0_message_content d) as [[[| | |[|c s]| | | |]|]|] eqn:C;
    try discriminate.
  injection T as <-.
  destruct (match_braces (c :: s)) as [m|] eqn:Hm; [|discriminate].
  destruct (JSON_parse m) as [[| | | | |o'| |]|] eqn:Hp; try discriminate.
  injection H as ->.
  unfold findBrandWebsite_try, try_catch, bind, get_this, lift, ret, throw,
    update_tokenUsage.
  destruct (makeOpenRouterRequest (ResponseOk d) this) as [[r|e] f1] eqn:R.
  - assert (r = d) as ->.
    { unfold makeOpenRouterRequest, bind, update_tokenUsage, ret in R.
      destruct (usage d); injection R as <- _; reflexivity. }
    rewrite C. cbn [truthy negb]. rewrite Hm.
    cbn [modelKey modelName tokenUsage].
    erewrite parse_and_tag_object by exact Hp.
    cbn [snd] in MK. rewrite <- MK. reflexivity.
  - exfalso. unfold makeOpenRouterRequest, bind, update_tokenUsage, ret in R.
    destruct (usage d); discriminate.
Qed.

Lemma findBrandWebsite_unparsed (text : jsstring) :
  text_of reply = Some text ->
  parsed_object reply = None ->
  findBrandWebsite_try brandName reply now this
  = (Normal (fallback_record this1 brandName now text (JObj tokensUsed)), this2).
Proof.
  unfold parsed_object. intros T; rewrite T. intros H.
  subst this2 tokensUsed this1. unfold after_request in *.
  destruct reply as [e|st tx|e|d]; simpl in T; try discriminate.
  destruct (choices0_message_content d) as [[[| | |[|c s]| | | |]|]|] eqn:C;
    try discriminate.
  injection T as <-.
  unfold findBrandWebsite_try, try_catch, bind, get_this, lift, ret, throw,
    update_tokenUsage.
  destruct (makeOpenRouterRequest (ResponseOk d) this) as [[r|e] f1] eqn:R.
  - assert (r = d) as ->.
    { unfold makeOpenRouterRequest, bind, update_tokenUsage, ret in R.
      destruct (usage d); injection R as <- _; reflexivity. }
    rewrite C. cbn [truthy negb].
    cbn [modelKey modelName tokenUsage snd].
    destruct (match_braces (c :: s)) as [m|] eqn:Hm; [|reflexivity].
    destruct (JSON_parse m) as [v|] eqn:Hp.
    + destruct (match_parses_to_object _ _ _ Hm Hp) as [o ->]. discriminate.
    + match goal with
      | |- context [parse_and_tag ?f ?m' now ?c' ?u] =>
          destruct (parse_and_tag_syntax_error m' c' f u Hp) as [e He];
          rewrite He
      end.
      reflexivity.
  - exfalso. unfold makeOpenRouterRequest, bind, update_tokenUsage, ret in R.
    destruct (usage d); discriminate.
Qed.

Lemma findBrandWebsite_thrown (error : Error) :
  thrown reply = Some error ->
  exists this',
    modelKey this' = modelKey this /\
    findBrandWebsite_try brandName reply now this
    = (Normal (failure_record this' brandName now error), this').
Proof.
  unfold thrown. intros H.
  pose proof (after_request_modelKey this reply) as MK. subst this1.
  unfold after_request in MK.
  unfold findBrandWebsite_try, try_catch, bind, get_this, lift, ret, throw,
    update_tokenUsage.
  destruct reply as [e|st tx|e|d].
  - injection H as <-. exists this. split; reflexivity.
  - injection H as <-. exists this. split; reflexivity.
  - injection H as <-. exists this. split; reflexivity.
  - destruct (makeOpenRouterRequest (ResponseOk d) this) as [[r|e] f1] eqn:R.
    + assert (r = d) as ->.
      { unfold makeOpenRouterRequest, bind, update_tokenUsage, ret in R.
        destruct (usage d); injection R as <- _; reflexivity. }
      cbn [snd] in MK.
      destruct (choices0_message_content d) as [c|e] eqn:C.
      * cbn [modelKey modelName tokenUsage].
        destruct (negb (truthy c)) eqn:Tr.
        -- injection H as <-. eexists; split; [|reflexivity]. exact MK.
        -- destruct c as [[| | |s| | | |]|]; try discriminate;
             injection H as <-; (eexists; split; [|reflexivity]); exact MK.
      * injection H as <-. eexists; split; [|reflexivity]. exact MK.
    + exfalso. unfold makeOpenRouterRequest, bind, update_tokenUsage, ret in R.
      destruct (usage d); discriminate.
Qed.

End FindBrandWebsite.

(** *** The labels of the catch block *)

Lemma classify_label (error : Error) : In (classify error) error_labels.
Proof.
  unfold classify, error_labels.
  destruct (includes (js "OpenRouter API error") (QueryClient.message error));
    [simpl; tauto|].
  destruct (includes (js "timeout") (QueryClient.message error)
            || includes (js "network") (QueryClient.message error)); [simpl; tauto|].
  destruct (includes (js "No content in response") (QueryClient.message error));
    [simpl; tauto|].
  destruct (includes (js "fetch") (QueryClient.message error)); simpl; tauto.
Qed.

Lemma label_has_kind (label : jsstring) :
  In label error_labels -> exists kind, kind_of_label label = Some kind.
Proof.
  unfold error_labels; simpl.
  intros [<-|[<-|[<-|[<-|[<-|[<-|[]]]]]]]; vm_compute; eauto.
Qed.

(** A status other than 2xx is an [api_error], whatever the error text. *)
Lemma classify_not_ok (status : nat) (errorText : jsstring) :
  classify (mkError (js "OpenRouter API error: " ++ of_nat status
                       ++ js " - " ++ errorText))
  = js "api_error".
Proof.
  unfold classify. cbn [QueryClient.message].
  change (js "OpenRouter API error: ")
    with (js "OpenRouter API error" ++ js ": ").
  rewrite <- app_assoc, includes_prefix. reflexivity.
Qed.

(** An answer without content is a [model_error]. *)
Lemma classify_no_content :
  classify (mkError (js "No content in response from model")) = js "model_error".
Proof. vm_compute. reflexivity. Qed.

(** *** Fields of the three kinds of record *)

Ltac tagged_field :=
  unfold field, tagged;
  repeat (rewrite get_own_set_own_other by reflexivity);
  rewrite ?get_own_set_own; reflexivity.

Lemma tagged_success mk now text used o :
  field "success" (JObj (tagged mk now text used o)) = Some (JBool true).
Proof. tagged_field. Qed.

Lemma tagged_error_type mk now text used o :
  field "error_type" (JObj (tagged mk now text used o)) = Some JNull.
Proof. tagged_field. Qed.

Lemma tagged_model_used mk now text used o :
  field "model_used" (JObj (tagged mk now text used o)) = Some (JStr mk).
Proof. tagged_field. Qed.

Lemma tagged_timestamp mk now text used o :
  field "timestamp" (JObj (tagged mk now text used o)) = Some (JStr now).
Proof. tagged_field. Qed.

Lemma tagged_raw_response mk now text used o :
  field "raw_response" (JObj (tagged mk now text used o)) = Some (JStr text).
Proof. tagged_field. Qed.

Lemma tagged_token_usage mk now text used o :
  field "token_usage" (JObj (tagged mk now text used o)) = Some (JObj used).
Proof. tagged_field. Qed.

Lemma tagged_other mk now text used o (k : jsstring) :
  ~ In k pipeline_fields ->
  get_own k (tagged mk now text used o) = get_own k o.
Proof.
  intros H. unfold tagged.
  assert (E : forall k', In k' pipeline_fields -> JsString.eqb k' k = false).
  { intros k' Hk'. destruct (JsString.eqb k' k) eqn:E; [|reflexivity].
    apply jsstring_eqb_eq in E; subst. contradiction. }
  repeat (rewrite get_own_set_own_other by (apply E; simpl; tauto)).
  reflexivity.
Qed.

(* ================================================================== *)
(** [findBrandWebsite] on a string: the prompt is built, and the [try]
    statement runs. *)
Ltac string_brand :=
  repeat match goal with
         | |- context [findBrandWebsite (JStr ?b) ?r ?n ?t] =>
             change (findBrandWebsite (JStr b) r n t)
               with (findBrandWebsite_try (JStr b) r n t)
         end.

Lemma findBrandWebsite_converted
    (brandName : json) (reply : fetch_result) (now : jsstring)
    (this : BrandWebsiteFinder) :
  ToString_throws brandName = false ->
  findBrandWebsite brandName reply now this
  = findBrandWebsite_try brandName reply now this.
Proof. intros H. unfold findBrandWebsite. rewrite H. reflexivity. Qed.

(** ** Claims on the Query Client *)

(** C1. For every brand name, every way the request can end, every clock
    reading and every finder, [findBrandWebsite] returns one record and does
    not throw; the record is an object; it has [success = true] exactly when
    the answer carried an object that parsed, and on every other path
    (status other than 2xx, timeout, transport failure, empty content,
    content without parseable JSON, any other exception) it has
    [success = false] and an [error_type] that is one of the six labels of
    the taxonomy: [parse_error] when a non-empty text content did not yield
    an object, the label of [classify] for the error thrown otherwise. *)
Theorem findBrandWebsite_never_throws
    (brandName : jsstring) (reply : fetch_result) (now : jsstring)
    (this : BrandWebsiteFinder) :
  exists r this',
    findBrandWebsite (JStr brandName) reply now this = (Normal r, this') /\
    is_object r = true /\
    match parsed_object reply with
    | Some _ => field "success" r = Some (JBool true)
    | None =>
        field "success" r = Some (JBool false) /\
        exists label,
          In label error_labels /\
          field "error_type" r = Some (JStr label) /\
          label = match thrown reply with
                  | Some error => classify error
                  | None => js "parse_error"
                  end
    end.
Proof.
  string_brand.
  destruct (parsed_object reply) as [o|] eqn:P.
  - destruct (findBrandWebsite_parsed (JStr brandName) now this reply o P)
      as [text [_ E]].
    do 2 eexists; split; [exact E|]. split; [reflexivity|].
    apply tagged_success.
  - destruct (thrown reply) as [error|] eqn:T.
    + destruct (findBrandWebsite_thrown (JStr brandName) now this reply error T)
        as [this' [_ E]].
      do 2 eexists; split; [exact E|]. split; [reflexivity|].
      split; [reflexivity|].
      exists (classify error). split; [apply classify_label|].
      split; reflexivity.
    + destruct (text_of reply) as [text|] eqn:X.
      * rewrite (findBrandWebsite_unparsed (JStr brandName) now this reply text X P).
        do 2 eexists; split; [reflexivity|]. split; [reflexivity|].
        split; [reflexivity|].
        exists (js "parse_error"). split; [simpl; tauto|].
        split; reflexivity.
      * apply text_of_thrown in X. contradiction.
Qed.

(** C2. In every record [findBrandWebsite] returns, either [success] is
    [true] and [error_type] is [null], or [success] is [false] and
    [error_type] is one of the six labels [api_error], [network_error],
    [model_error], [connection_error], [parse_error], [unknown_error], which
    make up the five kinds of failure of the taxonomy. *)
Theorem success_and_error_type
    (brandName : jsstring) (reply : fetch_result) (now : jsstring)
    (this : BrandWebsiteFinder) :
  exists r this',
    findBrandWebsite (JStr brandName) reply now this = (Normal r, this') /\
    ((field "success" r = Some (JBool true) /\
      field "error_type" r = Some JNull)
     \/
     (field "success" r = Some (JBool false) /\
      exists label kind,
        field "error_type" r = Some (JStr label) /\
        In label error_labels /\
        kind_of_label label = Some kind)).
Proof.
  string_brand.
  destruct (parsed_object reply) as [o|] eqn:P.
  - destruct (findBrandWebsite_parsed (JStr brandName) now this reply o P)
      as [text [_ E]].
    do 2 eexists; split; [exact E|]. left.
    split; [apply tagged_success | apply tagged_error_type].
  - assert (L : forall label, In label error_labels ->
                exists kind, kind_of_label label = Some kind)
      by apply label_has_kind.
    destruct (thrown reply) as [error|] eqn:T.
    + destruct (findBrandWebsite_thrown (JStr brandName) now this reply error T)
        as [this' [_ E]].
      do 2 eexists; split; [exact E|]. right. split; [reflexivity|].
      destruct (L _ (classify_label error)) as [kind K].
      exists (classify error), kind.
      split; [reflexivity|]. split; [apply classify_label | exact K].
    + destruct (text_of reply) as [text|] eqn:X.
      * rewrite (findBrandWebsite_unparsed (JStr brandName) now this reply text X P).
        do 2 eexists; split; [reflexivity|]. right. split; [reflexivity|].
        exists (js "parse_error"), ParseFailure.
        split; [reflexivity|]. split; [simpl; tauto | reflexivity].
      * apply text_of_thrown in X. contradiction.
Qed.

(** C9. When the answer carries an object that parses, the record returned
    has [success = true], [error_type = null], [model_used] the finder's
    model key, [timestamp] the clock reading of the call, [raw_response] the
    whole content and [token_usage] the counters after the request minus the
    counters before it, whatever the backend's object holds under these
    names; every other property is the one of the backend's object. *)
Theorem pipeline_fields_overwrite
    (brandName : jsstring) (reply : fetch_result) (now : jsstring)
    (this : BrandWebsiteFinder) (o : props_t) :
  parsed_object reply = Some o ->
  exists text fields this',
    text_of reply = Some text /\
    findBrandWebsite (JStr brandName) reply now this = (Normal (JObj fields), this') /\
    get_own (js "success") fields = Some (JBool true) /\
    get_own (js "error_type") fields = Some JNull /\
    get_own (js "model_used") fields = Some (JStr (modelKey this)) /\
    get_own (js "timestamp") fields = Some (JStr now) /\
    get_own (js "raw_response") fields = Some (JStr text) /\
    get_own (js "token_usage") fields
      = Some (JObj (delta this (after_request this reply))) /\
    forall k, ~ In k pipeline_fields -> get_own k fields = get_own k o.
Proof.
  string_brand.
  intros P.
  destruct (findBrandWebsite_parsed (JStr brandName) now this reply o P)
    as [text [T E]].
  exists text. do 2 eexists. split; [exact T|]. split; [exact E|].
  split; [apply tagged_success|]. split; [apply tagged_error_type|].
  split; [apply tagged_model_used|]. split; [apply tagged_timestamp|].
  split; [apply tagged_raw_response|]. split; [apply tagged_token_usage|].
  intros k; apply tagged_other.
Qed.

Lemma pipeline_fields_overwrite_witness :
  exists text fields this',
    text_of conflicting_reply = Some text /\
    findBrandWebsite (JStr (js "Acme")) conflicting_reply clock0 finder0
      = (Normal (JObj fields), this') /\
    get_own (js "success") fields = Some (JBool true) /\
    get_own (js "error_type") fields = Some JNull /\
    get_own (js "model_used") fields = Some (JStr (modelKey finder0)) /\
    get_own (js "timestamp") fields = Some (JStr clock0) /\
    get_own (js "raw_response") fields = Some (JStr text) /\
    get_own (js "token_usage") fields
      = Some (JObj (delta finder0 (after_request finder0 conflicting_reply))) /\
    forall k, ~ In k pipeline_fields ->
      get_own k fields
      = get_own k [(js "brand_name", JStr (js "Acme"));
                   (js "success", JBool false);
                   (js "error_type", JStr (js "x"));
                   (js "model_used", JStr (js "other"));
                   (js "token_usage", JNum 7)].
Proof.
  apply (pipeline_fields_overwrite (js "Acme") conflicting_reply clock0 finder0).
  vm_compute. reflexivity.
Defined.

(** *** What the regular expression matches *)

Lemma from_first_open_none (s : jsstring) :
  from_first_open s = None -> ~ In 123 s.
Proof.
  induction s as [|c s IH]; simpl; [tauto|].
  destruct (c =? 123) eqn:E; [discriminate|].
  apply N.eqb_neq in E. intros H [F|F]; [congruence | exact (IH H F)].
Qed.

Lemma from_first_open_some (s u : jsstring) :
  from_first_open s = Some u ->
  exists a r, s = a ++ 123 :: r /\ u = 123 :: r /\ ~ In 123 a.
Proof.
  induction s as [|c s IH]; simpl; [discriminate|].
  destruct (c =? 123) eqn:E.
  - apply N.eqb_eq in E; subst c. intros H; injection H as <-.
    exists [], s. simpl. tauto.
  - apply N.eqb_neq in E. intros H.
    destruct (IH H) as [a [r [-> [-> Ha]]]].
    exists (c :: a), r. simpl. split; [reflexivity|]. split; [reflexivity|].
    intros [F|F]; [congruence | exact (Ha F)].
Qed.

Lemma upto_last_close_none (s : jsstring) :
  upto_last_close s = None -> ~ In 125 s.
Proof.
  induction s as [|c s IH]; simpl; [tauto|].
  destruct (upto_last_close s); [discriminate|].
  destruct (c =? 125) eqn:E; [discriminate|].
  apply N.eqb_neq in E. intros _ [F|F]; [congruence | exact (IH eq_refl F)].
Qed.

Lemma upto_last_close_some (s p : jsstring) :
  upto_last_close s = Some p ->
  exists m b, p = m ++ [125] /\ s = p ++ b /\ ~ In 125 b.
Proof.
  revert p; induction s as [|c s IH]; simpl; [discriminate|].
  intros p. destruct (upto_last_close s) as [q|] eqn:U.
  - intros H; injection H as <-.
    destruct (IH q eq_refl) as [m [b [-> [-> Hb]]]].
    exists (c :: m), b. simpl. tauto.
  - destruct (c =? 125) eqn:E; [|discriminate].
    apply N.eqb_eq in E; subst c. intros H; injection H as <-.
    exists [], s. simpl. split; [reflexivity|]. split; [reflexivity|].
    apply upto_last_close_none, U.
Qed.

(** A match runs from the first opening brace to the last closing brace. *)
Lemma match_braces_some (s m : jsstring) :
  match_braces s = Some m ->
  exists a inner b,
    s = a ++ m ++ b /\ m = 123 :: inner ++ [125] /\
    ~ In 123 a /\ ~ In 125 b.
Proof.
  unfold match_braces.
  destruct (from_first_open s) as [u|] eqn:F; [|discriminate].
  destruct (from_first_open_some _ _ F) as [a [r [-> [-> Ha]]]].
  destruct (upto_last_close r) as [p|] eqn:U; [|discriminate].
  destruct (upto_last_close_some _ _ U) as [inner [b [-> [-> Hb]]]].
  intros H; injection H as <-.
  exists a, inner, b. simpl. rewrite <- !app_assoc. simpl. tauto.
Qed.

(** There is no match only when no closing brace follows an opening one. *)
Lemma match_braces_none (s : jsstring) :
  match_braces s = None ->
  forall a b c, s <> a ++ 123 :: b ++ 125 :: c.
Proof.
  unfold match_braces.
  induction s as [|x s IH]; intros H a b c E.
  - destruct a; discriminate.
  - simpl in H. destruct (x =? 123) eqn:X.
    + destruct (upto_last_close s) eqn:U; [discriminate|].
      apply upto_last_close_none in U. apply U.
      destruct a as [|y a]; simpl in E; injection E as _ ->;
        rewrite ?in_app_iff; simpl; rewrite ?in_app_iff; simpl; tauto.
    + apply N.eqb_neq in X.
      destruct a as [|y a]; simpl in E; injection E as -> E'; [congruence|].
      exact (IH H a b c E').
Qed.

Lemma fallback_record_fields (this : BrandWebsiteFinder)
    (brandName now text : jsstring) (used : props_t) :
  parse_fallback brandName (modelKey this) now text used
    (fallback_record this (JStr brandName) now text (JObj used)).
Proof. unfold parse_fallback. repeat split. Qed.

(** C6, as the code has it.  For an answer whose content is a non-empty
    string, [findBrandWebsite] takes the text from the first opening brace
    to the last closing brace.  If there is such a text and it parses, it
    parses to an object, which is returned with the pipeline's fields set
    and [success = true].  If no closing brace follows an opening one, or the
    text between them does not parse, the fallback record is returned:
    [success = false], [error_type = parse_error], [search_confidence = low],
    [website_url = null], a description made of the first 200 code units of
    the content followed by three dots, and the same [token_usage],
    [timestamp] and [raw_response] as on the other path. *)
Theorem json_extraction_and_fallback
    (brandName : jsstring) (reply : fetch_result) (now : jsstring)
    (this : BrandWebsiteFinder) (text : jsstring) :
  text_of reply = Some text ->
  exists r this',
    findBrandWebsite (JStr brandName) reply now this = (Normal r, this') /\
    match match_braces text with
    | Some m =>
        (exists a inner b,
            text = a ++ m ++ b /\ m = 123 :: inner ++ [125] /\
            ~ In 123 a /\ ~ In 125 b) /\
        match JSON_parse m with
        | Some v =>
            exists o,
              v = JObj o /\
              r = JObj (tagged (modelKey this) now text
                          (delta this (after_request this reply)) o) /\
              field "success" r = Some (JBool true)
        | None =>
            parse_fallback brandName (modelKey this) now text
              (delta this (after_request this reply)) r
        end
    | None =>
        (forall a b c, text <> a ++ 123 :: b ++ 125 :: c) /\
        parse_fallback brandName (modelKey this) now text
          (delta this (after_request this reply)) r
    end.
Proof.
  string_brand.
  intros T.
  pose proof (after_request_modelKey this reply) as MK.
  destruct (parsed_object reply) as [o|] eqn:P.
  - destruct (findBrandWebsite_parsed (JStr brandName) now this reply o P)
      as [text' [T' E]].
    rewrite T in T'; injection T' as <-.
    do 2 eexists; split; [exact E|].
    unfold parsed_object in P; rewrite T in P.
    destruct (match_braces text) as [m|] eqn:Hm; [|discriminate].
    split; [apply match_braces_some, Hm|].
    destruct (JSON_parse m) as [[| | | | |o'| |]|]; try discriminate.
    injection P as ->. exists o. split; [reflexivity|].
    split; [reflexivity | apply tagged_success].
  - rewrite (findBrandWebsite_unparsed (JStr brandName) now this reply text T P).
    do 2 eexists; split; [reflexivity|].
    rewrite <- MK.
    unfold parsed_object in P; rewrite T in P.
    destruct (match_braces text) as [m|] eqn:Hm.
    + split; [apply match_braces_some, Hm|].
      destruct (JSON_parse m) as [v|] eqn:Hp.
      * destruct (match_parses_to_object _ _ _ Hm Hp) as [o ->]. discriminate.
      * apply fallback_record_fields.
    + split; [apply match_braces_none, Hm | apply fallback_record_fields].
Qed.

Lemma json_extraction_and_fallback_witness :
  exists r this',
    findBrandWebsite (JStr (js "Acme")) conflicting_reply clock0 finder0
      = (Normal r, this') /\
    field "success" r = Some (JBool true).
Proof.
  destruct (json_extraction_and_fallback (js "Acme") conflicting_reply clock0
              finder0
              (jq "{'brand_name':'Acme','success':false,'error_type':'x','model_used':'other','token_usage':7}")
              eq_refl) as [r [this' [E H]]].
  exists r, this'. split; [exact E|].
  vm_compute in H. destruct H as [_ [o [_ [_ S]]]]. exact S.
Defined.

(** C6 as it is written fails: in [remark_text] the first top-level
    brace-delimited object is found and parses, and yet the record returned
    is the fallback record with [error_type = parse_error], because the
    regular expression runs on to the last closing brace of the content. *)
Lemma first_object_is_not_what_is_parsed :
  (exists m o,
      spec_first_top_level_object remark_text = Some m /\
      JSON_parse m = Some (JObj o)) /\
  match_braces remark_text = Some (removelast remark_text) /\
  JSON_parse (removelast remark_text) = None /\
  field_of "success"
    (findBrandWebsite (JStr (js "Acme")) (reply_content remark_text None) clock0 finder0)
  = Some (JBool false) /\
  field_of "error_type"
    (findBrandWebsite (JStr (js "Acme")) (reply_content remark_text None) clock0 finder0)
  = Some (JStr (js "parse_error")).
Proof.
  split; [|vm_compute; repeat split].
  exists (jq "{'brand_name':'Acme','website_url':'https://acme.example'}"),
    [(js "brand_name", JStr (js "Acme"));
     (js "website_url", JStr (js "https://acme.example"))].
  split; vm_compute; reflexivity.
Qed.

(* ================================================================== *)
(** ** The Batch Runner *)

(** A call returns an object and leaves the model key alone. *)
Lemma findBrandWebsite_returns
    (brandName : json) (reply : fetch_result) (now : jsstring)
    (this : BrandWebsiteFinder) :
  ToString_throws brandName = false ->
  exists o this',
    findBrandWebsite brandName reply now this = (Normal (JObj o), this') /\
    modelKey this' = modelKey this /\
    get_own (js "brand_name") o
    = match parsed_object reply with
      | Some backend => get_own (js "brand_name") backend
      | None => Some brandName
      end.
Proof.
  intros Conv. rewrite (findBrandWebsite_converted _ _ _ _ Conv).
  destruct (parsed_object reply) as [o|] eqn:P.
  - destruct (findBrandWebsite_parsed brandName now this reply o P)
      as [text [_ E]].
    do 2 eexists; split; [exact E|]. split.
    + apply after_request_modelKey.
    + apply tagged_other. simpl.
      intros [F|[F|[F|[F|[F|[F|[]]]]]]]; discriminate.
  - destruct (thrown reply) as [error|] eqn:T.
    + destruct (findBrandWebsite_thrown brandName now this reply error T)
        as [this' [MK E]].
      do 2 eexists; split; [exact E|]. split; [exact MK | reflexivity].
    + destruct (text_of reply) as [text|] eqn:X.
      * rewrite (findBrandWebsite_unparsed brandName now this reply text X P).
        do 2 eexists; split; [reflexivity|]. split.
        -- apply after_request_modelKey.
        -- reflexivity.
      * apply text_of_thrown in X. contradiction.
Qed.

Lemma slice_from (A : Type) (l : list A) (start count : Z) :
  (0 <= start <= Z.of_nat (List.length l))%Z -> (0 <= count)%Z ->
  slice l start (start + count)
  = firstn (Z.to_nat count) (skipn (Z.to_nat start) l).
Proof.
  intros Hs Hc. unfold slice.
  destruct (start <? 0)%Z eqn:E1; [apply Z.ltb_lt in E1; lia|].
  destruct (start + count <? 0)%Z eqn:E2; [apply Z.ltb_lt in E2; lia|].
  rewrite (Z.min_l start) by lia.
  set (rest := skipn (Z.to_nat start) l).
  assert (Hr : List.length rest = (List.length l - Z.to_nat start)%nat)
    by apply length_skipn.
  destruct (Z.le_ge_cases (start + count) (Z.of_nat (List.length l))) as [H|H].
  - rewrite Z.min_l by lia. f_equal. lia.
  - rewrite Z.min_r by lia.
    rewrite (firstn_all2 (n := Z.to_nat count)) by lia.
    apply firstn_all2. lia.
Qed.

Lemma slice_length (A : Type) (l : list A) (start count : Z) :
  (0 <= start <= Z.of_nat (List.length l))%Z -> (0 <= count)%Z ->
  Z.of_nat (List.length (slice l start (start + count)))
  = Z.min count (Z.of_nat (List.length l) - start).
Proof.
  intros Hs Hc. rewrite slice_from by assumption.
  rewrite length_firstn, length_skipn. lia.
Qed.

(** Settles a comparison of naturals that the hypotheses decide. *)
Ltac ltb_lia :=
  match goal with
  | |- context [(?a <? ?b)%nat] =>
      let H := fresh in
      destruct (Nat.ltb_spec a b) as [H|H]; try (exfalso; lia)
  end.

(** *** Brands that are strings *)

Lemma strings_convert (names : list jsstring) :
  existsb ToString_throws (map JStr names) = false.
Proof. induction names as [|n names IH]; [reflexivity | exact IH]. Qed.

Lemma slice_map (A B : Type) (f : A -> B) (l : list A) (start end_ : Z) :
  slice (map f l) start end_ = map f (slice l start end_).
Proof.
  unfold slice. rewrite length_map, skipn_map, firstn_map. reflexivity.
Qed.

Lemma nth_error_converts (brands : list json) (i : nat) (b : json) :
  existsb ToString_throws brands = false ->
  nth_error brands i = Some b -> ToString_throws b = false.
Proof.
  intros Conv H. apply nth_error_In in H.
  destruct (ToString_throws b) eqn:T; [|reflexivity].
  assert (X : existsb ToString_throws brands = true)
    by (apply existsb_exists; eauto).
  congruence.
Qed.

(** Splits the hypothesis that no brand of a list throws on conversion. *)
Ltac split_conv Conv Cb Cr :=
  cbn [existsb] in Conv; apply orb_false_iff in Conv; destruct Conv as [Cb Cr].

Section Undisturbed.

Variable env : environment.

Lemma query_all_length (brands : list json) :
  existsb ToString_throws brands = false ->
  forall this i,
    List.length (fst (query_all this brands env i)) = List.length brands.
Proof.
  induction brands as [|b brands IH]; intros Conv this i; simpl; [reflexivity|].
  split_conv Conv Cb Cr.
  destruct (findBrandWebsite_returns b (fst (env i)) (snd (env i)) this Cb)
    as [o [this' [E _]]].
  rewrite E. specialize (IH Cr this' (S i)).
  destruct (query_all this' brands env (S i)) as [rs this'']. simpl in *.
  now rewrite IH.
Qed.

Lemma query_all_objects (brands : list json) :
  existsb ToString_throws brands = false ->
  forall this i,
    forallb is_object (fst (query_all this brands env i)) = true.
Proof.
  induction brands as [|b brands IH]; intros Conv this i; simpl; [reflexivity|].
  split_conv Conv Cb Cr.
  destruct (findBrandWebsite_returns b (fst (env i)) (snd (env i)) this Cb)
    as [o [this' [E _]]].
  rewrite E. specialize (IH Cr this' (S i)).
  destruct (query_all this' brands env (S i)) as [rs this'']. simpl in *.
  exact IH.
Qed.

Lemma query_all_modelKey (brands : list json) :
  existsb ToString_throws brands = false ->
  forall this i,
    modelKey (snd (query_all this brands env i)) = modelKey this.
Proof.
  induction brands as [|b brands IH]; intros Conv this i; simpl; [reflexivity|].
  split_conv Conv Cb Cr.
  destruct (findBrandWebsite_returns b (fst (env i)) (snd (env i)) this Cb)
    as [o [this' [E [MK _]]]].
  rewrite E. specialize (IH Cr this' (S i)).
  destruct (query_all this' brands env (S i)) as [rs this'']. simpl in *.
  congruence.
Qed.

(** The record of turn [i + j] is the one of the brand at place [j]. *)
Lemma query_all_nth (brands : list json) :
  existsb ToString_throws brands = false ->
  forall this i j brand,
    nth_error brands j = Some brand ->
    exists o,
      nth_error (fst (query_all this brands env i)) j = Some (JObj o) /\
      get_own (js "brand_name") o
      = match parsed_object (fst (env (i + j)%nat)) with
        | Some backend => get_own (js "brand_name") backend
        | None => Some brand
        end.
Proof.
  induction brands as [|b brands IH]; intros Conv this i j brand H;
    [destruct j; discriminate|].
  simpl. split_conv Conv Cb Cr.
  destruct (findBrandWebsite_returns b (fst (env i)) (snd (env i)) this Cb)
    as [o [this' [E [_ B]]]].
  rewrite E.
  destruct j as [|j]; simpl in H.
  - injection H as <-.
    destruct (query_all this' brands env (S i)) as [rs this''].
    exists o. rewrite Nat.add_0_r. split; [reflexivity | exact B].
  - destruct (IH Cr this' (S i) j brand H) as [o' [N' B']].
    destruct (query_all this' brands env (S i)) as [rs this''].
    exists o'. simpl in *. split; [exact N'|].
    replace (i + S j)%nat with (S i + j)%nat by lia. exact B'.
Qed.

(** One request settles while the process waits for it. *)
Lemma step_request (done : list json) (cf : option finder_ref)
    (this this' : BrandWebsiteFinder) (pre rest : list json) (b : json)
    (w : list (jsstring * json)) (r : json) (reply : fetch_result)
    (now : jsstring) :
  findBrandWebsite b reply now this = (Normal r, this') ->
  step (mkProcess false done cf this (pre ++ b :: rest) done
          (AwaitRequest (List.length pre)) w)
       (RequestSettled reply now)
  = mkProcess false (done ++ [r]) cf this' (pre ++ b :: rest) (done ++ [r])
      (match rest with
       | [] => Returned (done ++ [r])
       | _ :: _ => AwaitDelay (List.length pre)
       end) w.
Proof.
  intros E. unfold step. cbn [control brandsToProcess finder].
  rewrite nth_error_app2 by lia. rewrite Nat.sub_diag. cbn [nth_error].
  rewrite E. cbn [isShuttingDown negb results currentFinder written].
  unfold loop_head. cbn [brandsToProcess isShuttingDown].
  rewrite length_app.
  destruct rest as [|b' rest']; cbn [List.length]; repeat ltb_lia;
    reflexivity.
Qed.

(** The delay ends while the process waits for it. *)
Lemma step_timer (done : list json) (cf : option finder_ref)
    (this : BrandWebsiteFinder) (pre rest : list json) (b b' : json)
    (w : list (jsstring * json)) :
  step (mkProcess false done cf this (pre ++ b :: b' :: rest) done
          (AwaitDelay (List.length pre)) w) TimerFired
  = mkProcess false done cf this (pre ++ b :: b' :: rest) done
      (AwaitRequest (S (List.length pre))) w.
Proof.
  unfold step, loop_head. cbn [control brandsToProcess isShuttingDown].
  rewrite length_app.
  cbn [List.length]. repeat ltb_lia. reflexivity.
Qed.

Lemma run_undisturbed (rest : list json) :
  forall (pre : list json) (b : json) (done : list json)
         (cf : option finder_ref) (this : BrandWebsiteFinder)
         (w : list (jsstring * json)),
    existsb ToString_throws (b :: rest) = false ->
    run (mkProcess false done cf this (pre ++ b :: rest) done
           (AwaitRequest (List.length pre)) w)
        (undisturbed env (List.length pre) (S (List.length rest)))
    = let out := query_all this (b :: rest) env (List.length pre) in
      mkProcess false (done ++ fst out) cf (snd out) (pre ++ b :: rest)
        (done ++ fst out) (Returned (done ++ fst out)) w.
Proof.
  induction rest as [|b' rest IH]; intros pre b done cf this w Conv;
    split_conv Conv Cb Cr.
  - cbn [List.length undisturbed run fold_left query_all].
    destruct (findBrandWebsite_returns b (fst (env (List.length pre)))
                (snd (env (List.length pre))) this Cb) as [o [this' [E _]]].
    rewrite (step_request _ _ _ _ _ _ _ _ _ _ _ E), E. reflexivity.
  - change (undisturbed env (List.length pre) (S (List.length (b' :: rest))))
      with (RequestSettled (fst (env (List.length pre)))
              (snd (env (List.length pre)))
            :: TimerFired
            :: undisturbed env (S (List.length pre)) (S (List.length rest))).
    cbn [run fold_left].
    destruct (findBrandWebsite_returns b (fst (env (List.length pre)))
                (snd (env (List.length pre))) this Cb) as [o [this' [E _]]].
    rewrite (step_request _ _ _ _ _ _ _ _ _ _ _ E), step_timer.
    specialize (IH (pre ++ [b]) b' (done ++ [JObj o]) cf this' w Cr).
    rewrite length_app in IH. cbn [List.length] in IH.
    rewrite Nat.add_1_r in IH. rewrite <- app_assoc in IH. cbn [app] in IH.
    unfold run in IH. rewrite IH.
    cbn [query_all]. rewrite E.
    destruct (findBrandWebsite b' (fst (env (S (List.length pre))))
                (snd (env (S (List.length pre)))) this') as [[r|e] this''];
      [destruct (query_all this'' rest env (S (S (List.length pre))))|];
      cbn [fst snd]; rewrite <- ?app_assoc; reflexivity.
Qed.

End Undisturbed.

(** [processBrands] when every brand of the slice can be converted. *)
Lemma processBrands_converted (p : process) (brands : list json)
    (startIndex count : Z) :
  existsb ToString_throws (slice brands startIndex (startIndex + count))
  = false ->
  processBrands p brands startIndex count
  = loop_head 0
      (mkProcess (isShuttingDown p) [] (Some the_finder) (finder p)
         (slice brands startIndex (startIndex + count)) []
         (control p) (written p)).
Proof.
  intros Conv. unfold processBrands. cbn [brandsToProcess]. rewrite Conv.
  reflexivity.
Qed.

(** What [processBrands] comes to when no signal arrives. *)
Lemma run_processBrands (env : environment) (this : BrandWebsiteFinder)
    (brands : list json) (startIndex count : Z) :
  let sl := slice brands startIndex (startIndex + count) in
  let out := query_all this sl env 0 in
  existsb ToString_throws sl = false ->
  run (processBrands (fresh this) brands startIndex count)
      (undisturbed env 0 (List.length sl))
  = mkProcess false (fst out) (Some the_finder) (snd out) sl (fst out)
      (Returned (fst out)) [].
Proof.
  intros sl out Conv. subst out.
  rewrite (processBrands_converted _ _ _ _ Conv).
  unfold fresh, loop_head.
  cbn [isShuttingDown finder control written brandsToProcess results].
  fold sl. fold sl in Conv. destruct sl as [|b rest]; [reflexivity|].
  cbn [List.length]. cbn [Nat.ltb Nat.leb]. unfold set_control.
  cbn [isShuttingDown finder control written brandsToProcess results
       currentResults currentFinder].
  exact (run_undisturbed env rest [] b [] (Some the_finder) this [] Conv).
Qed.

(** The same for brands that are strings. *)
Lemma run_processBrands_strings (env : environment) (this : BrandWebsiteFinder)
    (brands : list jsstring) (startIndex count : Z) :
  let sl := map JStr (slice brands startIndex (startIndex + count)) in
  let out := query_all this sl env 0 in
  run (processBrands (fresh this) (map JStr brands) startIndex count)
      (undisturbed env 0 (List.length sl))
  = mkProcess false (fst out) (Some the_finder) (snd out) sl (fst out)
      (Returned (fst out)) [].
Proof.
  cbv zeta. rewrite <- slice_map. apply run_processBrands.
  rewrite slice_map. apply strings_convert.
Qed.

(** C4. For a list of [N] brands, a start index [S < N] and a count [C]
    (natural numbers), when every request settles, every delay ends and no
    signal arrives, [processBrands] returns, with [min(C, N - S)] records:
    the records of the brands at the indices from [S] up to [S + C], queried
    one after the other in this order. *)
Theorem processBrands_returns_min_count
    (this : BrandWebsiteFinder) (brands : list jsstring) (S_ C : nat)
    (env : environment) :
  (S_ < List.length brands)%nat ->
  let n := Nat.min C (List.length brands - S_) in
  let p := run (processBrands (fresh this) (map JStr brands)
                  (Z.of_nat S_) (Z.of_nat C))
             (undisturbed env 0 n) in
  exists returned_,
    control p = Returned returned_ /\
    isShuttingDown p = false /\
    List.length returned_ = Nat.min C (List.length brands - S_) /\
    brandsToProcess p = map JStr (firstn C (skipn S_ brands)) /\
    returned_ = fst (query_all this (brandsToProcess p) env 0).
Proof.
  intros HS n p.
  assert (F : slice brands (Z.of_nat S_) (Z.of_nat S_ + Z.of_nat C)
              = firstn C (skipn S_ brands)).
  { rewrite slice_from by lia. now rewrite !Nat2Z.id. }
  assert (N' : n = List.length
                     (map JStr
                        (slice brands (Z.of_nat S_)
                           (Z.of_nat S_ + Z.of_nat C)))).
  { rewrite length_map, F, length_firstn, length_skipn. reflexivity. }
  subst p. rewrite N', run_processBrands_strings.
  cbn [control isShuttingDown brandsToProcess].
  eexists; split; [reflexivity|]. split; [reflexivity|].
  split; [rewrite query_all_length by apply strings_convert;
          rewrite <- N'; reflexivity|].
  split; [now rewrite F | reflexivity].
Qed.

Lemma processBrands_returns_min_count_witness :
  exists returned_,
    control (run (processBrands (fresh finder0) (map JStr three_brands) 1 5)
               (undisturbed silent_env 0 2)) = Returned returned_ /\
    isShuttingDown (run (processBrands (fresh finder0) (map JStr three_brands)
                           1 5)
                      (undisturbed silent_env 0 2)) = false /\
    List.length returned_ = 2%nat /\
    brandsToProcess (run (processBrands (fresh finder0) (map JStr three_brands)
                            1 5)
                       (undisturbed silent_env 0 2))
      = map JStr [js "Boker"; js "Case"] /\
    returned_
      = fst (query_all finder0
               (brandsToProcess
                  (run (processBrands (fresh finder0) (map JStr three_brands)
                          1 5)
                     (undisturbed silent_env 0 2))) silent_env 0).
Proof.
  exact (processBrands_returns_min_count finder0 three_brands 1 5 silent_env
           ltac:(simpl; lia)).
Defined.

(** C5, as the code has it.  When no signal arrives, the records returned
    are in the order of the brands of the slice, one per brand: the record at
    place [j] is the one of the brand at place [j].  Its [brand_name] is
    that brand, except when the answer carried an object that parsed: then
    it is whatever that object has under [brand_name], or absent as there. *)
Theorem records_follow_the_slice
    (this : BrandWebsiteFinder) (brands : list jsstring) (S_ C : Z)
    (env : environment) :
  let sl := slice brands S_ (S_ + C) in
  let p := run (processBrands (fresh this) (map JStr brands) S_ C)
             (undisturbed env 0 (List.length sl)) in
  exists returned_,
    control p = Returned returned_ /\
    List.length returned_ = List.length sl /\
    forall j brand,
      nth_error sl j = Some brand ->
      exists o,
        nth_error returned_ j = Some (JObj o) /\
        get_own (js "brand_name") o
        = match parsed_object (fst (env j)) with
          | Some backend => get_own (js "brand_name") backend
          | None => Some (JStr brand)
          end.
Proof.
  intros sl p. subst p.
  replace (List.length sl) with (List.length (map JStr sl))
    by apply length_map.
  subst sl. rewrite run_processBrands_strings.
  cbn [control]. eexists; split; [reflexivity|].
  split; [rewrite query_all_length by apply strings_convert; reflexivity|].
  intros j brand H.
  apply (query_all_nth env _ (strings_convert _) this 0 j (JStr brand)).
  rewrite nth_error_map, H. reflexivity.
Qed.

(** C5 as it is written fails: the backend answers for the brand [Acme]
    with an object whose [brand_name] is spelled otherwise, and the record
    returned carries the backend's spelling. *)
Lemma brand_name_is_the_backends :
  exists o,
    control (run (processBrands (fresh finder0) [JStr (js "Acme")] 0 1)
               [RequestSettled respelled_reply clock0])
    = Returned [JObj o] /\
    get_own (js "brand_name") o = Some (JStr (js "ACME Knives Inc.")) /\
    get_own (js "brand_name") o <> Some (JStr (js "Acme")).
Proof.
  eexists. split; [vm_compute; reflexivity|].
  split; [vm_compute; reflexivity | vm_compute; discriminate].
Qed.

(* ================================================================== *)
(** ** The Interruption Handler *)

Lemma filter_c_objects (f : json -> completion bool) :
  (forall o, exists b, f (JObj o) = Normal b) ->
  forall rs,
    forallb is_object rs = true ->
    exists kept,
      filter_c f rs = Normal kept /\ forallb is_object kept = true.
Proof.
  intros Hf. induction rs as [|r rs IH]; simpl; intros H.
  - exists []. split; reflexivity.
  - apply andb_true_iff in H. destruct H as [Hr Hrs].
    destruct r as [| | | | |o| |]; try discriminate.
    destruct (Hf o) as [b ->]. destruct (IH Hrs) as [kept [-> K]].
    simpl. destruct b; eexists; (split; [reflexivity|]); simpl; assumption.
Qed.

Lemma success_is_object (b : bool) (o : props_t) :
  exists b', success_is b (JObj o) = Normal b'.
Proof. unfold success_is. simpl. eauto. Qed.

Lemma is_model_issue_object (o : props_t) :
  exists b', is_model_issue (JObj o) = Normal b'.
Proof. unfold is_model_issue. simpl. eauto. Qed.

(** On records that are objects the handler's record is built, and it is
    the record of [saveResults] with the [status] added. *)
Lemma partial_output_objects (f : BrandWebsiteFinder) (rs : list json)
    (now : jsstring) :
  forallb is_object rs = true ->
  exists meta,
    partial_output f rs now
    = Normal (JObj [(js "metadata", JObj meta); (js "results", JArr rs)]) /\
    get_own (js "status") meta
    = Some (JStr (js "PARTIAL_RESULTS_DUE_TO_INTERRUPTION")) /\
    get_own (js "total_brands_processed") meta
    = Some (num_of_nat (List.length rs)) /\
    saveResults_output f rs now
    = Normal (JObj [(js "metadata", JObj (delete_own (js "status") meta));
                    (js "results", JArr rs)]).
Proof.
  intros H. unfold partial_output, saveResults_output.
  destruct (filter_c_objects _ (success_is_object true) rs H)
    as [successful [-> _]].
  destruct (filter_c_objects _ (success_is_object false) rs H)
    as [failed [-> F]].
  cbn [cbind].
  destruct (filter_c_objects _ is_model_issue_object failed F)
    as [issues [-> _]].
  cbn [cbind]. eexists. split; [reflexivity|].
  split; [reflexivity|]. split; reflexivity.
Qed.

Lemma partial_filepath_marked (f : BrandWebsiteFinder) (now : jsstring) :
  includes (js "_PARTIAL_") (partial_filepath f now) = true.
Proof.
  unfold partial_filepath, path_join_output.
  apply includes_app_l, includes_app_l, includes_app_l, includes_prefix.
Qed.

Lemma saveResults_filepath_unmarked :
  includes (js "_PARTIAL_") (saveResults_filepath finder0 clock0) = false.
Proof. vm_compute. reflexivity. Qed.

(** C7. The handler has two states, told apart by [isShuttingDown].
    - A signal in the state shutting-down ends the process with code 1 and
      writes nothing.
    - A signal in the state running sets the flag and ends the process with
      code 0.  With no record accumulated it writes nothing.  With the
      finder published and at least one record accumulated (records are
      objects), and the write succeeding, it writes one file: its name
      carries the marker [_PARTIAL_]; its value has the accumulated records
      as [results] and a [metadata] whose [status] is
      [PARTIAL_RESULTS_DUE_TO_INTERRUPTION] and which, the [status] taken
      away, is the [metadata] [saveResults] computes for the same finder,
      records and clock reading.  When the write fails, nothing is written
      and the process still ends with code 0. *)
Theorem interruption_handler_two_states
    (now_file now_meta : jsstring) (write_ok : bool)
    (cr : list json) (cf : option finder_ref) (this : BrandWebsiteFinder)
    (bs : list json) (rs : list json) (c : control_t)
    (w : list (jsstring * json)) (o : props_t) (os : list props_t) :
  (let p' := gracefulShutdown now_file now_meta write_ok
               (mkProcess true cr cf this bs rs c w) in
   control p' = Exited 1 /\ written p' = w /\ isShuttingDown p' = true)
  /\
  (let p' := gracefulShutdown now_file now_meta write_ok
               (mkProcess false [] cf this bs rs c w) in
   control p' = Exited 0 /\ written p' = w /\ isShuttingDown p' = true)
  /\
  (let accumulated := map JObj (o :: os) in
   let p' := gracefulShutdown now_file now_meta true
               (mkProcess false accumulated (Some the_finder) this bs rs c w) in
   control p' = Exited 0 /\ isShuttingDown p' = true /\
   includes (js "_PARTIAL_") (partial_filepath this now_file) = true /\
   exists meta,
     written p'
     = w ++ [(partial_filepath this now_file,
              JObj [(js "metadata", JObj meta);
                    (js "results", JArr accumulated)])] /\
     get_own (js "status") meta
     = Some (JStr (js "PARTIAL_RESULTS_DUE_TO_INTERRUPTION")) /\
     saveResults_output this accumulated now_meta
     = Normal (JObj [(js "metadata", JObj (delete_own (js "status") meta));
                     (js "results", JArr accumulated)]))
  /\
  (let p' := gracefulShutdown now_file now_meta false
               (mkProcess false cr cf this bs rs c w) in
   control p' = Exited 0 /\ written p' = w /\ isShuttingDown p' = true).
Proof.
  split; [|split; [|split]].
  - cbv zeta. unfold gracefulShutdown. cbn. repeat split.
  - cbv zeta. unfold gracefulShutdown.
    destruct cf as [[]|]; cbn; rewrite ?app_nil_r; repeat split.
  - cbv zeta.
    assert (H : forallb is_object (map JObj (o :: os)) = true).
    { clear. generalize (o :: os). induction l; simpl; auto. }
    destruct (partial_output_objects this (map JObj (o :: os)) now_meta H)
      as [meta [P [St [_ Sv]]]].
    unfold gracefulShutdown.
    cbn [isShuttingDown currentFinder currentResults finder written].
    rewrite P. cbn [map List.length Nat.ltb Nat.leb control isShuttingDown written].
    split; [reflexivity|]. split; [reflexivity|].
    split; [apply partial_filepath_marked|].
    exists meta. split; [reflexivity|]. split; assumption.
  - cbv zeta. unfold gracefulShutdown.
    cbn [isShuttingDown currentFinder currentResults finder written control].
    destruct cf as [[]|]; [|cbn; rewrite app_nil_r; repeat split].
    destruct (0 <? List.length cr)%nat;
      [destruct (partial_output this cr now_meta)|];
      cbn; rewrite app_nil_r; repeat split.
Qed.

Lemma exited_is_final (p : process) (code : Z) (events : list event) :
  control p = Exited code -> run p events = p.
Proof.
  intros H. induction events as [|ev events IH]; [reflexivity|].
  simpl. replace (step p ev) with p; [exact IH|].
  unfold step. rewrite H. destruct ev; reflexivity.
Qed.

Section Turns.

Variable env : environment.

Lemma run_turns (k : nat) :
  forall (pre rest : list json) (done : list json)
         (cf : option finder_ref) (this : BrandWebsiteFinder)
         (w : list (jsstring * json)),
    existsb ToString_throws rest = false ->
    (k < List.length rest)%nat ->
    run (mkProcess false done cf this (pre ++ rest) done
           (AwaitRequest (List.length pre)) w)
        (turns env (List.length pre) k)
    = let out := query_all this (firstn k rest) env (List.length pre) in
      mkProcess false (done ++ fst out) cf (snd out) (pre ++ rest)
        (done ++ fst out) (AwaitRequest (List.length pre + k)) w.
Proof.
  induction k as [|k IH]; intros pre rest done cf this w Conv H.
  - cbn. rewrite app_nil_r, Nat.add_0_r. reflexivity.
  - destruct rest as [|b [|b' rest]]; cbn [List.length] in H; try lia.
    split_conv Conv Cb Cr.
    cbn [turns run fold_left firstn query_all].
    destruct (findBrandWebsite_returns b (fst (env (List.length pre)))
                (snd (env (List.length pre))) this Cb) as [o [this' [E _]]].
    rewrite (step_request _ _ _ _ _ _ _ _ _ _ _ E), step_timer.
    specialize (IH (pre ++ [b]) (b' :: rest) (done ++ [JObj o]) cf this' w Cr).
    rewrite length_app in IH. cbn [List.length] in IH.
    rewrite Nat.add_1_r in IH. rewrite <- app_assoc in IH. cbn [app] in IH.
    unfold run in IH. rewrite IH by lia. rewrite E.
    destruct (query_all this' (firstn k (b' :: rest)) env (S (List.length pre)))
      as [rs' this''].
    cbn [fst snd]. rewrite <- app_assoc.
    replace (S (List.length pre) + k)%nat with (List.length pre + S k)%nat by lia.
    reflexivity.
Qed.

End Turns.

(** C8, as the code has it.  The handler does not wait for the loop to see
    the flag: it saves and ends the process itself.  After [k] completed
    turns, with the request of the next brand of the slice in flight, a
    signal ends the process with code 0; what is written then is nothing
    when [k = 0] and otherwise one partial Run Record whose [results] are
    exactly the [k] records completed before the signal, with
    [total_brands_processed = k]; the request in flight is never answered,
    since no later event changes the process. *)
Theorem signal_abandons_request_in_flight
    (this : BrandWebsiteFinder) (brands : list jsstring) (S_ C : Z)
    (env : environment) (k : nat) (now_file now_meta : jsstring) :
  let sl := map JStr (slice brands S_ (S_ + C)) in
  (k < List.length sl)%nat ->
  let p := run (processBrands (fresh this) (map JStr brands) S_ C)
             (turns env 0 k ++ [Signal now_file now_meta true]) in
  let completed := fst (query_all this (firstn k sl) env 0) in
  let this_k := snd (query_all this (firstn k sl) env 0) in
  control p = Exited 0 /\
  isShuttingDown p = true /\
  List.length completed = k /\
  (forall later, run p later = p) /\
  match k with
  | O => written p = []
  | S _ =>
      exists meta,
        written p
        = [(partial_filepath this_k now_file,
            JObj [(js "metadata", JObj meta);
                  (js "results", JArr completed)])] /\
        get_own (js "status") meta
        = Some (JStr (js "PARTIAL_RESULTS_DUE_TO_INTERRUPTION")) /\
        get_own (js "total_brands_processed") meta = Some (num_of_nat k)
  end.
Proof.
  intros sl Hk p completed this_k.
  assert (Conv : existsb ToString_throws sl = false)
    by apply strings_convert.
  assert (Conv_k : existsb ToString_throws (firstn k sl) = false).
  { subst sl. rewrite firstn_map. apply strings_convert. }
  assert (L : List.length completed = k).
  { subst completed. rewrite query_all_length by exact Conv_k.
    rewrite length_firstn. lia. }
  assert (O : forallb is_object completed = true)
    by (apply query_all_objects; exact Conv_k).
  assert (E : p = gracefulShutdown now_file now_meta true
                    (mkProcess false completed (Some the_finder) this_k sl
                       completed (AwaitRequest k) [])).
  { subst p. unfold run. rewrite fold_left_app. cbn [fold_left].
    rewrite processBrands_converted by (rewrite slice_map; exact Conv).
    rewrite slice_map. fold sl.
    unfold fresh, loop_head.
    cbn [isShuttingDown finder control written brandsToProcess results].
    destruct sl as [|b rest]; [simpl in Hk; lia|].
    cbn [List.length Nat.ltb Nat.leb]. unfold set_control.
    cbn [isShuttingDown finder control written brandsToProcess results
         currentResults currentFinder].
    pose proof (run_turns env k [] (b :: rest) [] (Some the_finder) this []
                  Conv Hk) as R.
    cbn [List.length app Nat.add] in R. unfold run in R. rewrite R.
    reflexivity. }
  assert (X : control p = Exited 0).
  { rewrite E. unfold gracefulShutdown. reflexivity. }
  split; [exact X|].
  split; [rewrite E; reflexivity|]. split; [exact L|].
  split; [intros later; exact (exited_is_final p 0 later X)|].
  destruct k as [|k'].
  - rewrite E. destruct completed; [reflexivity | discriminate].
  - destruct (partial_output_objects this_k completed now_meta O)
      as [meta [P [St [Tb _]]]].
    exists meta. rewrite E. unfold gracefulShutdown.
    cbn [isShuttingDown currentFinder currentResults finder written].
    rewrite P, L. cbn [Nat.ltb Nat.leb written app].
    split; [reflexivity|]. split; [exact St|]. rewrite <- L. exact Tb.
Qed.

(** C8 as it is written fails: the first request is answered, the delay
    ends, and a signal arrives while the second request is in flight.  The
    process ends at once with code 0; the file it has written holds one
    record, the one of the first brand; the answer to the request in flight,
    were it to come, changes nothing. *)
Lemma request_in_flight_is_not_persisted :
  exists path meta first_record,
    written (run (processBrands (fresh finder0) (map JStr three_brands) 0 3)
               [RequestSettled respelled_reply clock0; TimerFired;
                Signal clock0 clock0 true;
                RequestSettled respelled_reply clock0])
    = [(path, JObj [(js "metadata", JObj meta);
                    (js "results", JArr [first_record])])] /\
    field "brand_name" first_record = Some (JStr (js "ACME Knives Inc.")) /\
    control (run (processBrands (fresh finder0) (map JStr three_brands) 0 3)
               [RequestSettled respelled_reply clock0; TimerFired;
                Signal clock0 clock0 true;
                RequestSettled respelled_reply clock0])
    = Exited 0.
Proof.
  do 3 eexists. split; [vm_compute; reflexivity|].
  split; vm_compute; reflexivity.
Qed.

Lemma signal_abandons_request_in_flight_witness :
  control (run (processBrands (fresh finder0) (map JStr three_brands) 0 3)
             (turns silent_env 0 1 ++ [Signal clock0 clock0 true]))
  = Exited 0 /\
  isShuttingDown (run (processBrands (fresh finder0) (map JStr three_brands)
                         0 3)
                    (turns silent_env 0 1 ++ [Signal clock0 clock0 true]))
  = true /\
  List.length
    (fst (query_all finder0
            (firstn 1 (map JStr (slice three_brands 0 (0 + 3))))
            silent_env 0)) = 1%nat.
Proof.
  destruct (signal_abandons_request_in_flight finder0 three_brands 0 3
              silent_env 1 clock0 clock0 ltac:(vm_compute; lia))
    as [H1 [H2 [H3 _]]].
  exact (conj H1 (conj H2 H3)).
Defined.

(* ================================================================== *)
(** ** The Completion Store *)

Example store_picks_the_best_file :
  let c := fst (checkExistingResults finder0 (Some results_dir) 2) in
  hasResults c = true /\
  filepath c
    = Some (js "results/brand_websites_gpt-4o-mini_2025-01-02T00-00-00-000Z.json") /\
  successfulCount c = Some 2%nat /\ totalCount c = Some 2%nat /\
  CompletionStore.message c
    = js "Found existing results with 2 successful entries (2 total)".
Proof. vm_compute. repeat split. Qed.

Example store_warns_on_malformed_file :
  snd (checkExistingResults finder0 (Some results_dir) 2)
  = [warn_sign ++ js "Error reading brand_websites_gpt-4o-mini_2025-01-04T00-00-00-000Z.json: Unexpected token in JSON"].
Proof. vm_compute. reflexivity. Qed.

Example store_below_threshold :
  let c := fst (checkExistingResults finder0 (Some results_dir) 3) in
  hasResults c = false /\
  CompletionStore.message c
    = js "Best existing results only have 2 successful entries (need 3)".
Proof. vm_compute. repeat split. Qed.

Lemma find_snoc (A : Type) (f : A -> bool) (l : list A) (x : A) :
  find f (l ++ [x])
  = match find f l with
    | Some y => Some y
    | None => if f x then Some x else None
    end.
Proof.
  induction l as [|a l IH]; simpl; [reflexivity|].
  destruct (f a); [reflexivity | exact IH].
Qed.

Lemma best_count_snoc (files : list dir_entry) (e : dir_entry) :
  best_count (files ++ [e]) = Nat.max (best_count files) (count_or_zero e).
Proof.
  unfold best_count. rewrite map_app, list_max_app. simpl.
  now rewrite Nat.max_0_r.
Qed.

Lemma count_le_best (files : list dir_entry) (e : dir_entry) :
  In e files -> (count_or_zero e <= best_count files)%nat.
Proof.
  intros H. unfold best_count.
  assert (F : Forall (fun k => (k <= list_max (map count_or_zero files))%nat)
                (map count_or_zero files))
    by (apply list_max_le; lia).
  rewrite Forall_forall in F. apply F, in_map, H.
Qed.

Lemma find_has_count_none (files : list dir_entry) (n : nat) :
  (best_count files < n)%nat -> find (has_count n) files = None.
Proof.
  intros H. destruct (find (has_count n) files) as [e|] eqn:F; [|reflexivity].
  apply find_some in F. destruct F as [I C].
  pose proof (count_le_best files e I) as L.
  unfold has_count in C. unfold count_or_zero in L.
  destruct (qualifying_count e) as [m|]; [|discriminate].
  apply Nat.eqb_eq in C. lia.
Qed.

Lemma outcome_normal (e : dir_entry) (data_ : json) (successful : list json) :
  outcome e = Normal (data_, successful) ->
  successful_of data_ = Normal successful /\
  exists items, results_of data_ = Normal items.
Proof.
  unfold outcome. destruct (read_and_parse e) as [d|]; simpl; [|discriminate].
  destruct (successful_of d) as [s|] eqn:S; simpl; [|discriminate].
  intros H; injection H as <- <-. split; [exact S|].
  unfold successful_of in S. destruct (results_of d) as [items|]; simpl in S;
    [eauto | discriminate].
Qed.

Lemma scan_scanned (files : list dir_entry) : scanned files (scan files).
Proof.
  induction files as [|e files IH] using rev_ind.
  - unfold scanned, scan, best_count. simpl. auto.
  - unfold scan in *. rewrite fold_left_app. cbn [fold_left].
    destruct (fold_left (fun st entry => scan_file entry st) files
                (mkBest None 0 None, [])) as [best warnings].
    destruct IH as [B [W S]]. cbn [fst snd] in *.
    unfold scanned. rewrite best_count_snoc, flat_map_app, find_snoc.
    cbn [flat_map]. rewrite app_nil_r.
    unfold scan_file. fold (outcome e).
    destruct (outcome e) as [[d s]|error] eqn:O.
    + assert (Ce : count_or_zero e = List.length s)
        by (unfold count_or_zero, qualifying_count; now rewrite O).
      assert (We : warning_of e = [])
        by (unfold warning_of; now rewrite O).
      assert (He : has_count (List.length s) e = true)
        by (unfold has_count, qualifying_count; rewrite O; apply Nat.eqb_refl).
      rewrite Ce, We, app_nil_r, B.
      destruct (Nat.ltb_spec (best_count files) (List.length s)) as [Lt|Ge];
        cbn [fst snd bestSuccessCount bestFile bestData].
      * rewrite Nat.max_r by lia. split; [reflexivity|]. split; [exact W|].
        right. split; [lia|].
        rewrite (find_has_count_none files _ Lt), He.
        destruct (outcome_normal _ _ _ O) as [Sd [items Rd]].
        exists e, d, s, items. repeat split; assumption.
      * rewrite Nat.max_l by lia. split; [exact B|]. split; [exact W|].
        destruct S as [[Z N]|[P [e0 [d0 [s0 [i0 [F R]]]]]]].
        -- left. split; assumption.
        -- right. split; [exact P|]. exists e0, d0, s0, i0.
           rewrite F. split; [reflexivity | exact R].
    + assert (Ce : count_or_zero e = 0%nat)
        by (unfold count_or_zero, qualifying_count; now rewrite O).
      assert (We : warning_of e
                   = [warn_sign ++ js "Error reading " ++ fst e ++ js ": "
                        ++ QueryClient.message error])
        by (unfold warning_of; now rewrite O).
      rewrite Ce, We, Nat.max_0_r. cbn [fst snd].
      split; [exact B|]. split; [now rewrite W|].
      destruct S as [[Z N]|[P [e0 [d0 [s0 [i0 [F R]]]]]]].
      * left. split; assumption.
      * right. split; [exact P|]. exists e0, d0, s0, i0.
        rewrite F. split; [reflexivity | exact R].
Qed.

Lemma empty_is_scanned_zero (files : list dir_entry) :
  List.length files = 0%nat -> best_count files = 0%nat.
Proof. destruct files; [reflexivity | discriminate]. Qed.

Section Store.

Variables (this : BrandWebsiteFinder) (entries : list dir_entry) (T : Z).

Let files := candidates (modelKey this) entries.
Let best := best_count files.

Lemma full_check_shape :
  let res := checkExistingResults this (Some entries) T in
  snd res = flat_map warning_of files /\
  hasResults (fst res) = (1 <=? best)%nat && (T <=? Z.of_nat best)%Z /\
  ((1 <= best)%nat ->
   exists e,
     find (has_count best) files = Some e /\
     filepath (fst res) = Some (path_join_output (fst e)) /\
     successfulCount (fst res) = Some best).
Proof.
  cbv zeta. subst best. unfold checkExistingResults. fold files.
  destruct (Nat.eqb_spec (List.length files) 0) as [E|NE].
  - destruct files; [|discriminate].
    cbn. split; [reflexivity|]. split; [reflexivity|]. intros H. lia.
  - pose proof (scan_scanned files) as S.
    destruct (scan files) as [b warnings].
    destruct S as [B [W [[Z N]|[P [e [d [s [items [F [Bf [Bd [Sd [Rd L]]]]]]]]]]]]];
      cbn [fst snd] in *.
    + rewrite N, Z. cbn. split; [exact W|]. split; [reflexivity|].
      intros H. lia.
    + rewrite Bf, Bd, Sd, Rd. cbn [cbind]. rewrite L.
      destruct (Nat.leb_spec 1 (best_count files)) as [_|H]; [|lia].
      cbn [andb].
      destruct (T <=? Z.of_nat (best_count files))%Z; cbn [fst snd hasResults filepath
                                              successfulCount];
        (split; [exact W|]); (split; [reflexivity|]);
        intros _; exists e; repeat split; assumption.
Qed.

Lemma minimal_check_shape :
  let res := minimal_checkExistingResults (modelKey this) (Some entries) T in
  hasResults (fst res) = (1 <=? best)%nat.
Proof.
  cbv zeta. subst best. unfold minimal_checkExistingResults. fold files.
  destruct (Nat.eqb_spec (List.length files) 0) as [E|NE].
  - destruct files; [|discriminate]. reflexivity.
  - pose proof (scan_scanned files) as S.
    destruct (scan files) as [b warnings].
    destruct S as [B [W [[Z N]|[P [e [d [s [items [F [Bf [Bd [Sd [Rd L]]]]]]]]]]]]];
      cbn [fst snd] in *.
    + rewrite N, Z. reflexivity.
    + rewrite Bf, Bd, Sd, Rd. cbn [cbind fst hasResults].
      destruct (Nat.leb_spec 1 (best_count files)) as [_|H]; [reflexivity | lia].
Qed.

End Store.

Lemma candidates_without_partial (modelKey_ : jsstring) (entries : list dir_entry) :
  candidates modelKey_ (filter (fun e => negb (is_partial e)) entries)
  = candidates modelKey_ entries.
Proof.
  unfold candidates, is_partial.
  induction entries as [|e entries IH]; [reflexivity|].
  cbn [filter].
  destruct (includes (js "_PARTIAL_") (fst e)) eqn:P; cbn [negb filter].
  - rewrite IH.
    destruct (startsWith _ (fst e) && endsWith _ (fst e)); cbn [filter];
      [rewrite P|]; reflexivity.
  - destruct (startsWith _ (fst e) && endsWith _ (fst e)); cbn [filter];
      [rewrite P; cbn [negb]|]; now rewrite IH.
Qed.

Lemma candidates_not_partial (modelKey_ : jsstring) (entries : list dir_entry) :
  Forall (fun e => is_partial e = false) (candidates modelKey_ entries).
Proof.
  apply Forall_forall. intros e H. unfold candidates in H.
  apply filter_In in H. destruct H as [_ H].
  unfold is_partial. now destruct (includes (js "_PARTIAL_") (fst e)).
Qed.

Lemma best_count_bounds (files : list dir_entry) :
  Forall (fun e => (count_or_zero e <= best_count files)%nat) files.
Proof. apply Forall_forall. intros e H. now apply count_le_best. Qed.

Lemma best_count_unusable (files : list dir_entry) :
  Forall (fun e => qualifying_count e = None) files -> best_count files = 0%nat.
Proof.
  unfold best_count. induction 1 as [|e files H _ IH]; [reflexivity|].
  cbn [map list_max fold_right]. unfold count_or_zero at 1. rewrite H.
  exact IH.
Qed.

(** C3, as the code has it.  For a finder, a listing of the results
    directory and a threshold [T], any integer:
    - the files whose name carries the marker [_PARTIAL_] are no candidates,
      and the answer is the one for the listing without them;
    - each candidate that cannot be read as a Run Record is skipped, with
      one warning, and the check still answers;
    - a record qualifies when [success === true] and [website_url] is
      truthy; [best] is the greatest number of qualifying records among the
      candidates that can be read, and the answer is the sufficient-results
      state exactly when [best >= 1] and [best >= T], which for [T >= 1] is
      [best >= T];
    - when [best >= 1] the file reported is the first candidate with [best]
      qualifying records, and [successfulCount] is [best];
    - when no candidate can be read, or the directory cannot be listed, the
      answer is the no-results state. *)
Theorem completion_store_selects_best
    (this : BrandWebsiteFinder) (entries : list dir_entry) (T : Z) :
  let files := candidates (modelKey this) entries in
  let best := best_count files in
  let res := checkExistingResults this (Some entries) T in
  Forall (fun e => is_partial e = false) files /\
  checkExistingResults this
    (Some (filter (fun e => negb (is_partial e)) entries)) T = res /\
  snd res = flat_map warning_of files /\
  Forall (fun e => (count_or_zero e <= best)%nat) files /\
  (hasResults (fst res) = true
   <-> (1 <= best)%nat /\ (T <= Z.of_nat best)%Z) /\
  ((1 <= T)%Z ->
   (hasResults (fst res) = true <-> (T <= Z.of_nat best)%Z)) /\
  ((1 <= best)%nat ->
   exists e,
     find (has_count best) files = Some e /\
     filepath (fst res) = Some (path_join_output (fst e)) /\
     successfulCount (fst res) = Some best) /\
  (Forall (fun e => qualifying_count e = None) files ->
   hasResults (fst res) = false) /\
  hasResults (fst (checkExistingResults this None T)) = false.
Proof.
  intros files best res.
  destruct (full_check_shape this entries T) as [W [H S]].
  fold files in W, H, S. fold best in H, S. fold res in W, H, S.
  split; [apply candidates_not_partial|].
  split.
  { subst res. unfold checkExistingResults.
    now rewrite candidates_without_partial. }
  split; [exact W|]. split; [apply best_count_bounds|].
  split.
  { rewrite H, andb_true_iff, Nat.leb_le, Z.leb_le. tauto. }
  split.
  { intros HT. rewrite H, andb_true_iff, Nat.leb_le, Z.leb_le. lia. }
  split; [exact S|].
  split; [|reflexivity].
  intros U. rewrite H. subst best. now rewrite (best_count_unusable files U).
Qed.

(** C3 as it is written fails, in two ways, on the one file of
    [empty_url_dir].  The file parses and holds one record with
    [success = true] and a [website_url] that is present and not [null], so
    the count the claim names is 1 and reaches the threshold 1; the store
    counts no record, since the empty string is not truthy, and answers the
    no-results state.  And with the threshold 0 the store's own count, 0,
    reaches the threshold, yet the answer is the no-results state: no file
    is ever chosen with no qualifying record. *)
Lemma empty_url_is_not_counted :
  map spec_qualifying_count (candidates (modelKey finder0) empty_url_dir)
  = [Some 1%nat] /\
  map qualifying_count (candidates (modelKey finder0) empty_url_dir)
  = [Some 0%nat] /\
  hasResults (fst (checkExistingResults finder0 (Some empty_url_dir) 1)) = false /\
  hasResults (fst (checkExistingResults finder0 (Some empty_url_dir) 0)) = false.
Proof. vm_compute. repeat split. Qed.

Lemma leb_list_max (l : list nat) :
  (1 <=? list_max l)%nat = existsb (fun n => (1 <=? n)%nat) l.
Proof.
  induction l as [|n l IH]; [reflexivity|].
  cbn [list_max fold_right existsb]. fold (list_max l). rewrite <- IH.
  destruct (Nat.leb_spec 1 n), (Nat.leb_spec 1 (list_max l)),
    (Nat.leb_spec 1 (Nat.max n (list_max l))); try reflexivity; lia.
Qed.

Lemma existsb_of_map (A B : Type) (f : B -> bool) (g : A -> B) (l : list A) :
  existsb f (map g l) = existsb (fun x => f (g x)) l.
Proof.
  induction l as [|a l IH]; [reflexivity|]. simpl. now rewrite IH.
Qed.

(** C10. The check of the show-mode stub has no threshold: it answers the
    sufficient-results state exactly when some candidate that can be read
    holds at least one record with [success === true] and a truthy
    [website_url]; the check of the class answers it only when, moreover,
    the best count reaches the requested count.  So on one and the same
    directory the two differ exactly when the best count is at least 1 and
    below the requested count. *)
Theorem show_mode_stub_has_no_threshold
    (this : BrandWebsiteFinder) (dir : directory) (count : Z) :
  let files := candidates (modelKey this) (listing dir) in
  let best := best_count files in
  let full := fst (checkExistingResults this dir count) in
  let stub := fst (minimal_checkExistingResults (modelKey this) dir count) in
  hasResults stub = existsb (fun e => (1 <=? count_or_zero e)%nat) files /\
  hasResults full = hasResults stub && (count <=? Z.of_nat best)%Z /\
  xorb (hasResults full) (hasResults stub)
  = (1 <=? best)%nat && (Z.of_nat best <? count)%Z.
Proof.
  intros files best full stub.
  assert (Hs : hasResults stub = (1 <=? best)%nat).
  { subst stub best files. destruct dir as [entries|]; [|reflexivity].
    apply minimal_check_shape. }
  assert (Hf : hasResults full = (1 <=? best)%nat && (count <=? Z.of_nat best)%Z).
  { subst full best files. destruct dir as [entries|]; [|reflexivity].
    apply full_check_shape. }
  split.
  { rewrite Hs. subst best. unfold best_count.
    rewrite leb_list_max, existsb_of_map. reflexivity. }
  split; [now rewrite Hf, Hs|].
  rewrite Hf, Hs, Z.ltb_antisym.
  destruct (1 <=? best)%nat, (count <=? Z.of_nat best)%Z; reflexivity.
Qed.

Example stub_and_class_disagree :
  hasResults (fst (minimal_checkExistingResults (js "gpt-4o-mini")
                     (Some results_dir) 3)) = true /\
  hasResults (fst (checkExistingResults finder0 (Some results_dir) 3)) = false.
Proof. vm_compute. split; reflexivity. Qed.

(** A [website_url] that is a numeral too small for a double reads as 0,
    which is not truthy: neither check counts the record. *)
Example zero_url_is_not_counted :
  let dir :=
    Some [(js "brand_websites_gpt-4o-mini_2025-01-01T00-00-00-000Z.json",
           Some (jq "{'results':[{'success':true,'website_url':1e-400}]}"))] in
  hasResults (fst (checkExistingResults finder0 dir 1)) = false /\
  hasResults (fst (minimal_checkExistingResults (js "gpt-4o-mini") dir 1))
  = false.
Proof. vm_compute. split; reflexivity. Qed.

(* ================================================================== *)
(** * Further properties *)

(** ** The Query Client *)

(** X1. A status other than 2xx gives, whatever the status and the error
    text, a record with [success = false], [error_type = api_error], the
    status and the text in its [notes], no raw response and a zero
    [token_usage]; the finder is left as it was. *)
Theorem not_ok_is_api_error
    (brandName : jsstring) (status : nat) (errorText now : jsstring)
    (this : BrandWebsiteFinder) :
  exists r,
    findBrandWebsite (JStr brandName) (ResponseNotOk status errorText) now this
    = (Normal r, this) /\
    field "brand_name" r = Some (JStr brandName) /\
    field "success" r = Some (JBool false) /\
    field "error_type" r = Some (JStr (js "api_error")) /\
    field "notes" r
    = Some (JStr (js "API ERROR: OpenRouter API error: " ++ of_nat status
                    ++ js " - " ++ errorText)) /\
    field "website_url" r = Some JNull /\
    field "raw_response" r = Some JNull /\
    field "token_usage" r = Some (JObj (usage_props 0 0 0 0)).
Proof.
  eexists. split; [reflexivity|].
  unfold failure_record. rewrite classify_not_ok.
  repeat split.
Qed.

(** What a call does to the finder: nothing when the request throws, the
    usage counted when the body lacks [choices], the usage counted and one
    entry pushed otherwise. *)
Lemma findBrandWebsite_finder_after
    (brandName : json) (reply : fetch_result) (now : jsstring)
    (this : BrandWebsiteFinder) :
  snd (findBrandWebsite_try brandName reply now this)
  = match reply with
    | ResponseOk response =>
        match choices0_message_content response with
        | Normal _ =>
            pushed (after_request this reply)
              (JObj ((js "brand_name", brandName)
                       :: delta this (after_request this reply)))
        | Throw _ => after_request this reply
        end
    | _ => this
    end.
Proof.
  destruct reply as [e|st tx|e|d]; try reflexivity.
  unfold after_request.
  unfold findBrandWebsite_try, try_catch, bind, get_this, lift, ret, throw,
    update_tokenUsage.
  destruct (makeOpenRouterRequest (ResponseOk d) this) as [[r|e] f1] eqn:R.
  - assert (r = d) as ->.
    { unfold makeOpenRouterRequest, bind, update_tokenUsage, ret in R.
      destruct (usage d); injection R as <- _; reflexivity. }
    cbn [snd].
    destruct (choices0_message_content d) as [c|e]; [|reflexivity].
    cbn [modelKey modelName tokenUsage].
    destruct (negb (truthy c)); [reflexivity|].
    destruct c as [[| | |text| | | |]|]; try reflexivity.
    destruct (match_braces text) as [m|]; [|reflexivity].
    destruct (parse_and_tag f1 m now (JStr text) _); reflexivity.
  - exfalso. unfold makeOpenRouterRequest, bind, update_tokenUsage, ret in R.
    destruct (usage d); discriminate.
Qed.

Lemma after_request_effect (this : BrandWebsiteFinder) (reply : fetch_result) :
  modelName (after_request this reply) = modelName this /\
  brandTokens (tokenUsage (after_request this reply))
  = brandTokens (tokenUsage this) /\
  requestCount (tokenUsage (after_request this reply))
  = match reply with
    | ResponseOk response =>
        match usage response with
        | Some _ => S (requestCount (tokenUsage this))
        | None => requestCount (tokenUsage this)
        end
    | _ => requestCount (tokenUsage this)
    end.
Proof.
  unfold after_request.
  destruct reply as [e|st tx|e|d]; try (repeat split; reflexivity).
  unfold makeOpenRouterRequest, bind, update_tokenUsage, ret.
  destruct (usage d); cbn; repeat split; lia.
Qed.

(** X2. A call never changes the finder's model key or model name; it
    counts one more request exactly when the answer is a 2xx body that
    reports usage; and it appends at most one entry to [brandTokens],
    exactly one when the body has [choices], keeping the entries that were
    there. *)
Theorem findBrandWebsite_keeps_the_finder
    (brandName : jsstring) (reply : fetch_result) (now : jsstring)
    (this : BrandWebsiteFinder) :
  let this' := snd (findBrandWebsite (JStr brandName) reply now this) in
  modelKey this' = modelKey this /\
  modelName this' = modelName this /\
  requestCount (tokenUsage this')
  = match reply with
    | ResponseOk response =>
        match usage response with
        | Some _ => S (requestCount (tokenUsage this))
        | None => requestCount (tokenUsage this)
        end
    | _ => requestCount (tokenUsage this)
    end /\
  exists added,
    brandTokens (tokenUsage this') = brandTokens (tokenUsage this) ++ added /\
    List.length added
    = match reply with
      | ResponseOk response =>
          match choices response with
          | Some _ => 1%nat
          | None => 0%nat
          end
      | _ => 0%nat
      end.
Proof.
  cbv zeta. string_brand. rewrite findBrandWebsite_finder_after.
  pose proof (after_request_modelKey this reply) as MK.
  destruct (after_request_effect this reply) as [MN [BT RC]].
  destruct reply as [e|st tx|e|d];
    try (repeat split; try reflexivity; exists []; now rewrite app_nil_r).
  unfold choices0_message_content.
  destruct (choices d) as [cs|].
  - cbn [pushed modelKey modelName tokenUsage requestCount brandTokens].
    split; [exact MK|]. split; [exact MN|]. split; [exact RC|].
    eexists. rewrite BT. split; reflexivity.
  - split; [exact MK|]. split; [exact MN|]. split; [exact RC|].
    exists []. rewrite BT, app_nil_r. split; reflexivity.
Qed.

(** X3. When a 2xx answer has [choices] but no content (absent, [null] or
    the empty string), the record is a [model_error] with a zero
    [token_usage], although the usage the backend reported has been added to
    the finder's counters and an entry with it pushed to [brandTokens]. *)
Theorem no_content_is_model_error
    (brandName : jsstring) (response : responseData) (now : jsstring)
    (this : BrandWebsiteFinder) (c : option json) :
  choices0_message_content response = Normal c ->
  truthy c = false ->
  let counted := after_request this (ResponseOk response) in
  exists r,
    findBrandWebsite (JStr brandName) (ResponseOk response) now this
    = (Normal r,
       pushed counted
         (JObj ((js "brand_name", JStr brandName) :: delta this counted))) /\
    field "success" r = Some (JBool false) /\
    field "error_type" r = Some (JStr (js "model_error")) /\
    field "raw_response" r = Some JNull /\
    field "token_usage" r = Some (JObj (usage_props 0 0 0 0)).
Proof.
  intros C T counted. string_brand.
  assert (Th : thrown (ResponseOk response)
               = Some (mkError (js "No content in response from model"))).
  { unfold thrown. rewrite C, T. reflexivity. }
  destruct (findBrandWebsite_thrown (JStr brandName) now this _ _ Th) as [this' [_ E]].
  pose proof (findBrandWebsite_finder_after (JStr brandName) (ResponseOk response)
                now this) as F.
  rewrite E in F. cbn [snd] in F. rewrite C in F. subst this'.
  eexists. split; [exact E|].
  unfold failure_record. rewrite classify_no_content. repeat split.
Qed.

Lemma no_content_is_model_error_witness :
  exists r,
    findBrandWebsite (JStr (js "NoSuchBrand"))
      (ResponseOk (mkResponse (Some [])
                     (Some (mkUsage (Some 12%Q) None (Some 12%Q) None))))
      clock0 finder0
    = (Normal r,
       pushed (after_request finder0
                 (ResponseOk (mkResponse (Some [])
                    (Some (mkUsage (Some 12%Q) None (Some 12%Q) None)))))
         (JObj ((js "brand_name", JStr (js "NoSuchBrand"))
                  :: delta finder0
                       (after_request finder0
                          (ResponseOk (mkResponse (Some [])
                             (Some (mkUsage (Some 12%Q) None (Some 12%Q)
                                      None)))))))) /\
    field "success" r = Some (JBool false) /\
    field "error_type" r = Some (JStr (js "model_error")) /\
    field "raw_response" r = Some JNull /\
    field "token_usage" r = Some (JObj (usage_props 0 0 0 0)).
Proof.
  exact (no_content_is_model_error (js "NoSuchBrand")
           (mkResponse (Some [])
              (Some (mkUsage (Some 12%Q) None (Some 12%Q) None)))
           clock0 finder0 None eq_refl eq_refl).
Defined.

(** The regular expression finds the text between the first opening and the
    last closing brace. *)
Lemma match_braces_complete (a inner b : jsstring) :
  ~ In 123 a -> ~ In 125 b ->
  match_braces (a ++ 123 :: inner ++ 125 :: b) = Some (123 :: inner ++ [125]).
Proof.
  intros Ha Hb. unfold match_braces.
  assert (F : from_first_open (a ++ 123 :: inner ++ 125 :: b)
              = Some (123 :: inner ++ 125 :: b)).
  { clear Hb. induction a as [|c a IH]; [reflexivity|].
    cbn [app from_first_open].
    destruct (N.eqb_spec c 123) as [->|_]; [exfalso; apply Ha; now left|].
    apply IH. intros H; apply Ha; now right. }
  rewrite F.
  assert (U : upto_last_close (inner ++ 125 :: b) = Some (inner ++ [125])).
  { clear F Ha. induction inner as [|c inner IH].
    - cbn [app upto_last_close].
      assert (N : upto_last_close b = None).
      { induction b as [|d b IHb]; [reflexivity|].
        cbn [upto_last_close]. rewrite IHb by (intros H; apply Hb; now right).
        destruct (N.eqb_spec d 125) as [->|_];
          [exfalso; apply Hb; now left | reflexivity]. }
      rewrite N. reflexivity.
    - cbn [app upto_last_close]. rewrite IH. reflexivity. }
  rewrite U. reflexivity.
Qed.

(** X4. Prose around the JSON is tolerated as long as it holds no brace on
    the wrong side: when the content is some text without an opening brace,
    then a brace-delimited text that parses, then some text without a
    closing brace, the record is the parsed object with the pipeline's
    fields set, and [success = true]. *)
Theorem prose_around_json_is_tolerated
    (brandName : jsstring) (u : option usage_t) (now : jsstring)
    (this : BrandWebsiteFinder) (a inner b : jsstring) (v : json) :
  ~ In 123 a -> ~ In 125 b ->
  JSON_parse (123 :: inner ++ [125]) = Some v ->
  let text := a ++ 123 :: inner ++ 125 :: b in
  exists o r this',
    v = JObj o /\
    findBrandWebsite (JStr brandName) (reply_content text u) now this
    = (Normal r, this') /\
    r = JObj (tagged (modelKey this) now text
                (delta this (after_request this (reply_content text u))) o) /\
    field "success" r = Some (JBool true) /\
    field "raw_response" r = Some (JStr text).
Proof.
  intros Ha Hb Hp text. string_brand.
  destruct (JSON_parse_brace _ _ Hp) as [o ->].
  assert (M : match_braces text = Some (123 :: inner ++ [125]))
    by (apply match_braces_complete; assumption).
  assert (Tx : text_of (reply_content text u) = Some text).
  { subst text. destruct a; reflexivity. }
  assert (P : parsed_object (reply_content text u) = Some o).
  { unfold parsed_object. rewrite Tx, M, Hp. reflexivity. }
  destruct (findBrandWebsite_parsed (JStr brandName) now this _ o P)
    as [text' [T' E]].
  rewrite Tx in T'; injection T' as <-.
  exists o. do 2 eexists. split; [reflexivity|]. split; [exact E|].
  split; [reflexivity|].
  split; [apply tagged_success | apply tagged_raw_response].
Qed.

Lemma prose_around_json_is_tolerated_witness :
  exists o r this',
    JObj [(js "website_url", JNull)] = JObj o /\
    findBrandWebsite (JStr (js "Acme"))
      (reply_content
         (js "Sure } here: "
            ++ 123 :: jq "'website_url':null" ++ 125 :: js " {done") None)
      clock0 finder0
    = (Normal r, this') /\
    r = JObj (tagged (modelKey finder0) clock0
                (js "Sure } here: "
                   ++ 123 :: jq "'website_url':null" ++ 125 :: js " {done")
                (delta finder0
                   (after_request finder0
                      (reply_content
                         (js "Sure } here: "
                            ++ 123 :: jq "'website_url':null"
                            ++ 125 :: js " {done") None))) o) /\
    field "success" r = Some (JBool true) /\
    field "raw_response" r
    = Some (JStr (js "Sure } here: "
                    ++ 123 :: jq "'website_url':null" ++ 125 :: js " {done")).
Proof.
  apply (prose_around_json_is_tolerated (js "Acme") None clock0 finder0
           (js "Sure } here: ") (jq "'website_url':null") (js " {done")
           (JObj [(js "website_url", JNull)])).
  - vm_compute. intuition discriminate.
  - vm_compute. intuition discriminate.
  - vm_compute. reflexivity.
Defined.

(** ** The names of the files *)

(** X5. The sanitised model key holds none of the nine characters of the
    class, is as long as the key, and sanitising it again changes nothing;
    a key without such a character is left as it is. *)
Theorem safeModelKey_is_safe (modelKey_ : jsstring) :
  Forall (fun c => unsafe_char c = false) (safeModelKey modelKey_) /\
  List.length (safeModelKey modelKey_) = List.length modelKey_ /\
  safeModelKey (safeModelKey modelKey_) = safeModelKey modelKey_ /\
  (Forall (fun c => unsafe_char c = false) modelKey_ ->
   safeModelKey modelKey_ = modelKey_).
Proof.
  unfold safeModelKey, replace_class.
  assert (S : Forall (fun c => unsafe_char c = false)
                (map (fun c => if unsafe_char c then 95 else c) modelKey_)).
  { induction modelKey_ as [|c k IH]; constructor; [|exact IH].
    destruct (unsafe_char c) eqn:E; [reflexivity | exact E]. }
  assert (K : forall k, Forall (fun c => unsafe_char c = false) k ->
                map (fun c => if unsafe_char c then 95 else c) k = k).
  { induction 1 as [|c k Hc _ IH]; [reflexivity|].
    cbn [map]. now rewrite Hc, IH. }
  split; [exact S|]. split; [apply length_map|].
  split; [apply K, S | apply K].
Qed.

Lemma includes_needs_each_char (p s : jsstring) (c : code_unit) :
  In c p -> includes p s = true -> In c s.
Proof.
  intros Hc.
  assert (P : forall t, startsWith p t = true -> In c t).
  { clear s. revert Hc. induction p as [|d p IH]; intros Hc t; [destruct Hc|].
    destruct t as [|e t]; [discriminate|]. cbn [startsWith].
    rewrite andb_true_iff, N.eqb_eq. intros [<- St].
    destruct Hc as [->|Hc]; [now left | right; now apply IH]. }
  induction s as [|e s IH]; cbn [includes].
  - rewrite orb_false_r. apply P.
  - rewrite orb_true_iff. intros [H|H]; [now apply P | right; now apply IH].
Qed.

Lemma map_keeps_out (f : code_unit -> code_unit) (c : code_unit)
    (s : jsstring) :
  (forall d, f d = c -> d = c) -> ~ In c s -> ~ In c (map f s).
Proof.
  intros Hf Hs H. apply in_map_iff in H. destruct H as [d [E I]].
  apply Hf in E. subst d. contradiction.
Qed.

Lemma endsWith_app (p s : jsstring) : endsWith p (s ++ p) = true.
Proof. unfold endsWith. rewrite rev_app_distr. apply startsWith_app. Qed.

(** X6. What is saved is found again, and what is saved on interruption is
    not.  For a finder whose model key has no capital P (none of
    [CONFIG.MODELS] has one) and a clock reading without one, the file
    [saveResults] writes has a name that [checkExistingResults] of the same
    model takes as a candidate; the file [gracefulShutdown] writes never
    is one, whatever the key and the clock reading.  Both are written to
    [path.join] of the output directory and that name. *)
Theorem saved_file_is_a_candidate
    (this : BrandWebsiteFinder) (now : jsstring) (content_ : option jsstring) :
  ~ In 80 (modelKey this) -> ~ In 80 now ->
  candidates (modelKey this) [(saveResults_filename this now, content_)]
  = [(saveResults_filename this now, content_)] /\
  candidates (modelKey this) [(partial_filename this now, content_)] = [] /\
  saveResults_filepath this now
  = path_join_output (saveResults_filename this now) /\
  partial_filepath this now = path_join_output (partial_filename this now).
Proof.
  intros Hk Hn.
  assert (Pre : forall rest,
             startsWith (js "brand_websites_" ++ safeModelKey (modelKey this)
                           ++ js "_")
               (js "brand_websites_" ++ safeModelKey (modelKey this)
                  ++ js "_" ++ rest) = true).
  { intros rest.
    replace (js "brand_websites_" ++ safeModelKey (modelKey this)
               ++ js "_" ++ rest)
      with ((js "brand_websites_" ++ safeModelKey (modelKey this) ++ js "_")
              ++ rest) by (now rewrite <- !app_assoc).
    apply startsWith_app. }
  assert (Suf : forall front, endsWith (js ".json") (front ++ js ".json") = true)
    by (intros; apply endsWith_app).
  split; [|split; [|split; reflexivity]].
  - unfold candidates, saveResults_filename. cbn [filter fst].
    rewrite Pre.
    replace (js "brand_websites_" ++ safeModelKey (modelKey this) ++ js "_"
               ++ dashed now ++ js ".json")
      with ((js "brand_websites_" ++ safeModelKey (modelKey this) ++ js "_"
               ++ dashed now) ++ js ".json") at 1
      by (now rewrite <- !app_assoc).
    rewrite Suf. cbn [andb filter fst].
    destruct (includes (js "_PARTIAL_") _) eqn:I; [|reflexivity].
    exfalso.
    apply (includes_needs_each_char _ _ 80) in I;
      [|vm_compute; tauto].
    rewrite !in_app_iff in I.
    destruct I as [I|[I|[I|[I|I]]]];
      try (vm_compute in I; intuition discriminate).
    + revert I. apply map_keeps_out; [|exact Hk].
      intros d. destruct (unsafe_char d); [discriminate | auto].
    + revert I. apply map_keeps_out; [|exact Hn].
      intros d. destruct ((d =? 58) || (d =? 46)); [discriminate | auto].
  - unfold candidates, partial_filename. cbn [filter fst].
    replace (js "brand_websites_" ++ safeModelKey (modelKey this)
               ++ js "_PARTIAL_" ++ dashed now ++ js ".json")
      with (js "brand_websites_" ++ safeModelKey (modelKey this) ++ js "_"
              ++ (js "PARTIAL_" ++ dashed now ++ js ".json")) at 1
      by reflexivity.
    rewrite Pre.
    replace (js "brand_websites_" ++ safeModelKey (modelKey this)
               ++ js "_PARTIAL_" ++ dashed now ++ js ".json")
      with ((js "brand_websites_" ++ safeModelKey (modelKey this)
               ++ js "_PARTIAL_" ++ dashed now) ++ js ".json") at 1
      by (now rewrite <- !app_assoc).
    rewrite Suf. cbn [andb filter fst].
    replace (includes (js "_PARTIAL_")
               (js "brand_websites_" ++ safeModelKey (modelKey this)
                  ++ js "_PARTIAL_" ++ dashed now ++ js ".json"))
      with true; [reflexivity|].
    symmetry. apply includes_app_l, includes_app_l, includes_prefix.
Qed.

Lemma models_have_no_capital_P :
  forallb (fun kv => negb (existsb (N.eqb 80) (fst kv))) MODELS = true.
Proof. vm_compute. reflexivity. Qed.

Lemma saved_file_is_a_candidate_witness :
  candidates (modelKey finder0) [(saveResults_filename finder0 clock0, None)]
  = [(saveResults_filename finder0 clock0, None)] /\
  candidates (modelKey finder0) [(partial_filename finder0 clock0, None)] = [] /\
  saveResults_filepath finder0 clock0
  = path_join_output (saveResults_filename finder0 clock0) /\
  partial_filepath finder0 clock0
  = path_join_output (partial_filename finder0 clock0).
Proof.
  apply (saved_file_is_a_candidate finder0 clock0 None).
  - vm_compute. intuition discriminate.
  - vm_compute. intuition discriminate.
Defined.

(** ** The Completion Store, further *)

Lemma filter_c_length (f : json -> completion bool) (items kept : list json) :
  filter_c f items = Normal kept -> (List.length kept <= List.length items)%nat.
Proof.
  revert kept. induction items as [|r items IH]; intros kept; cbn [filter_c].
  - intros H; injection H as <-. reflexivity.
  - destruct (f r) as [keep|]; cbn [cbind]; [|discriminate].
    destruct (filter_c f items) as [rest|]; cbn [cbind]; [|discriminate].
    intros H; injection H as <-. specialize (IH rest eq_refl).
    destruct keep; cbn [List.length]; lia.
Qed.

(** The data the loop keeps is the parse of the file it keeps. *)
Lemma scan_best_origin (files : list dir_entry) (d : json) :
  bestData (fst (scan files)) = Some d ->
  exists e,
    In e files /\ bestFile (fst (scan files)) = Some (fst e) /\
    read_and_parse e = Normal d.
Proof.
  induction files as [|e files IH] using rev_ind; [discriminate|].
  unfold scan in *. rewrite fold_left_app. cbn [fold_left].
  destruct (fold_left (fun st entry => scan_file entry st) files
              (mkBest None 0 None, [])) as [best warnings].
  cbn [fst] in IH. unfold scan_file.
  destruct (read_and_parse e) as [d0|] eqn:R; cbn [cbind].
  - destruct (successful_of d0) as [s|]; cbn [cbind].
    + destruct (bestSuccessCount best <? List.length s)%nat;
        cbn [fst bestData bestFile].
      * intros H; injection H as <-. exists e.
        rewrite in_app_iff. cbn. tauto.
      * intros H. destruct (IH H) as [x [I [F P]]]. exists x.
        rewrite in_app_iff. tauto.
    + cbn [fst]. intros H. destruct (IH H) as [x [I [F P]]]. exists x.
      rewrite in_app_iff. tauto.
  - cbn [fst]. intros H. destruct (IH H) as [x [I [F P]]]. exists x.
    rewrite in_app_iff. tauto.
Qed.

Section StoreFields.

Variables (this : BrandWebsiteFinder) (entries : list dir_entry) (T : Z).

Let files := candidates (modelKey this) entries.

(** Every field of the answer, by the best count. *)
Lemma full_check_fields :
  let res := fst (checkExistingResults this (Some entries) T) in
  match best_count files with
  | O =>
      hasResults res = false /\ filepath res = None /\
      successfulCount res = None /\ totalCount res = None /\
      data res = None /\
      CompletionStore.message res
      = match files with
        | [] => js "No existing results found for " ++ modelKey this
        | _ :: _ => js "No valid results files found for " ++ modelKey this
        end
  | S n =>
      exists e d items,
        In e files /\ read_and_parse e = Normal d /\
        results_of d = Normal items /\
        qualifying_count e = Some (S n) /\
        (S n <= List.length items)%nat /\
        filepath res = Some (path_join_output (fst e)) /\
        successfulCount res = Some (S n) /\
        totalCount res = Some (List.length items) /\
        hasResults res = (T <=? Z.of_nat (S n))%Z /\
        data res = (if (T <=? Z.of_nat (S n))%Z then Some d else None) /\
        CompletionStore.message res
        = if (T <=? Z.of_nat (S n))%Z
          then js "Found existing results with " ++ of_nat (S n)
                 ++ js " successful entries (" ++ of_nat (List.length items)
                 ++ js " total)"
          else js "Best existing results only have " ++ of_nat (S n)
                 ++ js " successful entries (need " ++ of_Z T ++ js ")"
  end.
Proof.
  cbv zeta. unfold checkExistingResults. fold files.
  destruct (Nat.eqb_spec (List.length files) 0) as [E|NE].
  - destruct files; [|discriminate]. cbn. repeat split.
  - pose proof (scan_scanned files) as S.
    pose proof (scan_best_origin files) as O.
    destruct (scan files) as [b warnings].
    destruct S as [B [W [[Z N]|[P [e0 [d [s [items [F [Bf [Bd [Sd [Rd L]]]]]]]]]]]]];
      cbn [fst snd] in *.
    + rewrite Z, N. destruct files; [contradiction|]. cbn. repeat split.
    + destruct (best_count files) as [|n] eqn:Bc; [lia|].
      destruct (O d Bd) as [e [I [Fe Re]]].
      rewrite Bf in Fe. injection Fe as Fe.
      rewrite Bf, Bd, Sd, Rd. cbn [cbind]. rewrite L.
      exists e, d, items.
      assert (Q : qualifying_count e = Some (S n)).
      { unfold qualifying_count, outcome. rewrite Re. cbn [cbind].
        rewrite Sd. cbn [cbind]. now rewrite L. }
      assert (Le : (S n <= List.length items)%nat).
      { rewrite <- L. unfold successful_of in Sd. rewrite Rd in Sd.
        cbn [cbind] in Sd. exact (filter_c_length _ _ _ Sd). }
      rewrite Fe.
      destruct (T <=? Z.of_nat (S n))%Z; cbn; repeat split; assumption.
Qed.

End StoreFields.

(** X7. Whatever the listing and the threshold, the answer of
    [checkExistingResults] is coherent: with [hasResults] it hands back the
    parse of the very candidate file whose path it reports, and without it
    no data; the counts are both present or both absent, a path is reported
    exactly when they are present, and [successfulCount] never exceeds
    [totalCount]. *)
Theorem check_answer_is_coherent
    (this : BrandWebsiteFinder) (entries : list dir_entry) (T : Z) :
  let res := fst (checkExistingResults this (Some entries) T) in
  (if hasResults res
   then exists e d,
          In e (candidates (modelKey this) entries) /\
          read_and_parse e = Normal d /\
          filepath res = Some (path_join_output (fst e)) /\
          data res = Some d
   else data res = None) /\
  match successfulCount res, totalCount res with
  | Some s, Some t => (s <= t)%nat /\ filepath res <> None
  | None, None => filepath res = None
  | _, _ => False
  end.
Proof.
  cbv zeta. pose proof (full_check_fields this entries T) as F.
  cbv zeta in F.
  destruct (best_count (candidates (modelKey this) entries)) as [|n].
  - destruct F as [H [Fp [Sc [Tc [D _]]]]]. rewrite H, Sc, Tc. tauto.
  - destruct F as [e [d [items [I [R [_ [_ [Le [Fp [Sc [Tc [H [D _]]]]]]]]]]]]].
    rewrite H, Sc, Tc, D, Fp.
    split; [|split; [exact Le | discriminate]].
    destruct (T <=? Z.of_nat (S n))%Z; [|reflexivity].
    exists e, d. tauto.
Qed.

(** X8. The four ways of finding nothing are told apart by the message:
    the directory cannot be listed, it holds no candidate at all, it holds
    candidates but none with a qualifying record, and the best file is below
    the threshold; only the last names a file and its counts.  (The message
    of the last is given for a threshold up to 2^53, which JavaScript writes
    digit by digit.) *)
Theorem check_messages
    (this : BrandWebsiteFinder) (dir : directory) (T : Z) :
  let files := candidates (modelKey this) (listing dir) in
  let best := best_count files in
  let res := fst (checkExistingResults this dir T) in
  hasResults res = false ->
  (dir = None /\
   CompletionStore.message res = js "Error reading existing results" /\
   filepath res = None)
  \/
  (dir <> None /\ files = [] /\
   CompletionStore.message res
   = js "No existing results found for " ++ modelKey this /\
   filepath res = None)
  \/
  (files <> [] /\ best = 0%nat /\
   CompletionStore.message res
   = js "No valid results files found for " ++ modelKey this /\
   filepath res = None)
  \/
  ((1 <= best)%nat /\ (Z.of_nat best < T)%Z /\
   ((T <= 2 ^ 53)%Z ->
    CompletionStore.message res
    = js "Best existing results only have " ++ of_nat best
        ++ js " successful entries (need " ++ of_Z T ++ js ")") /\
   successfulCount res = Some best /\
   exists e, In e files /\ filepath res = Some (path_join_output (fst e))).
Proof.
  intros files best res. subst res best files.
  destruct dir as [entries|]; [|intros _; left; repeat split].
  cbn [listing].
  pose proof (full_check_fields this entries T) as F. cbv zeta in F.
  destruct (best_count (candidates (modelKey this) entries)) as [|n].
  - destruct F as [_ [Fp [_ [_ [_ M]]]]]. intros _.
    destruct (candidates (modelKey this) entries) as [|e l].
    + right; left. repeat split; try assumption. discriminate.
    + right; right; left. repeat split; try assumption. discriminate.
  - destruct F as [e [d [items [I [_ [_ [_ [_ [Fp [Sc [_ [H [_ M]]]]]]]]]]]]].
    rewrite H. intros Hf. rewrite Hf in M.
    right; right; right. apply Z.leb_gt in Hf.
    split; [lia|]. split; [lia|]. split; [intros _; exact M|].
    split; [exact Sc|].
    exists e. tauto.
Qed.

Lemma check_messages_witness :
  (Some results_dir = None /\
   CompletionStore.message (fst (checkExistingResults finder0 (Some results_dir) 3))
   = js "Error reading existing results" /\
   filepath (fst (checkExistingResults finder0 (Some results_dir) 3)) = None)
  \/
  (Some results_dir <> None /\
   candidates (modelKey finder0) (listing (Some results_dir)) = [] /\
   CompletionStore.message (fst (checkExistingResults finder0 (Some results_dir) 3))
   = js "No existing results found for " ++ modelKey finder0 /\
   filepath (fst (checkExistingResults finder0 (Some results_dir) 3)) = None)
  \/
  (candidates (modelKey finder0) (listing (Some results_dir)) <> [] /\
   best_count (candidates (modelKey finder0) (listing (Some results_dir)))
   = 0%nat /\
   CompletionStore.message (fst (checkExistingResults finder0 (Some results_dir) 3))
   = js "No valid results files found for " ++ modelKey finder0 /\
   filepath (fst (checkExistingResults finder0 (Some results_dir) 3)) = None)
  \/
  ((1 <= best_count (candidates (modelKey finder0)
                       (listing (Some results_dir))))%nat /\
   (Z.of_nat (best_count (candidates (modelKey finder0)
                            (listing (Some results_dir)))) < 3)%Z /\
   ((3 <= 2 ^ 53)%Z ->
    CompletionStore.message (fst (checkExistingResults finder0 (Some results_dir) 3))
    = js "Best existing results only have "
        ++ of_nat (best_count (candidates (modelKey finder0)
                                 (listing (Some results_dir))))
        ++ js " successful entries (need " ++ of_Z 3 ++ js ")") /\
   successfulCount (fst (checkExistingResults finder0 (Some results_dir) 3))
   = Some (best_count (candidates (modelKey finder0)
                         (listing (Some results_dir)))) /\
   exists e,
     In e (candidates (modelKey finder0) (listing (Some results_dir))) /\
     filepath (fst (checkExistingResults finder0 (Some results_dir) 3))
     = Some (path_join_output (fst e))).
Proof.
  apply (check_messages finder0 (Some results_dir) 3).
  vm_compute. reflexivity.
Defined.

Lemma filter_permutation (A : Type) (f : A -> bool) (l l' : list A) :
  Permutation l l' -> Permutation (filter f l) (filter f l').
Proof.
  induction 1 as [|x l l' _ IH|x y l|l l' l'' _ IH1 _ IH2]; cbn [filter].
  - constructor.
  - destruct (f x); [now constructor | exact IH].
  - destruct (f x), (f y); try apply Permutation_refl.
    apply perm_swap.
  - now apply Permutation_trans with (filter f l').
Qed.

Lemma list_max_permutation (l l' : list nat) :
  Permutation l l' -> list_max l = list_max l'.
Proof.
  induction 1 as [|x l l' _ IH|x y l|l l' l'' _ IH1 _ IH2]; cbn [list_max fold_right].
  - reflexivity.
  - fold (list_max l) (list_max l'). now rewrite IH.
  - fold (list_max l). lia.
  - congruence.
Qed.

Lemma best_count_permutation (files files' : list dir_entry) :
  Permutation files files' -> best_count files = best_count files'.
Proof.
  intros H. unfold best_count.
  apply list_max_permutation, Permutation_map, H.
Qed.

(** X9. The order in which the directory is listed does not decide whether
    the results suffice, nor the count reported: for two listings with the
    same entries, [hasResults] and [successfulCount] agree.  (The file
    reported may differ when two files tie.) *)
Theorem check_ignores_listing_order
    (this : BrandWebsiteFinder) (entries entries' : list dir_entry) (T : Z) :
  Permutation entries entries' ->
  hasResults (fst (checkExistingResults this (Some entries) T))
  = hasResults (fst (checkExistingResults this (Some entries') T)) /\
  successfulCount (fst (checkExistingResults this (Some entries) T))
  = successfulCount (fst (checkExistingResults this (Some entries') T)).
Proof.
  intros P.
  assert (B : best_count (candidates (modelKey this) entries)
              = best_count (candidates (modelKey this) entries')).
  { apply best_count_permutation. unfold candidates.
    now apply filter_permutation, filter_permutation. }
  pose proof (full_check_fields this entries T) as F.
  pose proof (full_check_fields this entries' T) as F'.
  cbv zeta in F, F'. rewrite <- B in F'.
  destruct (best_count (candidates (modelKey this) entries)) as [|n].
  - destruct F as [H [_ [Sc _]]]. destruct F' as [H' [_ [Sc' _]]].
    now rewrite H, H', Sc, Sc'.
  - destruct F as [e [d [items [_ [_ [_ [_ [_ [_ [Sc [_ [H _]]]]]]]]]]]].
    destruct F' as [e' [d' [items' [_ [_ [_ [_ [_ [_ [Sc' [_ [H' _]]]]]]]]]]]].
    now rewrite H, H', Sc, Sc'.
Qed.

Lemma check_ignores_listing_order_witness :
  hasResults (fst (checkExistingResults finder0 (Some results_dir) 2))
  = hasResults (fst (checkExistingResults finder0 (Some (rev results_dir)) 2)) /\
  successfulCount (fst (checkExistingResults finder0 (Some results_dir) 2))
  = successfulCount
      (fst (checkExistingResults finder0 (Some (rev results_dir)) 2)).
Proof.
  exact (check_ignores_listing_order finder0 results_dir (rev results_dir) 2
           (Permutation_rev results_dir)).
Defined.

(** ** The Batch Runner, further *)

Lemma slice_nothing (A : Type) (l : list A) (start count : Z) :
  (0 <= start)%Z ->
  (Z.of_nat (List.length l) <= start \/ (count <= 0 /\ 0 <= start + count))%Z ->
  slice l start (start + count) = [].
Proof.
  intros Hs H. unfold slice.
  destruct (start <? 0)%Z eqn:E1; [apply Z.ltb_lt in E1; lia|].
  destruct H as [H|[Hc Hsc]].
  - rewrite (Z.min_r start) by lia. rewrite Nat2Z.id.
    rewrite skipn_all. apply firstn_nil.
  - destruct (start + count <? 0)%Z eqn:E2; [apply Z.ltb_lt in E2; lia|].
    replace (Z.to_nat _) with 0%nat by lia. reflexivity.
Qed.

(** X10. With a start index at or past the end of the list, or with a count
    that is zero or negative while [startIndex + count] is not negative,
    there is nothing to process: [processBrands] returns the empty list at
    once, without waiting for any request, and writes nothing. *)
Theorem processBrands_nothing_to_do
    (this : BrandWebsiteFinder) (brands : list json) (S_ C : Z) :
  (0 <= S_)%Z ->
  (Z.of_nat (List.length brands) <= S_ \/ (C <= 0 /\ 0 <= S_ + C))%Z ->
  let p := processBrands (fresh this) brands S_ C in
  control p = Returned [] /\ brandsToProcess p = [] /\ written p = [] /\
  finder p = this.
Proof.
  intros HS H p. subst p. unfold processBrands, fresh, loop_head.
  cbn [isShuttingDown finder control written brandsToProcess results].
  rewrite slice_nothing by assumption. repeat split.
Qed.

Lemma processBrands_nothing_to_do_witness :
  control (processBrands (fresh finder0) (map JStr three_brands) 1 (-1))
  = Returned [] /\
  brandsToProcess (processBrands (fresh finder0) (map JStr three_brands) 1 (-1))
  = [] /\
  written (processBrands (fresh finder0) (map JStr three_brands) 1 (-1)) = [] /\
  finder (processBrands (fresh finder0) (map JStr three_brands) 1 (-1))
  = finder0.
Proof.
  exact (processBrands_nothing_to_do finder0 (map JStr three_brands) 1 (-1)
           ltac:(lia) ltac:(simpl; lia)).
Defined.

Lemma slice_negative_end (A : Type) (l : list A) (count : Z) :
  (count < 0)%Z ->
  slice l 0 (0 + count)
  = firstn (Z.to_nat (Z.of_nat (List.length l) + count)) l.
Proof.
  intros H. unfold slice. cbn [Z.ltb Z.compare Z.add].
  destruct (count <? 0)%Z eqn:E; [|apply Z.ltb_ge in E; lia].
  rewrite (Z.min_l 0) by lia. cbn [Z.to_nat skipn].
  f_equal. lia.
Qed.

(** X11. A negative count with start index 0 drops brands from the end:
    [processBrands(brands, 0, C)] with [C < 0] takes all the brands but the
    last [-C] (none when the list is no longer than that), and returns one
    record for each when no signal arrives. *)
Theorem negative_count_drops_from_the_end
    (this : BrandWebsiteFinder) (brands : list jsstring) (C : Z)
    (env : environment) :
  (C < 0)%Z ->
  let n := Z.to_nat (Z.of_nat (List.length brands) + C) in
  let p := run (processBrands (fresh this) (map JStr brands) 0 C)
             (undisturbed env 0 n) in
  brandsToProcess p = map JStr (firstn n brands) /\
  (n <= List.length brands)%nat /\
  exists returned_,
    control p = Returned returned_ /\ List.length returned_ = n.
Proof.
  intros HC n p.
  assert (F : slice brands 0 (0 + C) = firstn n brands)
    by (apply slice_negative_end, HC).
  assert (Ln : n = List.length (map JStr (slice brands 0 (0 + C)))).
  { rewrite length_map, F, length_firstn. subst n. lia. }
  subst p. rewrite Ln, run_processBrands_strings.
  cbn [control brandsToProcess].
  split; [rewrite <- Ln, F; reflexivity|]. split; [subst n; lia|].
  eexists. split; [reflexivity|].
  apply query_all_length, strings_convert.
Qed.

Lemma negative_count_drops_from_the_end_witness :
  brandsToProcess (run (processBrands (fresh finder0) (map JStr three_brands)
                          0 (-1))
                     (undisturbed silent_env 0 2))
  = map JStr [js "Acme Blades"; js "Boker"] /\
  (2 <= List.length three_brands)%nat /\
  exists returned_,
    control (run (processBrands (fresh finder0) (map JStr three_brands) 0 (-1))
               (undisturbed silent_env 0 2)) = Returned returned_ /\
    List.length returned_ = 2%nat.
Proof.
  exact (negative_count_drops_from_the_end finder0 three_brands (-1)
           silent_env ltac:(lia)).
Defined.

(** ** The process at every [await] *)

Lemma processBrands_well_formed
    (this : BrandWebsiteFinder) (brands : list json) (S_ C : Z) :
  existsb ToString_throws (slice brands S_ (S_ + C)) = false ->
  well_formed (processBrands (fresh this) brands S_ C).
Proof.
  intros Conv. rewrite processBrands_converted by exact Conv.
  unfold fresh, loop_head, well_formed.
  cbn [isShuttingDown finder control written brandsToProcess results].
  destruct (slice brands S_ (S_ + C)) as [|b rest]; cbn; repeat split; lia.
Qed.

(** No event changes the slice. *)
Lemma step_brandsToProcess (p : process) (ev : event) :
  brandsToProcess (step p ev) = brandsToProcess p.
Proof.
  unfold step, gracefulShutdown, loop_head, set_control.
  destruct (control p); destruct ev; try reflexivity;
    repeat match goal with
           | |- context [match ?x with _ => _ end] => destruct x
           | |- context [if ?x then _ else _] => destruct x
           end; reflexivity.
Qed.

Lemma forallb_snoc (A : Type) (f : A -> bool) (l : list A) (x : A) :
  forallb f (l ++ [x]) = forallb f l && f x.
Proof. rewrite forallb_app. cbn. now rewrite andb_true_r. Qed.

Lemma gracefulShutdown_saves_at_most_one
    (t1 t2 : jsstring) (ok : bool) (p : process) :
  isShuttingDown p = false -> written p = [] ->
  let p' := gracefulShutdown t1 t2 ok p in
  control p' = Exited 0 /\ isShuttingDown p' = true /\
  (List.length (written p') <= 1)%nat /\
  (currentResults p = [] -> written p' = []) /\
  currentResults p' = currentResults p /\ results p' = results p /\
  brandsToProcess p' = brandsToProcess p.
Proof.
  intros F W. cbv zeta. unfold gracefulShutdown. rewrite F, W.
  cbn [control isShuttingDown written currentResults results brandsToProcess app].
  split; [reflexivity|]. split; [reflexivity|].
  split; [|split; [|repeat split]].
  - destruct (currentFinder p) as [[]|]; [|cbn; lia].
    destruct (0 <? List.length (currentResults p))%nat; [|cbn; lia].
    destruct (partial_output _ _ _); [destruct ok|]; cbn; lia.
  - intros E. rewrite E. destruct (currentFinder p) as [[]|]; reflexivity.
Qed.

Lemma step_well_formed (p : process) (ev : event) :
  existsb ToString_throws (brandsToProcess p) = false ->
  well_formed p -> well_formed (step p ev).
Proof.
  intros Conv [CR [Ob [Wl Ctl]]].
  unfold step. destruct (control p) as [|i|i|rs|e|code] eqn:Cp;
    try contradiction.
  - (* a request is pending *)
    destruct Ctl as [F [W [Hi Lt]]].
    destruct ev as [reply now| |t1 t2 ok].
    + destruct (nth_error (brandsToProcess p) i) as [brand|] eqn:Nt;
        [|unfold well_formed; rewrite Cp; tauto].
      destruct (findBrandWebsite_returns brand reply now (finder p)
                  (nth_error_converts _ _ _ Conv Nt))
        as [o [this' [E _]]].
      rewrite E, F. cbn [isShuttingDown negb].
      match goal with
      | |- context [(?a <? ?b)%nat] => destruct (Nat.ltb_spec a b) as [L|G]
      end; cbn [andb].
      * unfold well_formed, set_control.
        cbn [currentResults results written control isShuttingDown
             brandsToProcess].
        rewrite forallb_snoc, Ob, length_app, W. cbn. repeat split; lia.
      * unfold loop_head. cbn [brandsToProcess].
        match goal with
        | |- context [(?a <? ?b)%nat] => destruct (Nat.ltb_spec a b) as [L'|G']
        end; [lia|].
        unfold well_formed, set_control.
        cbn [currentResults results written control isShuttingDown
             brandsToProcess].
        rewrite forallb_snoc, Ob, length_app, W. cbn. repeat split; lia.
    + unfold well_formed. rewrite Cp. tauto.
    + destruct (gracefulShutdown_saves_at_most_one t1 t2 ok p F W)
        as [C' [F' [L' [E' [R1 [R2 B']]]]]].
      unfold well_formed. rewrite C', R1, R2, B'.
      split; [exact CR|]. split; [exact Ob|]. split; [exact L'|].
      split; [reflexivity|]. split; [exact F'|]. split; [lia|].
      intros Z. apply E'. now rewrite CR.
  - (* the delay is pending *)
    destruct Ctl as [F [W [Hi Lt]]].
    destruct ev as [reply now| |t1 t2 ok].
    + unfold well_formed. rewrite Cp. tauto.
    + unfold loop_head.
      match goal with
      | |- context [(?a <? ?b)%nat] => destruct (Nat.ltb_spec a b) as [L'|G']
      end; [|lia].
      rewrite F. unfold well_formed, set_control.
      cbn [currentResults results written control isShuttingDown
           brandsToProcess].
      repeat split; try assumption; lia.
    + destruct (gracefulShutdown_saves_at_most_one t1 t2 ok p F W)
        as [C' [F' [L' [E' [R1 [R2 B']]]]]].
      unfold well_formed. rewrite C', R1, R2, B'.
      split; [exact CR|]. split; [exact Ob|]. split; [exact L'|].
      split; [reflexivity|]. split; [exact F'|]. split; [lia|].
      intros Z. apply E'. now rewrite CR.
  - destruct ev; unfold well_formed; rewrite Cp; tauto.
  - destruct ev; unfold well_formed; rewrite Cp; tauto.
Qed.

Lemma run_well_formed (this : BrandWebsiteFinder) (brands : list json)
    (S_ C : Z) (events : list event) :
  existsb ToString_throws (slice brands S_ (S_ + C)) = false ->
  well_formed (run (processBrands (fresh this) brands S_ C) events).
Proof.
  intros Conv. unfold run.
  assert (B : existsb ToString_throws
                (brandsToProcess (processBrands (fresh this) brands S_ C))
              = false).
  { rewrite processBrands_converted by exact Conv.
    unfold loop_head, set_control.
    repeat match goal with
           | |- context [if ?x then _ else _] => destruct x
           end; exact Conv. }
  revert B.
  generalize (processBrands_well_formed this brands S_ C Conv).
  generalize (processBrands (fresh this) brands S_ C).
  induction events as [|ev events IH]; intros p W B; [exact W|].
  cbn [fold_left]. apply IH.
  - apply step_well_formed; assumption.
  - now rewrite step_brandsToProcess.
Qed.

(** X12. Whatever events arrive after [processBrands] is called on a list
    of brand names, and in whatever order, between two events: the snapshot published in
    [currentResults] is the list of the records accumulated, all of them
    objects; at most one file has been written; [processBrands] has
    returned only with one record per brand of the slice, the flag clear and
    nothing written; and the process has exited only with code 0, the flag
    set and a brand of the slice still to do.  So [processBrands] never
    throws, the early [break] of the loop is never taken, and the exit with
    code 1 of a second signal is never reached. *)
Theorem every_await_is_well_formed
    (this : BrandWebsiteFinder) (brands : list jsstring) (S_ C : Z)
    (events : list event) :
  let p := run (processBrands (fresh this) (map JStr brands) S_ C) events in
  currentResults p = results p /\
  forallb is_object (results p) = true /\
  (List.length (written p) <= 1)%nat /\
  match control p with
  | AwaitRequest i =>
      isShuttingDown p = false /\ written p = [] /\
      i = List.length (results p) /\
      (i < List.length (brandsToProcess p))%nat
  | AwaitDelay i =>
      isShuttingDown p = false /\ written p = [] /\
      S i = List.length (results p) /\
      (S i < List.length (brandsToProcess p))%nat
  | Returned returned_ =>
      isShuttingDown p = false /\ written p = [] /\
      returned_ = results p /\
      List.length returned_ = List.length (brandsToProcess p)
  | Exited code =>
      code = 0%Z /\ isShuttingDown p = true /\
      (List.length (results p) < List.length (brandsToProcess p))%nat /\
      (results p = [] -> written p = [])
  | Idle => False
  | Rejected _ => False
  end.
Proof.
  cbv zeta.
  change (well_formed (run (processBrands (fresh this) (map JStr brands) S_ C)
                         events)).
  apply run_well_formed. rewrite slice_map. apply strings_convert.
Qed.

(** ** The Run Record, further *)

(** The [success] of a record tells whether the answer carried an object
    that parsed. *)
Lemma findBrandWebsite_success_field
    (brandName : json) (reply : fetch_result) (now : jsstring)
    (this : BrandWebsiteFinder) :
  ToString_throws brandName = false ->
  exists o this',
    findBrandWebsite brandName reply now this = (Normal (JObj o), this') /\
    get_own (js "success") o
    = Some (JBool (match parsed_object reply with
                   | Some _ => true
                   | None => false
                   end)).
Proof.
  intros Conv. rewrite (findBrandWebsite_converted _ _ _ _ Conv).
  destruct (parsed_object reply) as [o|] eqn:P.
  - destruct (findBrandWebsite_parsed brandName now this reply o P)
      as [text [_ E]].
    do 2 eexists; split; [exact E|].
    exact (tagged_success _ _ _ _ _).
  - destruct (thrown reply) as [error|] eqn:T.
    + destruct (findBrandWebsite_thrown brandName now this reply error T)
        as [this' [_ E]].
      do 2 eexists; split; [exact E | reflexivity].
    + destruct (text_of reply) as [text|] eqn:X.
      * rewrite (findBrandWebsite_unparsed brandName now this reply text X P).
        do 2 eexists; split; reflexivity.
      * apply text_of_thrown in X. contradiction.
Qed.

Lemma query_all_success_counts (env : environment) (brands : list json) :
  existsb ToString_throws brands = false ->
  forall this i,
    exists successful failed,
      filter_c (success_is true) (fst (query_all this brands env i))
      = Normal successful /\
      filter_c (success_is false) (fst (query_all this brands env i))
      = Normal failed /\
      List.length successful = successes env i (List.length brands) /\
      (List.length successful + List.length failed = List.length brands)%nat /\
      forallb is_object failed = true.
Proof.
  induction brands as [|b brands IH]; intros Conv this i.
  - exists [], []. cbn. repeat split.
  - cbn [query_all]. split_conv Conv Cb Cr.
    destruct (findBrandWebsite_success_field b (fst (env i)) (snd (env i)) this
                Cb)
      as [o [this' [E S]]].
    rewrite E.
    destruct (IH Cr this' (Datatypes.S i)) as [s [f [Hs [Hf [Ls [La Of]]]]]].
    destruct (query_all this' brands env (Datatypes.S i)) as [rs this''].
    cbn [fst] in *. cbn [filter_c]. unfold success_is at 1 3.
    cbn [get_named cbind]. rewrite S, Hs, Hf. cbn [cbind].
    unfold successes in *. cbn [List.length seq filter].
    unfold succeeded at 1.
    destruct (parsed_object (fst (env i))); cbn [Bool.eqb];
      do 2 eexists; (split; [reflexivity|]); (split; [reflexivity|]);
      cbn [List.length forallb is_object andb]; repeat split;
      try assumption; lia.
Qed.

(** X13. In the Run Record of a batch the counts add up: for the records of
    any brands queried in turn, [saveResults] builds its record without
    throwing, [total_brands_processed] is the number of brands,
    [successful_searches] the number of answers that carried an object that
    parsed, and [failed_searches] the rest; [success_rate] is computed from
    these two numbers, and is [NaN%] for no brand at all. *)
Theorem run_record_counts_add_up
    (env : environment) (this saver : BrandWebsiteFinder)
    (brands : list jsstring) (now : jsstring) :
  let rs := fst (query_all this (map JStr brands) env 0) in
  let n := List.length brands in
  let s := successes env 0 n in
  exists meta,
    saveResults_output saver rs now
    = Normal (JObj [(js "metadata", JObj meta); (js "results", JArr rs)]) /\
    get_own (js "total_brands_processed") meta = Some (num_of_nat n) /\
    get_own (js "successful_searches") meta = Some (num_of_nat s) /\
    get_own (js "failed_searches") meta = Some (num_of_nat (n - s)) /\
    (s <= n)%nat /\
    get_own (js "success_rate") meta = Some (JStr (success_rate s n)) /\
    (n = 0%nat -> success_rate s n = js "NaN%").
Proof.
  intros rs n s. subst rs n s.
  destruct (query_all_success_counts env (map JStr brands)
              (strings_convert brands) this 0)
    as [successful [failed [Hs [Hf [Ls [La Of]]]]]].
  rewrite length_map in Ls, La.
  destruct (filter_c_objects _ is_model_issue_object failed Of)
    as [issues [Hi _]].
  unfold saveResults_output. rewrite Hs, Hf. cbn [cbind]. rewrite Hi.
  cbn [cbind]. eexists. split; [reflexivity|].
  rewrite query_all_length by apply strings_convert.
  rewrite length_map, Ls.
  replace (List.length failed)
    with (List.length brands - successes env 0 (List.length brands))%nat
    by lia.
  split; [reflexivity|]. split; [reflexivity|]. split; [reflexivity|].
  split; [lia|]. split; [reflexivity|].
  intros Z. rewrite Z. reflexivity.
Qed.

(* ================================================================== *)
(** ** [main] *)

Lemma number_or_nonzero (n : option Z) (fallback : Z) :
  fallback <> 0%Z -> number_or n fallback <> 0%Z.
Proof.
  intros H. unfold number_or. destruct n as [z|]; [|exact H].
  destruct (Z.eqb_spec z 0); assumption.
Qed.

Lemma arg_count_nonzero (inv : invocation) : arg_count inv <> 0%Z.
Proof. apply number_or_nonzero. discriminate. Qed.

(** The object built for show mode never gets to [processBrands]. *)
Lemma minimal_finder_never_queries
    (inv : invocation) (brandData : json) (k : jsstring) (dir : directory) :
  exists code, main_with_finder inv brandData (Minimal k) dir = ExitBeforeRun code.
Proof.
  unfold main_with_finder.
  destruct brandData as [| | | |[|b bs]| | |]; eauto.
  destruct (_ <=? _)%Z; eauto.
  destruct (negb (forceRun inv)); eauto.
  destruct (hasResults _); [destruct (showExisting inv);
                            [destruct (display_prints inv)|]|
                            destruct (showExisting inv)]; eauto.
Qed.

Lemma full_finder_queries
    (inv : invocation) (brandData : json) (this0 : BrandWebsiteFinder)
    (dir : directory) (this : BrandWebsiteFinder) (data_ : list json)
    (S_ C : Z) :
  main_with_finder inv brandData (Full this0) dir
  = CallsProcessBrands this data_ S_ C
  <->
  exists b bs,
    brandData = JArr (b :: bs) /\ data_ = b :: bs /\ this = this0 /\
    S_ = arg_startIndex inv /\ C = arg_count inv /\
    (S_ < Z.of_nat (List.length (b :: bs)))%Z /\
    (forceRun inv = true \/
     (showExisting inv = false /\
      hasResults (fst (checkExistingResults this0 dir C)) = false)).
Proof.
  unfold main_with_finder, check_of. split.
  - destruct brandData as [| | | |[|b bs]| | |]; try discriminate.
    destruct (Z.leb_spec (Z.of_nat (List.length (b :: bs))) (arg_startIndex inv))
      as [Le|Lt]; [discriminate|].
    destruct (forceRun inv); cbn [negb].
    + intros H; injection H as <- <- <- <-. exists b, bs. tauto.
    + destruct (hasResults _) eqn:Hr.
      * destruct (showExisting inv); [destruct (display_prints inv)|];
          discriminate.
      * destruct (showExisting inv); [discriminate|].
        intros H; injection H as <- <- <- <-. exists b, bs. tauto.
  - intros [b [bs [-> [-> [-> [-> [-> [Lt Cond]]]]]]]].
    destruct (Z.leb_spec (Z.of_nat (List.length (b :: bs))) (arg_startIndex inv))
      as [Le|_]; [lia|].
    destruct Cond as [F|[Sh Hr]].
    + rewrite F. reflexivity.
    + rewrite Sh, Hr. destruct (negb (forceRun inv)); reflexivity.
Qed.

(** When the constructor returns: the key is answered by [CONFIG.MODELS],
    with the name of a model of the table or with a value inherited from
    [Object.prototype]; the credential is set; and the output directory is
    there or can be made. *)
Lemma new_BrandWebsiteFinder_constructed
    (modelKey_ : jsstring) (key : bool) (d : output_dir)
    (this : BrandWebsiteFinder) (listing_ : directory) :
  new_BrandWebsiteFinder modelKey_ key d = Constructed this listing_
  <->
  key = true /\ ensureOutputDir d = Normal listing_ /\
  exists modelName_,
    this = mkFinder modelKey_ modelName_ (mkTokenUsage 0 0 0 0 0 []) /\
    ((exists name, assoc modelKey_ MODELS = Some name /\ modelName_ = JStr name)
     \/
     (assoc modelKey_ MODELS = None /\ In modelKey_ Object_prototype_names /\
      modelName_ = if JsString.eqb modelKey_ (js "__proto__")
                   then JObj [] else JFunction)).
Proof.
  unfold new_BrandWebsiteFinder, lookup_model.
  assert (Ex : existsb (JsString.eqb modelKey_) Object_prototype_names = true
               <-> In modelKey_ Object_prototype_names).
  { rewrite existsb_exists. split.
    - intros [x [I E]]. apply jsstring_eqb_eq in E. now subst x.
    - intros I. exists modelKey_. split; [exact I | apply jsstring_eqb_refl]. }
  split.
  - destruct (assoc modelKey_ MODELS) as [name|] eqn:A;
      [|destruct (existsb _ Object_prototype_names) eqn:E; [|discriminate]];
      (destruct key; cbn [negb]; [|discriminate]);
      (destruct (ensureOutputDir d) as [l|e]; [|discriminate]);
      intros H; injection H as <- <-;
      (split; [reflexivity|]); (split; [reflexivity|]);
      eexists; (split; [reflexivity|]).
    + left. eauto.
    + right. split; [reflexivity|]. split; [now apply Ex | reflexivity].
  - intros [-> [En [m [-> [[name [A ->]]|[A [I ->]]]]]]]; rewrite A.
    + cbn [negb]. rewrite En. reflexivity.
    + apply Ex in I. rewrite I. cbn [negb]. rewrite En. reflexivity.
Qed.

(** X14. [main] calls [processBrands], and so the backend, exactly when:
    [brandNames.json] parses to a non-empty array; [CONFIG.MODELS] answers
    the model key (the first argument, or the default), which is then a key
    of the table or one of the names every object inherits from
    [Object.prototype]; the credential is set; the output directory is
    there or can be made; the start index is below the length of the array;
    and either a force flag is given, or no show flag is given and
    [checkExistingResults] finds the stored results insufficient.  The
    finder then is a fresh one, whose model name is the one of the table or,
    for an inherited name, a function or the prototype; the count is never
    0, and the array is passed whole. *)
Theorem main_queries_exactly_when
    (inv : invocation) (this : BrandWebsiteFinder) (brandData : list json)
    (S_ C : Z) :
  main_start inv = CallsProcessBrands this brandData S_ C
  <->
  exists text b bs modelName_ listing,
    brand_file inv = Some text /\
    JSON_parse text = Some (JArr (b :: bs)) /\ brandData = b :: bs /\
    ((exists name,
        assoc (arg_modelKey inv) MODELS = Some name /\ modelName_ = JStr name)
     \/
     (assoc (arg_modelKey inv) MODELS = None /\
      In (arg_modelKey inv) Object_prototype_names /\
      modelName_ = if JsString.eqb (arg_modelKey inv) (js "__proto__")
                   then JObj [] else JFunction)) /\
    this = mkFinder (arg_modelKey inv) modelName_ (mkTokenUsage 0 0 0 0 0 []) /\
    api_key inv = true /\
    ensureOutputDir (out_dir inv) = Normal listing /\
    S_ = arg_startIndex inv /\ C = arg_count inv /\ C <> 0%Z /\
    (S_ < Z.of_nat (List.length (b :: bs)))%Z /\
    (forceRun inv = true \/
     (showExisting inv = false /\
      hasResults (fst (checkExistingResults this listing C)) = false)).
Proof.
  unfold main_start. split.
  - destruct (brand_file inv) as [text|]; [|discriminate].
    destruct (JSON_parse text) as [bd|] eqn:P; [|discriminate].
    destruct (new_BrandWebsiteFinder (arg_modelKey inv) (api_key inv)
                (out_dir inv)) as [this0 listing0|e] eqn:N.
    + intros H. apply full_finder_queries in H.
      destruct H as [b [bs [-> [-> [-> [-> [-> [Lt Cond]]]]]]]].
      apply new_BrandWebsiteFinder_constructed in N.
      destruct N as [K [En [m [-> Own]]]].
      exists text, b, bs, m, listing0.
      repeat split; try assumption; try reflexivity.
      apply arg_count_nonzero.
    + destruct (_ && _); [|discriminate].
      intros H.
      destruct (minimal_finder_never_queries inv bd (arg_modelKey inv)
                  (listing_of (out_dir inv))) as [code E].
      congruence.
  - intros [text [b [bs [m [listing [Bf [P [-> [Own [-> [K [En [-> [-> [_ [Lt Cond]]]]]]]]]]]]]]]].
    rewrite Bf, P.
    assert (N : new_BrandWebsiteFinder (arg_modelKey inv) (api_key inv)
                  (out_dir inv)
                = Constructed
                    (mkFinder (arg_modelKey inv) m (mkTokenUsage 0 0 0 0 0 []))
                    listing).
    { apply new_BrandWebsiteFinder_constructed. eauto 6. }
    rewrite N. apply full_finder_queries. exists b, bs. tauto.
Qed.

Lemma includes_across (p x y : jsstring) (q : code_unit) :
  ~ In q p ->
  includes p (x ++ q :: y) = true ->
  includes p x = true \/ includes p y = true.
Proof.
  intros Hq.
  assert (St : forall p' x', (forall c, In c p' -> In c p) ->
               startsWith p' (x' ++ q :: y) = true -> startsWith p' x' = true).
  { induction p' as [|c p' IH]; intros x' Sub; [destruct x'; reflexivity|].
    destruct x' as [|d x']; cbn [app startsWith].
    - rewrite andb_true_iff, N.eqb_eq. intros [-> _].
      exfalso. apply Hq, Sub. now left.
    - rewrite !andb_true_iff. intros [E S]. split; [exact E|].
      apply IH; [|exact S]. intros c' I. apply Sub. now right. }
  induction x as [|d x IH]; cbn [app].
  - cbn [includes]. rewrite orb_true_iff. intros [S|I]; [|now right].
    left. apply (St p []) in S; [|auto]. destruct p; [reflexivity|discriminate].
  - change (includes p (d :: x ++ q :: y))
      with (startsWith p (d :: x ++ q :: y) || includes p (x ++ q :: y)).
    rewrite orb_true_iff. intros [S|I].
    + left. apply (St p (d :: x)) in S; [|auto].
      cbn [includes]. now rewrite S.
    + destruct (IH I) as [L|R]; [left; now apply includes_cons | now right].
Qed.

(** X15. A model key that [CONFIG.MODELS] does not have (and that is no name
    inherited from [Object.prototype]) ends the program with code 1, before
    the credential, the input array or the stored results are looked at:
    whenever no show flag is given, or the key does not contain the text
    [OPENROUTER_API_KEY].  A flag given as the first argument is such a
    key. *)
Theorem unknown_model_exits_with_1 (inv : invocation) :
  lookup_model (arg_modelKey inv) = NoModel ->
  showExisting inv
  && includes (js "OPENROUTER_API_KEY") (arg_modelKey inv) = false ->
  main_start inv = ExitBeforeRun 1.
Proof.
  intros L H. unfold main_start.
  destruct (brand_file inv) as [text|]; [|reflexivity].
  destruct (JSON_parse text) as [bd|]; [|reflexivity].
  unfold new_BrandWebsiteFinder. rewrite L. cbn [QueryClient.message].
  destruct (showExisting inv); [|reflexivity]. cbn [andb] in *.
  destruct (includes (js "OPENROUTER_API_KEY") (js "Model '" ++ _)) eqn:I;
    [|reflexivity].
  exfalso.
  change (js "Model '") with (js "Model " ++ [39]) in I.
  rewrite <- app_assoc in I. cbn [app] in I.
  apply (includes_across _ _ _ 39) in I;
    [|vm_compute; intuition discriminate].
  destruct I as [I|I]; [vm_compute in I; discriminate|].
  change (js "' not found. Available models: ")
    with (39 :: js " not found. Available models: ") in I.
  cbn [app] in I.
  apply (includes_across _ _ _ 39) in I;
    [|vm_compute; intuition discriminate].
  destruct I as [I|I]; [congruence | vm_compute in I; discriminate].
Qed.

Lemma unknown_model_exits_with_1_witness :
  main_start (mkInvocation (Some (jq "['Acme']")) [js "--show"; js "gpt-4o"]
                true (DirPresent (Some results_dir)) true)
  = ExitBeforeRun 1.
Proof.
  apply unknown_model_exits_with_1; vm_compute; reflexivity.
Defined.

(** X16. Without the credential, with a model key that [CONFIG.MODELS]
    answers and a valid input array and start index, [main] exits before any
    request.  It exits with 0 exactly when a show flag is given, no force
    flag is, and the object built for show mode finds nothing stored or the
    display of what it finds goes through; otherwise with 1. *)
Theorem missing_credential_exit_code
    (inv : invocation) (text : jsstring) (b : json) (bs : list json) :
  api_key inv = false ->
  lookup_model (arg_modelKey inv) <> NoModel ->
  brand_file inv = Some text ->
  JSON_parse text = Some (JArr (b :: bs)) ->
  (arg_startIndex inv < Z.of_nat (List.length (b :: bs)))%Z ->
  main_start inv
  = ExitBeforeRun
      (if showExisting inv && negb (forceRun inv)
          && (negb (hasResults
                      (fst (minimal_checkExistingResults (arg_modelKey inv)
                              (listing_of (out_dir inv)) (arg_count inv))))
              || display_prints inv)
       then 0 else 1).
Proof.
  intros K L Bf P Lt. unfold main_start. rewrite Bf, P.
  unfold new_BrandWebsiteFinder. rewrite K. cbn [negb].
  assert (I : includes (js "OPENROUTER_API_KEY")
                (js "OPENROUTER_API_KEY environment variable is required")
              = true) by (vm_compute; reflexivity).
  destruct (lookup_model (arg_modelKey inv)); [| |contradiction];
    cbn [QueryClient.message]; rewrite I, andb_true_r;
    unfold main_with_finder, check_of;
    (destruct (showExisting inv); [|reflexivity]);
    (destruct (Z.leb_spec (Z.of_nat (List.length (b :: bs)))
                (arg_startIndex inv)); [lia|]);
    destruct (forceRun inv); cbn [negb andb]; try reflexivity;
    destruct (hasResults _); cbn [negb orb]; try reflexivity;
    destruct (display_prints inv); reflexivity.
Qed.

Lemma missing_credential_exit_code_witness :
  main_start (mkInvocation (Some (jq "['Acme']")) [js "gpt-4o-mini"; js "--show"]
                false (DirPresent (Some results_dir)) true)
  = ExitBeforeRun 0.
Proof.
  apply (missing_credential_exit_code
           (mkInvocation (Some (jq "['Acme']")) [js "gpt-4o-mini"; js "--show"]
              false (DirPresent (Some results_dir)) true)
           (jq "['Acme']") (JStr (js "Acme")) []);
    vm_compute; try reflexivity; discriminate.
Defined.

(** X17. Stored results stop a run.  With the credential, a model key that
    [CONFIG.MODELS] answers, a valid input array and start index and no
    force flag: when the results directory lists a candidate file of the
    model (not a partial one) with at least one qualifying record and at
    least as many as the count asked for, [main] exits before any request;
    with code 0, or with code 1 when a show flag is given and the display
    fails. *)
Theorem stored_results_stop_the_run
    (inv : invocation) (text : jsstring) (b : json) (bs : list json)
    (entries : list dir_entry) (e : dir_entry) (n : nat) :
  brand_file inv = Some text ->
  JSON_parse text = Some (JArr (b :: bs)) ->
  (arg_startIndex inv < Z.of_nat (List.length (b :: bs)))%Z ->
  lookup_model (arg_modelKey inv) <> NoModel ->
  api_key inv = true ->
  out_dir inv = DirPresent (Some entries) ->
  forceRun inv = false ->
  In e (candidates (arg_modelKey inv) entries) ->
  qualifying_count e = Some n ->
  (1 <= n)%nat ->
  (arg_count inv <= Z.of_nat n)%Z ->
  main_start inv
  = ExitBeforeRun (if showExisting inv && negb (display_prints inv)
                   then 1 else 0).
Proof.
  intros Bf P Lt A K D F I Q N C. unfold main_start. rewrite Bf, P.
  assert (Co : exists m,
             new_BrandWebsiteFinder (arg_modelKey inv) (api_key inv)
               (out_dir inv)
             = Constructed
                 (mkFinder (arg_modelKey inv) m (mkTokenUsage 0 0 0 0 0 []))
                 (Some entries)).
  { unfold new_BrandWebsiteFinder. rewrite K, D. cbn [negb ensureOutputDir].
    destruct (lookup_model (arg_modelKey inv)) as [name|v|];
      [eauto | eauto | contradiction]. }
  destruct Co as [m Co]. rewrite Co.
  unfold main_with_finder, check_of.
  destruct (Z.leb_spec (Z.of_nat (List.length (b :: bs))) (arg_startIndex inv));
    [lia|].
  rewrite F. cbn [negb].
  pose proof (full_check_shape
                (mkFinder (arg_modelKey inv) m (mkTokenUsage 0 0 0 0 0 []))
                entries (arg_count inv)) as [_ [Hr _]].
  cbn [modelKey] in Hr. rewrite Hr.
  pose proof (count_le_best _ _ I) as Le. unfold count_or_zero in Le.
  rewrite Q in Le.
  destruct (Nat.leb_spec 1 (best_count (candidates (arg_modelKey inv) entries)));
    [|lia].
  destruct (Z.leb_spec (arg_count inv)
              (Z.of_nat (best_count (candidates (arg_modelKey inv) entries))));
    [|lia].
  cbn [andb]. destruct (showExisting inv); [|reflexivity].
  destruct (display_prints inv); reflexivity.
Qed.

Lemma stored_results_stop_the_run_witness :
  main_start (mkInvocation (Some (jq "['Acme','Boker','Case']"))
                [js "gpt-4o-mini"; js "2"] true
                (DirPresent (Some results_dir)) true)
  = ExitBeforeRun 0.
Proof.
  apply (stored_results_stop_the_run
           (mkInvocation (Some (jq "['Acme','Boker','Case']"))
              [js "gpt-4o-mini"; js "2"] true
              (DirPresent (Some results_dir)) true)
           (jq "['Acme','Boker','Case']") (JStr (js "Acme"))
           [JStr (js "Boker"); JStr (js "Case")]
           results_dir
           (js "brand_websites_gpt-4o-mini_2025-01-02T00-00-00-000Z.json",
            Some (jq "{'results':[{'success':true,'website_url':'https://a.example'},{'success':true,'website_url':'https://b.example'}]}"))
           2%nat);
    try (vm_compute; reflexivity).
  - vm_compute. discriminate.
  - vm_compute. right. left. reflexivity.
  - vm_compute. lia.
  - vm_compute. discriminate.
Defined.

(** X18. A whole run that no signal disturbs.  When [main] gets to
    [processBrands] and the input array holds strings, and every request
    settles: the records of the slice are saved under the name of the model
    as one Run Record, unless the write fails; and the exit code is 0
    exactly when the write and the summary go through and at least one
    answer carried an object that parsed.  A run whose slice is empty thus
    ends with code 1, like a run in which every search fails. *)
Theorem undisturbed_run_exit_code
    (inv : invocation) (this : BrandWebsiteFinder)
    (brands : list jsstring) (S_ C : Z) (env : environment) (fin : finish_env) :
  main_start inv = CallsProcessBrands this (map JStr brands) S_ C ->
  let sl := map JStr (slice brands S_ (S_ + C)) in
  let n := List.length sl in
  let out := query_all this sl env 0 in
  exists output,
    saveResults_output (snd out) (fst out) (save_now_meta fin) = Normal output /\
    main inv (undisturbed env 0 n) fin
    = Ended (if save_write_ok fin && summary_prints fin
                && negb (successes env 0 n =? 0)%nat
             then 0 else 1)
            (if save_write_ok fin
             then [(saveResults_filepath this (save_now_file fin), output)]
             else []).
Proof.
  intros St sl n out. subst n out.
  assert (Conv : existsb ToString_throws sl = false)
    by apply strings_convert.
  destruct (query_all_success_counts env sl Conv this 0)
    as [successful [failed [Hs [Hf [Ls [La Of]]]]]].
  destruct (filter_c_objects _ is_model_issue_object failed Of)
    as [issues [Hi _]].
  assert (So : exists output,
             saveResults_output (snd (query_all this sl env 0))
               (fst (query_all this sl env 0)) (save_now_meta fin)
             = Normal output).
  { unfold saveResults_output. rewrite Hs, Hf. cbn [cbind]. rewrite Hi.
    cbn [cbind]. eexists. reflexivity. }
  destruct So as [output So]. exists output. split; [exact So|].
  unfold main. rewrite St. subst sl. rewrite run_processBrands_strings.
  set (sl := map JStr (slice brands S_ (S_ + C))) in *.
  cbn [control isShuttingDown written finder app]. unfold main_finish.
  rewrite So, Hs, Hf.
  unfold saveResults_filepath. rewrite query_all_modelKey by exact Conv.
  rewrite query_all_length by exact Conv.
  destruct (save_write_ok fin); cbn [andb fst snd]; [|reflexivity].
  destruct (summary_prints fin); cbn [andb fst snd]; [|reflexivity].
  rewrite <- Ls.
  destruct (Nat.eqb_spec (List.length failed) (List.length sl)) as [E|NE];
    destruct (Nat.eqb_spec (List.length successful) 0) as [Z|NZ];
    cbn [negb fst snd]; try lia; try reflexivity.
  destruct (_ <? _)%nat; reflexivity.
Qed.

Lemma undisturbed_run_exit_code_witness :
  exists output,
    saveResults_output
      (snd (query_all finder0 (map JStr (slice three_brands 0 (0 + 10)))
              silent_env 0))
      (fst (query_all finder0 (map JStr (slice three_brands 0 (0 + 10)))
              silent_env 0))
      clock0 = Normal output /\
    main (mkInvocation (Some (jq "['Acme Blades','Boker','Case']")) [] true
            (DirMissing None) true)
         (undisturbed silent_env 0
            (List.length (map JStr (slice three_brands 0 (0 + 10)))))
         (mkFinish clock0 clock0 true true)
    = Ended (if true && true
                && negb (successes silent_env 0
                           (List.length
                              (map JStr (slice three_brands 0 (0 + 10))))
                         =? 0)%nat
             then 0 else 1)
            (if true
             then [(saveResults_filepath finder0 clock0, output)]
             else []).
Proof.
  apply (undisturbed_run_exit_code
           (mkInvocation (Some (jq "['Acme Blades','Boker','Case']")) [] true
              (DirMissing None) true)
           finder0 three_brands 0 10 silent_env
           (mkFinish clock0 clock0 true true));
    vm_compute; reflexivity.
Defined.

Lemma main_with_finder_codes
    (inv : invocation) (brandData : json) (f : finder_kind) (dir : directory)
    (code : Z) :
  main_with_finder inv brandData f dir = ExitBeforeRun code ->
  code = 0%Z \/ code = 1%Z.
Proof.
  unfold main_with_finder.
  destruct brandData as [| | | |[|b bs]| | |];
    try (intros H; injection H as <-; now right).
  destruct (_ <=? _)%Z; [intros H; injection H as <-; now right|].
  destruct f as [this|k];
    (destruct (negb (forceRun inv));
     [destruct (hasResults _);
      [destruct (showExisting inv); [destruct (display_prints inv)|]|
       destruct (showExisting inv)]|]);
    intros H; try discriminate; injection H as <-; auto.
Qed.

Lemma main_start_codes (inv : invocation) (code : Z) :
  main_start inv = ExitBeforeRun code -> code = 0%Z \/ code = 1%Z.
Proof.
  unfold main_start.
  destruct (match brand_file inv with
            | Some text => JSON_parse text
            | None => None
            end) as [bd|]; [|intros H; injection H as <-; now right].
  destruct (new_BrandWebsiteFinder _ _ _) as [this listing|e].
  - apply main_with_finder_codes.
  - destruct (_ && _); [apply main_with_finder_codes|].
    intros H; injection H as <-; now right.
Qed.

Lemma main_finish_codes (this : BrandWebsiteFinder) (results_ : list json)
    (now_file now_meta : jsstring) (write_ok summary : bool) :
  let out := main_finish this results_ now_file now_meta write_ok summary in
  (fst out = 0%Z \/ fst out = 1%Z) /\ (List.length (snd out) <= 1)%nat.
Proof.
  cbv zeta. unfold main_finish.
  destruct (saveResults_output this results_ now_meta); [|cbn; auto].
  destruct write_ok; [|cbn; auto].
  destruct summary; [|cbn; auto].
  destruct (filter_c (success_is true) results_); [|cbn; auto].
  destruct (filter_c (success_is false) results_); [|cbn; auto].
  destruct (_ =? _)%nat; [cbn; auto|].
  destruct (_ <? _)%nat; cbn; auto.
Qed.

(** Once [processBrands] has thrown, nothing of it is left to move. *)
Lemma rejected_is_final (p : process) (e : Error) (events : list event) :
  control p = Rejected e -> run p events = p.
Proof.
  intros H. induction events as [|ev events IH]; [reflexivity|].
  simpl. replace (step p ev) with p; [exact IH|].
  unfold step. rewrite H. destruct ev; reflexivity.
Qed.

(** A brand of the slice that cannot be converted to a string makes
    [processBrands] throw before its loop. *)
Lemma run_processBrands_rejects
    (this : BrandWebsiteFinder) (brands : list json) (S_ C : Z)
    (events : list event) :
  existsb ToString_throws (slice brands S_ (S_ + C)) = true ->
  run (processBrands (fresh this) brands S_ C) events
  = mkProcess false [] (Some the_finder) this (slice brands S_ (S_ + C)) []
      (Rejected (mkError (js "Cannot convert object to primitive value"))) [].
Proof.
  intros Thr.
  assert (E : processBrands (fresh this) brands S_ C
              = mkProcess false [] (Some the_finder) this
                  (slice brands S_ (S_ + C)) []
                  (Rejected
                     (mkError (js "Cannot convert object to primitive value")))
                  []).
  { unfold processBrands. cbn [brandsToProcess]. rewrite Thr. reflexivity. }
  rewrite E. eapply rejected_is_final. reflexivity.
Qed.

(** X19. However a run of [main] ends, with whatever arguments, files,
    answers and signals, and whatever the input array holds: the exit code
    is 0 or 1, and at most one file has been written. *)
Theorem main_ends_with_0_or_1
    (inv : invocation) (events : list event) (fin : finish_env)
    (code : Z) (files : list (jsstring * json)) :
  main inv events fin = Ended code files ->
  (code = 0%Z \/ code = 1%Z) /\ (List.length files <= 1)%nat.
Proof.
  unfold main.
  destruct (main_start inv) as [c|this brandData S_ C] eqn:St.
  - intros H; injection H as <- <-.
    split; [exact (main_start_codes inv c St) | cbn; lia].
  - destruct (existsb ToString_throws (slice brandData S_ (S_ + C))) eqn:Conv.
    + rewrite run_processBrands_rejects by exact Conv.
      cbn [control isShuttingDown written].
      intros H; injection H as <- <-. split; [now right | cbn; lia].
    + pose proof (run_well_formed this brandData S_ C events Conv) as W.
      destruct W as [_ [_ [Wl Wc]]].
      destruct (control (run (processBrands (fresh this) brandData S_ C) events))
        as [|i|i|rs|e|c]; try discriminate; try contradiction.
      * destruct Wc as [Sh [Wr _]]. rewrite Sh, Wr. cbn [app].
        intros H; injection H as <- <-. apply main_finish_codes.
      * destruct Wc as [-> _].
        intros H; injection H as <- <-. split; [now left | exact Wl].
Qed.

Lemma main_ends_with_0_or_1_witness :
  let ending_ :=
    main (mkInvocation (Some (jq "['Acme Blades','Boker','Case']"))
            [js "gpt-4o"; js "2"] true (DirMissing None) true)
         [RequestSettled respelled_reply clock0; TimerFired;
          RequestSettled (ResponseNotOk 429 (js "rate limited")) clock0]
         (mkFinish clock0 clock0 true true) in
  let code := match ending_ with Ended c _ => c | Waiting _ => 2%Z end in
  let files := match ending_ with Ended _ f => f | Waiting _ => [] end in
  ending_ = Ended code files /\
  code = 0%Z /\ List.length files = 1%nat /\
  ((code = 0%Z \/ code = 1%Z) /\ (List.length files <= 1)%nat).
Proof.
  cbv zeta.
  split; [vm_compute; reflexivity|].
  split; [vm_compute; reflexivity|].
  split; [vm_compute; reflexivity|].
  apply (main_ends_with_0_or_1
           (mkInvocation (Some (jq "['Acme Blades','Boker','Case']"))
              [js "gpt-4o"; js "2"] true (DirMissing None) true)
           [RequestSettled respelled_reply clock0; TimerFired;
            RequestSettled (ResponseNotOk 429 (js "rate limited")) clock0]
           (mkFinish clock0 clock0 true true)).
  vm_compute. reflexivity.
Defined.

(** X21. An element of the input array that cannot be converted to a
    string (an object with a property [toString] of its own, or an array
    that holds one) stops the run when it lies in the slice:
    [processBrands] throws at its [join], before any request; no record is
    made and nothing is written, whatever events arrive; and [main] exits
    with code 1. *)
Theorem unconvertible_brand_stops_the_run
    (inv : invocation) (this : BrandWebsiteFinder) (brandData : list json)
    (S_ C : Z) (events : list event) (fin : finish_env) :
  main_start inv = CallsProcessBrands this brandData S_ C ->
  existsb ToString_throws (slice brandData S_ (S_ + C)) = true ->
  let p := run (processBrands (fresh this) brandData S_ C) events in
  (exists e, control p = Rejected e) /\
  results p = [] /\ written p = [] /\ finder p = this /\
  main inv events fin = Ended 1 [].
Proof.
  intros St Thr p. subst p. unfold main. rewrite St.
  rewrite run_processBrands_rejects by exact Thr.
  cbn [control results written finder isShuttingDown].
  split; [eauto|]. repeat split.
Qed.

Lemma unconvertible_brand_stops_the_run_witness :
  (exists e,
      control (run (processBrands (fresh finder0)
                      [JStr (js "Acme Blades");
                       JObj [(js "toString", JNull)]] 0 10)
                 [RequestSettled respelled_reply clock0]) = Rejected e) /\
  results (run (processBrands (fresh finder0)
                  [JStr (js "Acme Blades"); JObj [(js "toString", JNull)]] 0 10)
             [RequestSettled respelled_reply clock0]) = [] /\
  written (run (processBrands (fresh finder0)
                  [JStr (js "Acme Blades"); JObj [(js "toString", JNull)]] 0 10)
             [RequestSettled respelled_reply clock0]) = [] /\
  finder (run (processBrands (fresh finder0)
                 [JStr (js "Acme Blades"); JObj [(js "toString", JNull)]] 0 10)
            [RequestSettled respelled_reply clock0]) = finder0 /\
  main (mkInvocation (Some (jq "['Acme Blades',{'toString':null}]")) [] true
          (DirMissing None) true)
       [RequestSettled respelled_reply clock0]
       (mkFinish clock0 clock0 true true)
  = Ended 1 [].
Proof.
  apply (unconvertible_brand_stops_the_run
           (mkInvocation (Some (jq "['Acme Blades',{'toString':null}]")) []
              true (DirMissing None) true)
           finder0
           [JStr (js "Acme Blades"); JObj [(js "toString", JNull)]] 0 10
           [RequestSettled respelled_reply clock0]
           (mkFinish clock0 clock0 true true));
    vm_compute; reflexivity.
Defined.

(** X20. The example script ends with code 1 in every environment: the key
    [claude-3-haiku] of its first finder is not in [CONFIG.MODELS], so the
    constructor throws, before any request, whenever the credential is set
    and the input file is read. *)
Theorem runExample_always_exits_with_1 (inv : invocation) :
  runExample inv = ExampleExits 1 /\
  forall (key : bool) (d : output_dir),
    exists e, new_BrandWebsiteFinder (js "claude-3-haiku") key d
              = ConstructionThrows e.
Proof.
  assert (L : lookup_model (js "claude-3-haiku") = NoModel)
    by (vm_compute; reflexivity).
  assert (N : forall key d,
             exists e, new_BrandWebsiteFinder (js "claude-3-haiku") key d
                       = ConstructionThrows e).
  { intros key d. unfold new_BrandWebsiteFinder. rewrite L. eexists.
    reflexivity. }
  split; [|exact N].
  unfold runExample. destruct (api_key inv); cbn [negb]; [|reflexivity].
  destruct (brand_file inv) as [text|]; [|reflexivity].
  destruct (JSON_parse text) as [v|]; [|reflexivity].
  destruct (N true (out_dir inv)) as [e E]. rewrite E.
  destruct v; reflexivity.
Qed.
